(** * subcortex-vis: label mesh extraction, colouring, view presets and the
    debounced render loop, embedded from the Python sources.

    Conventions of the embedding.
    - A Python [float] is an exact rational in canonical form ([Qc], Leibniz
      equality); rounding error, infinities and NaN are outside the model.
    - A [Dict[float, float]] whose iteration order is never observed is a
      [gmap Qc Qc]; [label_colors], whose key order feeds the palette index,
      is an insertion-ordered association list.
    - Widgets are records of the fields the handlers read and write; a Qt
      signal is a call of the slots connected to it.
    - The one exception the GUI code can raise is the ValueError of
      matplotlib's [Normalize]. A method it unwinds through has an
      [outcome]; when it leaves a slot that Qt called, the process ends,
      and the result of the event is [None].
    - The libraries (scipy, pyvista, matplotlib, the rounding of Qt's spin
      boxes) are an interface ([GeometryLib], [ColorLib], [QtLib]); their
      documented contracts are stated as laws and assumed only by the
      theorems that need them. *)

From stdpp Require Import base numbers list strings gmap sorting.
From Stdlib Require Import QArith Qcanon Qround Lqa Ascii.
Local Open Scope Qc_scope.

(** ** Numbers *)

(** The decimal literal [n/d]. *)
Definition dec (n : Z) (d : positive) : Qc := Q2Qc (n # d).

(** Python's [max(a, b, ...)] and [min(...)]: scan left to right and keep
    the running item unless the next one is strictly better; [None] stands
    for the ValueError raised on an empty sequence. *)
Definition py_max (xs : list Qc) : option Qc :=
  match xs with
  | [] => None
  | x :: rest => Some (foldl (fun m y => if bool_decide (m < y) then y else m) x rest)
  end.

Definition py_min (xs : list Qc) : option Qc :=
  match xs with
  | [] => None
  | x :: rest => Some (foldl (fun m y => if bool_decide (y < m) then y else m) x rest)
  end.

Definition vec3 : Type := Qc * Qc * Qc.

(** ** mesh_viz.py *)
Module MeshViz.

(** A numpy volume: its shape and its voxels in Fortran order. *)
Record ndarray := { shape : nat * nat * nat; voxels : list Qc }.

(** A pyvista PolyData: points and triangles. *)
Record PolyData := { points : list vec3; faces : list (nat * nat * nat) }.

Definition n_points (m : PolyData) : nat := length (points m).

#[global] Instance ndarray_eq_dec : EqDecision ndarray.
Proof. solve_decision. Defined.

#[global] Instance PolyData_eq_dec : EqDecision PolyData.
Proof. solve_decision. Defined.

(** [plotter.bounds] *)
Record bounds := {
  xmin : Qc; xmax : Qc; ymin : Qc; ymax : Qc; zmin : Qc; zmax : Qc
}.

#[global] Instance bounds_eq_dec : EqDecision bounds.
Proof. solve_decision. Defined.

(** The calls into scipy.ndimage and pyvista. *)
Class GeometryLib := {
  gaussian_filter : ndarray -> Qc -> ndarray;
  contour : ndarray -> vec3 -> vec3 -> Qc -> PolyData;
  smooth : PolyData -> Z -> Qc -> PolyData;
  scene_bounds : list PolyData -> bounds
}.

Section Extraction.
Context `{GeometryLib}.

(** [extract_isosurface]; [None] is Python's [None]. *)
Definition extract_isosurface (volume : ndarray) (spacing origin : vec3)
    (threshold sigma : Qc) (smooth_iter : Z) (smooth_relax : Qc)
    : option PolyData :=
  let field := volume in
  let field := if bool_decide (0 < sigma) then gaussian_filter field sigma
               else field in
  let surface := contour field spacing origin threshold in
  if bool_decide (n_points surface = 0%nat) then None
  else if bool_decide (0 < smooth_iter)%Z
       then Some (smooth surface smooth_iter smooth_relax)
       else Some surface.

(** [(volume == lbl).astype(float)] *)
Definition label_mask (volume : ndarray) (lbl : Qc) : ndarray :=
  {| shape := shape volume;
     voxels := (fun v => if bool_decide (v = lbl) then 1 else 0) <$> voxels volume |}.

(** One turn of the [for lbl in labels] loop. *)
Definition extract_step (volume : ndarray) (spacing origin : vec3)
    (sigma : Qc) (smooth_iter : Z) (smooth_relax threshold : Qc)
    (meshes : list (Qc * PolyData)) (lbl : Qc) : list (Qc * PolyData) :=
  let mask := label_mask volume lbl in
  match extract_isosurface mask spacing origin threshold sigma
          smooth_iter smooth_relax with
  | Some mesh => meshes ++ [(lbl, mesh)]
  | None => meshes
  end.

Definition extract_label_meshes (volume : ndarray) (labels : list Qc)
    (spacing origin : vec3) (sigma : Qc) (smooth_iter : Z)
    (smooth_relax threshold : Qc) : list (Qc * PolyData) :=
  foldl (extract_step volume spacing origin sigma smooth_iter
           smooth_relax threshold) [] labels.
End Extraction.

(** What [_set_view] does to the plotter: either the library's isometric
    reset, or an assignment to [camera_position]. *)
Inductive camera :=
| view_isometric
| camera_position (position focal up : vec3).

#[global] Instance camera_eq_dec : EqDecision camera.
Proof. solve_decision. Defined.

Definition x_mid (b : bounds) : Qc := dec 1 2 * (xmin b + xmax b).
Definition y_mid (b : bounds) : Qc := dec 1 2 * (ymin b + ymax b).
Definition z_mid (b : bounds) : Qc := dec 1 2 * (zmin b + zmax b).

Definition span (b : bounds) : Qc :=
  default 1 (py_max [xmax b - xmin b; ymax b - ymin b; zmax b - zmin b; 1]).

Definition dist (b : bounds) : Qc := span b * dec 18 10.

Definition _set_view (b : bounds) (view : string) : camera :=
  if String.eqb view "iso" then view_isometric
  else if String.eqb view "left" then
    camera_position (x_mid b - dist b, y_mid b, z_mid b)
                    (x_mid b, y_mid b, z_mid b) (0, 0, 1)
  else if String.eqb view "right" then
    camera_position (x_mid b + dist b, y_mid b, z_mid b)
                    (x_mid b, y_mid b, z_mid b) (0, 0, 1)
  else if String.eqb view "top" then
    camera_position (x_mid b, y_mid b, z_mid b + dist b)
                    (x_mid b, y_mid b, z_mid b) (0, 1, 0)
  else if String.eqb view "front" then
    camera_position (x_mid b, y_mid b - dist b, z_mid b)
                    (x_mid b, y_mid b, z_mid b) (0, 0, 1)
  else view_isometric.

End MeshViz.

(** ** mesh_viz.py: the command line *)
Module MeshVizCli.
Import MeshViz.

(** What [plotter.add_mesh] is given. *)
Record Actor := {
  mesh : PolyData; color : string; show_edges : bool; smooth_shading : bool;
  specular : Qc; specular_power : Qc; ambient : Qc; diffuse : Qc
}.

(** The plotter when [visualize_mesh] returns: how it was created, what was
    put into it, and the [screenshot] argument of the one call of [show]. *)
Record Plotter := {
  off_screen : bool; window_size : nat * nat; background : string;
  actors : list Actor; axes : bool; view_camera : camera;
  show_screenshot : option string
}.

(** The namespace [_parse_args] returns; [args_input] and [args_screenshot]
    are the paths as [str] prints them. *)
Record Args := {
  args_input : string; args_label : option Qc; args_threshold : Qc;
  args_sigma : Qc; args_smooth_iter : Z; args_smooth_relax : Qc;
  args_color : string; args_background : string; args_view : string;
  args_screenshot : option string; args_show_edges : bool
}.

(** How [main] ends: [SystemExit] with the file and the iso-value of its
    message, or normally, with the plotter shown and the line printed. *)
Inductive main_result :=
| SystemExit (input : string) (isovalue : Qc)
| Returned (p : Plotter) (printed : option string).

(** [if screenshot:] on [None], a [str] or a path. *)
Definition truthy (s : option string) : bool :=
  match s with
  | Some s => negb (String.eqb s "")
  | None => false
  end.

Section Cli.
Context `{GeometryLib}.

Definition add_mesh (m : PolyData) (c : string) (edges : bool) : Actor :=
  {| mesh := m; color := c; show_edges := edges; smooth_shading := true;
     specular := dec 15 100; specular_power := dec 5 1;
     ambient := dec 3 10; diffuse := dec 6 10 |}.

Definition visualize_mesh (m : PolyData) (c bg view : string)
    (screenshot : option string) (edges : bool) : Plotter * option string :=
  let acts := [add_mesh m c edges] in
  let shot := if truthy screenshot then screenshot else None in
  ({| off_screen := bool_decide (screenshot ≠ None);
      window_size := (1024%nat, 768%nat); background := bg;
      actors := acts; axes := true;
      view_camera := _set_view (scene_bounds (mesh <$> acts)) view;
      show_screenshot := shot |},
   shot).

Definition visualize_meshes (meshes : list (PolyData * string))
    (bg view : string) (screenshot : option string) (edges : bool)
    : Plotter * option string :=
  let acts := (fun mc => add_mesh mc.1 mc.2 edges) <$> meshes in
  let shot := if truthy screenshot then screenshot else None in
  ({| off_screen := bool_decide (screenshot ≠ None);
      window_size := (1200%nat, 800%nat); background := bg;
      actors := acts; axes := true;
      view_camera := _set_view (scene_bounds (mesh <$> acts)) view;
      show_screenshot := shot |},
   shot).

(** [main], from the result of [load_nii_volume] on. *)
Definition main (args : Args) (volume : ndarray) (spacing origin : vec3)
    : main_result :=
  let '(field, isovalue) :=
    match args_label args with
    | Some lbl => (label_mask volume lbl, dec 1 2)
    | None => (volume, args_threshold args)
    end in
  match extract_isosurface field spacing origin isovalue (args_sigma args)
          (args_smooth_iter args) (args_smooth_relax args) with
  | None => SystemExit (args_input args) isovalue
  | Some m =>
      let '(p, screenshot_path) :=
        visualize_mesh m (args_color args) (args_background args)
          (args_view args) (args_screenshot args) (args_show_edges args) in
      Returned p (if truthy screenshot_path
                  then String.append "Saved screenshot to " <$> screenshot_path
                  else None)
  end.
End Cli.

#[global] Instance cli_actor_eq_dec : EqDecision Actor.
Proof. solve_decision. Defined.

#[global] Instance cli_plotter_eq_dec : EqDecision Plotter.
Proof. solve_decision. Defined.

#[global] Instance main_result_eq_dec : EqDecision main_result.
Proof. solve_decision. Defined.

End MeshVizCli.

(** ** Python dictionaries that are iterated: insertion-ordered, keyed by
    float. [d[k] = v] keeps the position of an existing key and appends a
    new one. *)
Fixpoint dict_get {V} (d : list (Qc * V)) (k : Qc) : option V :=
  match d with
  | [] => None
  | (k', v) :: rest => if bool_decide (k' = k) then Some v else dict_get rest k
  end.

Fixpoint dict_set {V} (k : Qc) (v : V) (d : list (Qc * V)) : list (Qc * V) :=
  match d with
  | [] => [(k, v)]
  | (k', v') :: rest =>
      if bool_decide (k' = k) then (k', v) :: rest
      else (k', v') :: dict_set k v rest
  end.

(** [d.update(other)] *)
Definition dict_update {V} (d other : list (Qc * V)) : list (Qc * V) :=
  foldl (fun acc e => dict_set e.1 e.2 acc) d other.

Definition dict_keys {V} (d : list (Qc * V)) : list Qc := d.*1.

(** ** gui/constants.py *)
Module Constants.
Definition PALETTE : list string :=
  ["#4C78A8"; "#E45756"; "#72B7B2"; "#F28E2B";
   "#59A14F"; "#B279A2"; "#FF9DA6"; "#9C755F"].
Definition DEFAULT_SIGMA : Qc := dec 8 10.
Definition DEFAULT_SMOOTH_ITER : Z := 30.
Definition RENDER_DEBOUNCE_MS : nat := 80.

(** [PALETTE[idx % len(PALETTE)]] *)
Definition palette_color (idx : nat) : string :=
  default ""%string (PALETTE !! (idx mod length PALETTE)%nat).
End Constants.

(** ** gui/widgets/label_list.py *)
Module LabelList.
Import Constants.

(** Which dictionary object [label_values] refers to: the panel's own one,
    or the dictionary owned by the colormap panel, which the main window
    passes by reference. *)
Inductive values_ref :=
| own_values (d : gmap Qc Qc)
| panel_values.

Record LabelListPanel := {
  items : list (Qc * bool);           (* rows: UserRole label, checked *)
  label_colors : list (Qc * string);
  label_values : values_ref
}.

#[global] Instance values_ref_eq_dec : EqDecision values_ref.
Proof. solve_decision. Defined.

#[global] Instance LabelListPanel_eq_dec : EqDecision LabelListPanel.
Proof. solve_decision. Defined.

(** The colour painted for a label that has no entry in [label_colors]
    (delegates.py [paint], [_update_color_preview]). *)
Definition neutral_color : string := "#cccccc".

Definition init : LabelListPanel :=
  {| items := []; label_colors := []; label_values := own_values ∅ |}.

(** The dictionary a reference denotes, given the colormap panel's one. *)
Definition deref (panel_dict : gmap Qc Qc) (r : values_ref) : gmap Qc Qc :=
  match r with own_values d => d | panel_values => panel_dict end.

Definition _get_default_color (idx : nat) : string := palette_color idx.

(** The loop of [populate_labels] over [enumerate(labels)]. *)
Fixpoint populate_loop (idx : nat) (labels : list Qc)
    (its : list (Qc * bool)) (cols : list (Qc * string))
    : list (Qc * bool) * list (Qc * string) :=
  match labels with
  | [] => (its, cols)
  | lbl :: rest =>
      populate_loop (S idx) rest (its ++ [(lbl, true)])
        (dict_set lbl (_get_default_color idx) cols)
  end.

(** [populate_labels(labels, values)]; [values] is the reference passed,
    truthy when the dictionary it denotes is non-empty. *)
Definition populate_labels (panel_dict : gmap Qc Qc) (labels : list Qc)
    (values : option values_ref) (p : LabelListPanel) : LabelListPanel :=
  let lv := match values with
            | Some r => if bool_decide (deref panel_dict r = ∅)
                        then label_values p else r
            | None => label_values p
            end in
  let '(its, cols) := populate_loop 0 labels [] [] in
  {| items := its; label_colors := cols; label_values := lv |}.

Definition get_checked_labels (p : LabelListPanel) : list Qc :=
  (filter (fun it => it.2 = true) (items p)).*1.

Definition set_label_colors (colors : list (Qc * string))
    (p : LabelListPanel) : LabelListPanel :=
  {| items := items p;
     label_colors := dict_update (label_colors p) colors;
     label_values := label_values p |}.

(** [set_label_values]; [refresh_display] rebuilds the rows with the same
    labels and check states. *)
Definition set_label_values (values : values_ref)
    (p : LabelListPanel) : LabelListPanel :=
  {| items := items p; label_colors := label_colors p;
     label_values := values |}.

Definition with_colors (cols : list (Qc * string))
    (p : LabelListPanel) : LabelListPanel :=
  {| items := items p; label_colors := cols; label_values := label_values p |}.
End LabelList.

(** ** Strings as the CSV loader sees them (ASCII cells). *)
Definition ascii_lower (c : ascii) : ascii :=
  let n := nat_of_ascii c in
  if bool_decide (65 <= n <= 90)%nat then ascii_of_nat (n + 32) else c.

Fixpoint str_lower (s : string) : string :=
  match s with
  | EmptyString => EmptyString
  | String c rest => String (ascii_lower c) (str_lower rest)
  end.

(** The ASCII characters [str.strip()] removes. *)
Definition is_space (c : ascii) : bool :=
  let n := nat_of_ascii c in
  bool_decide (9 <= n <= 13 \/ 28 <= n <= 32)%nat.

Fixpoint lstrip (cs : list ascii) : list ascii :=
  match cs with
  | c :: rest => if is_space c then lstrip rest else cs
  | [] => []
  end.

Definition str_strip (s : string) : string :=
  String.string_of_list_ascii
    (rev (lstrip (rev (lstrip (String.list_ascii_of_string s))))).

(** Python's [float(s)]: [None] is ValueError. *)
Class PyFloat := { py_float : string -> option Qc }.

(** matplotlib: [Normalize(vmin, vmax)(value)], where [None] is the
    ValueError it raises, and [to_hex(get_cmap(name)(x)[:3])]. *)
Class ColorLib := {
  normalize : Qc -> Qc -> Qc -> option Qc;
  cmap_hex : string -> Qc -> string
}.

(** Qt: the value a [QDoubleSpinBox] showing three decimals keeps of the
    one handed to [setValue], before it is bounded to the box's range. Qt
    rounds the binary double, so which neighbour a decimal tie goes to is
    the library's business. *)
Class QtLib := { spin_round : Qc -> Qc }.

(** ** gui/widgets/colormap_panel.py: state and the methods that touch only
    the panel. The methods that emit signals are in [MainWindow], after the
    slots they reach. *)
Module Colormap.

Record ColormapPanel := {
  label_values : gmap Qc Qc;
  use_colormap : bool;              (* kept equal to use_cmap_chk *)
  current_colormap : string;
  colormap_vmin : option Qc;
  colormap_vmax : option Qc;
  vmin_spin : Qc;
  vmax_spin : Qc;
  value_file_edit : string
}.

#[global] Instance ColormapPanel_eq_dec : EqDecision ColormapPanel.
Proof. solve_decision. Defined.

Definition init : ColormapPanel :=
  {| label_values := ∅; use_colormap := false;
     current_colormap := "viridis";
     colormap_vmin := None; colormap_vmax := None;
     vmin_spin := 0; vmax_spin := 1; value_file_edit := "" |}.

(** Field updates. *)
Definition set_label_values (x : gmap Qc Qc) (p : ColormapPanel) : ColormapPanel :=
  {| label_values := x;
     use_colormap := use_colormap p;
     current_colormap := current_colormap p;
     colormap_vmin := colormap_vmin p;
     colormap_vmax := colormap_vmax p;
     vmin_spin := vmin_spin p;
     vmax_spin := vmax_spin p;
     value_file_edit := value_file_edit p |}.

Definition set_use_colormap (x : bool) (p : ColormapPanel) : ColormapPanel :=
  {| label_values := label_values p;
     use_colormap := x;
     current_colormap := current_colormap p;
     colormap_vmin := colormap_vmin p;
     colormap_vmax := colormap_vmax p;
     vmin_spin := vmin_spin p;
     vmax_spin := vmax_spin p;
     value_file_edit := value_file_edit p |}.

Definition set_current_colormap (x : string) (p : ColormapPanel) : ColormapPanel :=
  {| label_values := label_values p;
     use_colormap := use_colormap p;
     current_colormap := x;
     colormap_vmin := colormap_vmin p;
     colormap_vmax := colormap_vmax p;
     vmin_spin := vmin_spin p;
     vmax_spin := vmax_spin p;
     value_file_edit := value_file_edit p |}.

Definition set_colormap_vmin (x : option Qc) (p : ColormapPanel) : ColormapPanel :=
  {| label_values := label_values p;
     use_colormap := use_colormap p;
     current_colormap := current_colormap p;
     colormap_vmin := x;
     colormap_vmax := colormap_vmax p;
     vmin_spin := vmin_spin p;
     vmax_spin := vmax_spin p;
     value_file_edit := value_file_edit p |}.

Definition set_colormap_vmax (x : option Qc) (p : ColormapPanel) : ColormapPanel :=
  {| label_values := label_values p;
     use_colormap := use_colormap p;
     current_colormap := current_colormap p;
     colormap_vmin := colormap_vmin p;
     colormap_vmax := x;
     vmin_spin := vmin_spin p;
     vmax_spin := vmax_spin p;
     value_file_edit := value_file_edit p |}.

Definition set_vmin_spin (x : Qc) (p : ColormapPanel) : ColormapPanel :=
  {| label_values := label_values p;
     use_colormap := use_colormap p;
     current_colormap := current_colormap p;
     colormap_vmin := colormap_vmin p;
     colormap_vmax := colormap_vmax p;
     vmin_spin := x;
     vmax_spin := vmax_spin p;
     value_file_edit := value_file_edit p |}.

Definition set_vmax_spin (x : Qc) (p : ColormapPanel) : ColormapPanel :=
  {| label_values := label_values p;
     use_colormap := use_colormap p;
     current_colormap := current_colormap p;
     colormap_vmin := colormap_vmin p;
     colormap_vmax := colormap_vmax p;
     vmin_spin := vmin_spin p;
     vmax_spin := x;
     value_file_edit := value_file_edit p |}.

Definition set_value_file_edit (x : string) (p : ColormapPanel) : ColormapPanel :=
  {| label_values := label_values p;
     use_colormap := use_colormap p;
     current_colormap := current_colormap p;
     colormap_vmin := colormap_vmin p;
     colormap_vmax := colormap_vmax p;
     vmin_spin := vmin_spin p;
     vmax_spin := vmax_spin p;
     value_file_edit := x |}.

(** *** QDoubleSpinBox as configured in [_setup_ui]:
    [setRange(-1e6, 1e6)], [setDecimals(3)]. [setValue] rounds to the
    decimals, bounds to the range, and emits [valueChanged] only when the
    stored value changes. *)
Definition spin_minimum : Qc := dec (-1000000) 1.
Definition spin_maximum : Qc := dec 1000000 1.

Definition spin_bound (x : Qc) : Qc :=
  if bool_decide (x < spin_minimum) then spin_minimum
  else if bool_decide (spin_maximum < x) then spin_maximum
  else x.

Definition spin_value `{QtLib} (x : Qc) : Qc := spin_bound (spin_round x).

(** *** Reading the value table *)
Definition label_aliases : list string :=
  ["label"; "roi"; "region"; "id"; "index"].
Definition value_aliases : list string :=
  ["value"; "score"; "overlap"; "weight"; "magnitude"].

Definition header_lower (header : list string) : list string :=
  (fun h => str_strip (str_lower h)) <$> header.

(** The column detection loop over [enumerate(header_lower)]. *)
Definition detect_step (cols : nat * nat) (ih : nat * string) : nat * nat :=
  let '(label_col, value_col) := cols in
  let '(i, h) := ih in
  (if bool_decide (h ∈ label_aliases) then i else label_col,
   if bool_decide (h ∈ value_aliases) then i else value_col).

Definition detect_columns (header : list string) : nat * nat :=
  foldl detect_step (0%nat, 1%nat) (imap pair (header_lower header)).

Section Parse.
Context `{PyFloat}.

(** [float(row[label_col]), float(row[value_col])]; [None] when either
    raises ValueError or IndexError. *)
Definition row_entry (label_col value_col : nat) (row : list string)
    : option (Qc * Qc) :=
  lbl ← row !! label_col ≫= py_float;
  val ← row !! value_col ≫= py_float;
  Some (lbl, val).

Definition store_row (label_col value_col : nat) (row : list string)
    (d : gmap Qc Qc) : gmap Qc Qc :=
  match row_entry label_col value_col row with
  | Some (lbl, val) => <[lbl := val]> d
  | None => d
  end.

(** The body of the [with open(...)] block, on the rows the csv reader
    yields, starting from the dictionary [d]. *)
Definition read_rows (rows : list (list string)) (d : gmap Qc Qc)
    : gmap Qc Qc :=
  match rows with
  | [] => d
  | header :: rest =>
      let '(label_col, value_col, d) :=
        match header with
        | [] => (0%nat, 1%nat, d)
        | _ :: _ =>
            let '(lc, vc) := detect_columns header in
            (lc, vc, store_row lc vc header d)
        end in
      foldl (fun d row =>
               if bool_decide (length row < 2)%nat then d
               else store_row label_col value_col row d)
            d rest
  end.
End Parse.

Section Colors.
Context `{ColorLib}.

(** [get_color_for_value]; [None] is the ValueError of [norm(value)]. *)
Definition get_color_for_value (p : ColormapPanel) (value : Qc)
    : option string :=
  let vmin := default 0 (colormap_vmin p) in
  let vmax := default 1 (colormap_vmax p) in
  x ← normalize vmin vmax value;
  Some (cmap_hex (current_colormap p) x).

(** [compute_colors]; the exception of [get_color_for_value] ends the loop
    and the call. *)
Definition compute_colors (p : ColormapPanel) (labels : list Qc)
    : option (list (Qc * string)) :=
  foldl (fun colors lbl =>
           colors ← colors;
           match label_values p !! lbl with
           | Some value =>
               c ← get_color_for_value p value;
               Some (dict_set lbl c colors)
           | None => Some colors
           end) (Some []) labels.
End Colors.

(** Margin and bounds computed by [auto_range] before they are handed to
    the spin boxes; [None] when the table is empty. *)
Definition auto_bounds (p : ColormapPanel) : option (Qc * Qc) :=
  let values := (map_to_list (label_values p)).*2 in
  vmin ← py_min values;
  vmax ← py_max values;
  let margin := if bool_decide (vmin < vmax) then (vmax - vmin) * dec 5 100
                else dec 1 10 in
  Some (vmin - margin, vmax + margin).
End Colormap.

(** ** gui/renderer.py *)
Module Renderer.
Import MeshViz Constants.

Record Light := { light_position : vec3; light_intensity : Qc }.

#[global] Instance Light_eq_dec : EqDecision Light.
Proof. solve_decision. Defined.

(** The keyword arguments [_add_mesh] passes to [plotter.add_mesh]. *)
Record Actor := {
  mesh : PolyData;
  color : string;
  show_edges : bool;
  edge_color : string;
  line_width : Qc;
  smooth_shading : bool;
  specular : Qc;
  specular_power : Qc;
  ambient : Qc;
  diffuse : Qc;
  lighting : bool
}.

#[global] Instance Actor_eq_dec : EqDecision Actor.
Proof. solve_decision. Defined.

Record Plotter := {
  parallel_projection : bool;
  anti_aliasing : bool;
  lights : list Light;
  actors : list Actor;
  cam : camera;
  cam_reset : bool;        (* reset_camera() ran after the last view *)
  ren_win : bool           (* the render window still exists *)
}.

#[global] Instance Plotter_eq_dec : EqDecision Plotter.
Proof. solve_decision. Defined.

Definition init : Plotter :=
  {| parallel_projection := false; anti_aliasing := false; lights := [];
     actors := []; cam := view_isometric; cam_reset := false;
     ren_win := true |}.

Definition _default_color (idx : nat) : string := palette_color idx.

Definition _configure_projection (is_2d : bool) (pl : Plotter) : Plotter :=
  {| parallel_projection := is_2d;
     anti_aliasing := negb is_2d;
     lights := lights pl; actors := actors pl; cam := cam pl;
     cam_reset := cam_reset pl; ren_win := ren_win pl |}.

Definition three_point_lights : list Light :=
  [ {| light_position := (1, 1, 1); light_intensity := dec 9 10 |};
    {| light_position := (- 1, - dec 1 2, dec 3 2); light_intensity := dec 7 10 |};
    {| light_position := (0, - dec 3 2, - 1); light_intensity := dec 5 10 |} ].

Definition _clear_and_setup_lights (pl : Plotter) : Plotter :=
  {| parallel_projection := parallel_projection pl;
     anti_aliasing := anti_aliasing pl;
     lights := three_point_lights; actors := []; cam := cam pl;
     cam_reset := cam_reset pl; ren_win := ren_win pl |}.

(** The actor [_add_mesh] builds. *)
Definition _add_mesh (m : PolyData) (c : string) (is_2d show : bool) : Actor :=
  let '(amb, dif, spe, lit, smooth_sh, edge_display) :=
    if is_2d then (1, dec 1 10, 0, false, false, false)
    else (dec 25 100, dec 6 10, dec 15 100, true, true, show) in
  {| mesh := m; color := c; show_edges := edge_display;
     edge_color := "#222222"; line_width := 1;
     smooth_shading := smooth_sh; specular := spe; specular_power := dec 5 1;
     ambient := amb; diffuse := dif; lighting := lit |}.

Definition add_actor (a : Actor) (pl : Plotter) : Plotter :=
  {| parallel_projection := parallel_projection pl;
     anti_aliasing := anti_aliasing pl; lights := lights pl;
     actors := actors pl ++ [a]; cam := cam pl;
     cam_reset := cam_reset pl; ren_win := ren_win pl |}.

Section WithLib.
Context `{GeometryLib}.

(** [_set_view(self.plotter, view)], [reset_camera()], [update()]. *)
Definition _apply_view (view : string) (pl : Plotter) : Plotter :=
  {| parallel_projection := parallel_projection pl;
     anti_aliasing := anti_aliasing pl; lights := lights pl;
     actors := actors pl;
     cam := _set_view (scene_bounds (mesh <$> actors pl)) view;
     cam_reset := true; ren_win := ren_win pl |}.

Definition render_meshes (label_meshes : list (Qc * PolyData))
    (label_colors : list (Qc * string)) (is_2d show : bool)
    (view : string) (pl : Plotter) : Plotter :=
  let pl := _configure_projection is_2d pl in
  let pl := _clear_and_setup_lights pl in
  let pl :=
    foldl (fun pl ilm =>
             let '(idx, (lbl, m)) := ilm in
             let c := default (_default_color idx) (dict_get label_colors lbl) in
             add_actor (_add_mesh m c is_2d show) pl)
          pl (imap pair label_meshes) in
  _apply_view view pl.

Definition reset_view (view : string) (pl : Plotter) : Plotter :=
  if ren_win pl then _apply_view view pl else pl.
End WithLib.

(** [clear]: pyvista's [plotter.clear()] removes the actors and the lights. *)
Definition clear (pl : Plotter) : Plotter :=
  {| parallel_projection := parallel_projection pl;
     anti_aliasing := anti_aliasing pl; lights := [];
     actors := []; cam := cam pl; cam_reset := cam_reset pl;
     ren_win := ren_win pl |}.
End Renderer.

(** ** gui/widgets/render_params.py *)
Module RenderParams.
Import Constants.

Record RenderParamsPanel := {
  sigma : Qc;              (* sigma_spin *)
  smooth_iter : Z;         (* smooth_spin *)
  show_edges : bool;       (* edges_chk *)
  style : string;          (* style_combo *)
  view : string            (* view_combo *)
}.

#[global] Instance RenderParamsPanel_eq_dec : EqDecision RenderParamsPanel.
Proof. solve_decision. Defined.

Definition init : RenderParamsPanel :=
  {| sigma := DEFAULT_SIGMA; smooth_iter := DEFAULT_SMOOTH_ITER;
     show_edges := false; style := "3D shading"; view := "left" |}.

Definition is_2d (p : RenderParamsPanel) : bool :=
  String.eqb (style p) "2D flat".
End RenderParams.


(** ** gui/main_window.py, with the signal-emitting methods of the panels *)
Module MainWindow.
Import MeshViz Constants.
Import LabelList(LabelListPanel, values_ref, own_values, panel_values).
Import Colormap(ColormapPanel).
Import Renderer(Plotter).
Import RenderParams(RenderParamsPanel).

(** The texts [_set_status] is called with. *)
Inductive Status :=
| st_begin                                   (* "Load a NIfTI to begin." *)
| st_file_not_found (path : string)
| st_failed_to_load (exc : string)
| st_loaded (path : string) (n_labels : nat)
| st_set_color (color_hex : string) (n : nat)
| st_values_loaded (n : nat)
| st_values_cleared
| st_load_first
| st_no_labels
| st_no_meshes
| st_rendered (n : nat).

#[global] Instance Status_eq_dec : EqDecision Status.
Proof. solve_decision. Defined.

(** What the file system gives [_load_volume]: no file, a file that
    [load_nii_volume] fails on, or a decoded volume. *)
Inductive nii_read :=
| nii_missing
| nii_error (exc : string)
| nii_ok (data : ndarray) (sp og : vec3).

(** What it gives [_load_values]: no file, or the rows the csv reader yields
    before the block ends, normally or by an exception. *)
Inductive csv_read :=
| csv_missing
| csv_file (rows : list (list string)) (raises : bool).

(** One call of [_render_scene]: the parameters and selection it read. *)
Record RenderPass := {
  pass_params : RenderParamsPanel;
  pass_labels : list Qc
}.

#[global] Instance RenderPass_eq_dec : EqDecision RenderPass.
Proof. solve_decision. Defined.

Record MeshGui := {
  volume : option ndarray;
  spacing : option vec3;
  origin : option vec3;
  _render_timer : option nat;     (* single-shot: ms left until timeout *)
  label_list : LabelListPanel;
  colormap_panel : ColormapPanel;
  render_params : RenderParamsPanel;
  plotter : Plotter;
  status : Status;
  render_log : list RenderPass    (* history of [_render_scene] calls *)
}.

#[global] Instance MeshGui_eq_dec : EqDecision MeshGui.
Proof. solve_decision. Defined.

Definition init : MeshGui :=
  {| volume := None; spacing := None; origin := None; _render_timer := None;
     label_list := LabelList.init; colormap_panel := Colormap.init;
     render_params := RenderParams.init; plotter := Renderer.init;
     status := st_begin; render_log := [] |}.

Definition _set_status (s : Status) (g : MeshGui) : MeshGui :=
  {| volume := volume g; spacing := spacing g; origin := origin g;
     _render_timer := _render_timer g; label_list := label_list g;
     colormap_panel := colormap_panel g; render_params := render_params g;
     plotter := plotter g; status := s; render_log := render_log g |}.

Definition with_timer (t : option nat) (g : MeshGui) : MeshGui :=
  {| volume := volume g; spacing := spacing g; origin := origin g;
     _render_timer := t; label_list := label_list g;
     colormap_panel := colormap_panel g; render_params := render_params g;
     plotter := plotter g; status := status g; render_log := render_log g |}.

Definition with_label_list (l : LabelListPanel) (g : MeshGui) : MeshGui :=
  {| volume := volume g; spacing := spacing g; origin := origin g;
     _render_timer := _render_timer g; label_list := l;
     colormap_panel := colormap_panel g; render_params := render_params g;
     plotter := plotter g; status := status g; render_log := render_log g |}.

Definition with_panel (p : ColormapPanel) (g : MeshGui) : MeshGui :=
  {| volume := volume g; spacing := spacing g; origin := origin g;
     _render_timer := _render_timer g; label_list := label_list g;
     colormap_panel := p; render_params := render_params g;
     plotter := plotter g; status := status g; render_log := render_log g |}.

Definition with_params (p : RenderParamsPanel) (g : MeshGui) : MeshGui :=
  {| volume := volume g; spacing := spacing g; origin := origin g;
     _render_timer := _render_timer g; label_list := label_list g;
     colormap_panel := colormap_panel g; render_params := p;
     plotter := plotter g; status := status g; render_log := render_log g |}.

Definition with_plotter (pl : Plotter) (g : MeshGui) : MeshGui :=
  {| volume := volume g; spacing := spacing g; origin := origin g;
     _render_timer := _render_timer g; label_list := label_list g;
     colormap_panel := colormap_panel g; render_params := render_params g;
     plotter := pl; status := status g; render_log := render_log g |}.

Definition with_volume (v : ndarray) (sp og : vec3) (g : MeshGui) : MeshGui :=
  {| volume := Some v; spacing := Some sp; origin := Some og;
     _render_timer := _render_timer g; label_list := label_list g;
     colormap_panel := colormap_panel g; render_params := render_params g;
     plotter := plotter g; status := status g; render_log := render_log g |}.

Definition log_pass (g : MeshGui) : MeshGui :=
  {| volume := volume g; spacing := spacing g; origin := origin g;
     _render_timer := _render_timer g; label_list := label_list g;
     colormap_panel := colormap_panel g; render_params := render_params g;
     plotter := plotter g; status := status g;
     render_log := render_log g ++
       [ {| pass_params := render_params g;
            pass_labels := LabelList.get_checked_labels (label_list g) |} ] |}.

(** *** Rendering *)

(** [self._render_timer.start(RENDER_DEBOUNCE_MS)]: (re)starts the one
    timer the window owns. *)
Definition _schedule_render (g : MeshGui) : MeshGui :=
  match volume g with
  | None => g
  | Some _ => with_timer (Some RENDER_DEBOUNCE_MS) g
  end.

(** How a call of one of the window's methods ends: it returns, or an
    exception (the ValueError of [get_color_for_value]) unwinds through it.
    Either way the window is left in the state given. *)
Inductive outcome :=
| returned (g : MeshGui)
| raised (g : MeshGui).

#[global] Instance outcome_eq_dec : EqDecision outcome.
Proof. solve_decision. Defined.

Definition state_of (o : outcome) : MeshGui :=
  match o with
  | returned g => g
  | raised g => g
  end.

(** The rest of a method body after a call that may raise. *)
Definition and_then (o : outcome) (rest : MeshGui -> outcome) : outcome :=
  match o with
  | returned g => rest g
  | raised g => raised g
  end.

(** A slot run by Qt when a signal is delivered. No exception hook is
    installed, so PyQt5 ends the process ([qFatal]) when an exception
    leaves the slot; [None] is the ended process. *)
Definition slot (o : outcome) : option MeshGui :=
  match o with
  | returned g => Some g
  | raised _ => None
  end.

Section WithLibs.
Context `{GeometryLib} `{ColorLib} `{PyFloat} `{QtLib}.

Definition _render_scene (g : MeshGui) : MeshGui :=
  let g := log_pass g in
  match volume g, spacing g, origin g with
  | None, _, _ => _set_status st_load_first g
  | Some v, Some sp, Some og =>
      let labels := LabelList.get_checked_labels (label_list g) in
      match labels with
      | [] => _set_status st_no_labels (with_plotter (Renderer.clear (plotter g)) g)
      | _ :: _ =>
          let label_meshes :=
            extract_label_meshes v labels sp og
              (RenderParams.sigma (render_params g))
              (RenderParams.smooth_iter (render_params g))
              (dec 1 10) (dec 1 2) in
          match label_meshes with
          | [] => _set_status st_no_meshes
                    (with_plotter (Renderer.clear (plotter g)) g)
          | _ :: _ =>
              _set_status (st_rendered (length label_meshes))
                (with_plotter
                   (Renderer.render_meshes label_meshes
                      (LabelList.label_colors (label_list g))
                      (RenderParams.is_2d (render_params g))
                      (RenderParams.show_edges (render_params g))
                      (RenderParams.view (render_params g))
                      (plotter g)) g)
          end
      end
  | Some _, _, _ => g     (* the three fields are only ever assigned together *)
  end.

(** The event loop lets [dt] ms pass: a running timer either times out,
    calling the connected [_render_scene] once, or keeps counting. *)
Definition elapse (dt : nat) (g : MeshGui) : MeshGui :=
  match _render_timer g with
  | None => g
  | Some remaining =>
      if bool_decide (remaining <= dt)%nat then _render_scene (with_timer None g)
      else with_timer (Some (remaining - dt)%nat) g
  end.

(** *** Data loading *)

(** [sorted({float(v) for v in self.volume.flatten() if v != 0})] *)
Definition volume_labels (v : ndarray) : list Qc :=
  merge_sort Qcle (remove_dups (filter (fun x => x <> 0) (voxels v))).

Definition _load_volume (path : string) (r : nii_read) (g : MeshGui) : MeshGui :=
  match r with
  | nii_missing => _set_status (st_file_not_found path) g
  | nii_error exc => _set_status (st_failed_to_load exc) g
  | nii_ok v sp og =>
      let g := with_volume v sp og g in
      let labels := volume_labels v in
      let g := with_label_list
                 (LabelList.populate_labels
                    (Colormap.label_values (colormap_panel g)) labels
                    (Some panel_values) (label_list g)) g in
      let g := _set_status (st_loaded path (length labels)) g in
      _render_scene g
  end.
(** *** Colour management *)

(** One pass of the palette reset: every key, in insertion order, gets the
    palette colour of its position. *)
Definition palette_pass (cols : list (Qc * string)) : list (Qc * string) :=
  foldl (fun acc il => dict_set il.2 (palette_color il.1) acc)
        cols (imap pair (dict_keys cols)).

(** [_update_colors_from_colormap]. In colormap mode [compute_colors] may
    raise, which happens before the label list is touched. *)
Definition _update_colors_from_colormap (g : MeshGui) : outcome :=
  let ll := label_list g in
  if negb (Colormap.use_colormap (colormap_panel g)) then
    (* the outer loop repeats the same pass len(label_colors) times *)
    returned
      (with_label_list
         (LabelList.with_colors
            (Nat.iter (length (LabelList.label_colors ll)) palette_pass
               (LabelList.label_colors ll)) ll) g)
  else
    let labels := dict_keys (LabelList.label_colors ll) in
    match Colormap.compute_colors (colormap_panel g) labels with
    | Some new_colors =>
        returned (with_label_list (LabelList.set_label_colors new_colors ll) g)
    | None => raised g
    end.

Definition _on_colormap_changed (g : MeshGui) : outcome :=
  and_then (_update_colors_from_colormap g)
    (fun g => returned (_schedule_render g)).

(** [ColormapPanel._emit_colormap_changed]: the signal has no slot; the
    callback is [MeshGui._on_colormap_changed]. *)
Definition _emit_colormap_changed (g : MeshGui) : outcome :=
  _on_colormap_changed g.

Definition _on_colormap_toggle (checked : bool) (g : MeshGui) : outcome :=
  let p := colormap_panel g in
  _emit_colormap_changed (with_panel (Colormap.set_use_colormap checked p) g).

Definition _on_colormap_selection_changed (cmap_name : string) (g : MeshGui)
    : outcome :=
  let p := colormap_panel g in
  let g := with_panel (Colormap.set_current_colormap cmap_name p) g in
  if Colormap.use_colormap p then _emit_colormap_changed g else returned g.

(** [_on_range_changed]: both bounds are copied from the spin boxes. *)
Definition _on_range_changed (g : MeshGui) : outcome :=
  let p := colormap_panel g in
  let p' := Colormap.set_colormap_vmin (Some (Colormap.vmin_spin p)) p in
  let p' := Colormap.set_colormap_vmax (Some (Colormap.vmax_spin p)) p' in
  let g := with_panel p' g in
  if Colormap.use_colormap p then _emit_colormap_changed g else returned g.

(** [self.vmin_spin.setValue(x)]: when the stored value changes, Qt
    delivers [valueChanged] to the slot [_on_range_changed]. *)
Definition vmin_spin_setValue (x : Qc) (g : MeshGui) : option MeshGui :=
  let p := colormap_panel g in
  let v := Colormap.spin_value x in
  if bool_decide (v = Colormap.vmin_spin p) then Some g
  else slot (_on_range_changed (with_panel (Colormap.set_vmin_spin v p) g)).

Definition vmax_spin_setValue (x : Qc) (g : MeshGui) : option MeshGui :=
  let p := colormap_panel g in
  let v := Colormap.spin_value x in
  if bool_decide (v = Colormap.vmax_spin p) then Some g
  else slot (_on_range_changed (with_panel (Colormap.set_vmax_spin v p) g)).

(** [ColormapPanel.auto_range]: the lower bound is set first, then the
    upper one. *)
Definition auto_range (g : MeshGui) : option MeshGui :=
  match Colormap.auto_bounds (colormap_panel g) with
  | None => Some g
  | Some (lo, hi) =>
      g ← vmin_spin_setValue lo g;
      vmax_spin_setValue hi g
  end.

(** The range [get_color_for_value] normalises with. *)
Definition colormap_range (g : MeshGui) : Qc * Qc :=
  (default 0 (Colormap.colormap_vmin (colormap_panel g)),
   default 1 (Colormap.colormap_vmax (colormap_panel g))).

(** *** The value table *)

Definition _on_values_loaded (g : MeshGui) : outcome :=
  (* [values] is the colormap panel's own dictionary object *)
  let g := with_label_list
             (LabelList.set_label_values panel_values (label_list g)) g in
  and_then (_update_colors_from_colormap g)
    (fun g =>
       let g := _set_status
                  (st_values_loaded
                     (size (Colormap.label_values (colormap_panel g)))) g in
       returned (_schedule_render g)).

(** [ColormapPanel._load_values]. [auto_range] reaches the slots of the
    spin boxes through Qt; [_on_values_loaded] is called directly, inside
    the [try] block. *)
Definition _load_values (r : csv_read) (g : MeshGui) : option MeshGui :=
  match r with
  | csv_missing => Some g
  | csv_file rows raises =>
      (* self.label_values.clear(), then the rows are stored one by one *)
      let d := Colormap.read_rows rows ∅ in
      let g := with_panel (Colormap.set_label_values d (colormap_panel g)) g in
      if raises then Some g                    (* except Exception: pass *)
      else if bool_decide (d = ∅) then Some g
      else
        g ← auto_range g;
        Some (state_of (_on_values_loaded g))  (* except Exception: pass *)
  end.

Definition _on_values_cleared (g : MeshGui) : MeshGui :=
  let ll := label_list g in
  let cols :=
    foldl (fun acc il => dict_set il.2 (palette_color il.1) acc)
          (LabelList.label_colors ll)
          (imap pair (LabelList.get_checked_labels ll)) in
  let ll := LabelList.set_label_values (own_values ∅)
              (LabelList.with_colors cols ll) in
  _schedule_render (_set_status st_values_cleared (with_label_list ll g)).

(** [ColormapPanel._clear_values] *)
Definition _clear_values (g : MeshGui) : option MeshGui :=
  let g := with_panel (Colormap.set_label_values ∅ (colormap_panel g)) g in
  (* use_cmap_chk.setChecked(False) emits stateChanged only on a change *)
  g ← (if Colormap.use_colormap (colormap_panel g)
       then slot (_on_colormap_toggle false g) else Some g);
  let g := with_panel (Colormap.set_value_file_edit "" (colormap_panel g)) g in
  Some (_on_values_cleared g).

(** *** Parameter and selection changes *)

(** [LabelListPanel._choose_color] once the dialog returned a valid colour
    for the highlighted labels, then [MeshGui._on_color_change]. *)
Definition _choose_color (highlighted : list Qc) (color_hex : string)
    (g : MeshGui) : MeshGui :=
  match highlighted with
  | [] => g
  | _ :: _ =>
      let ll := label_list g in
      let cols := foldl (fun acc lbl => dict_set lbl color_hex acc)
                        (LabelList.label_colors ll) highlighted in
      let g := with_label_list (LabelList.with_colors cols ll) g in
      _set_status (st_set_color color_hex (length highlighted))
        (_schedule_render g)
  end.

(** The signals wired to [_schedule_render]: the spin boxes, check box and
    style combo of the parameter panel, and a row's check state. Each
    carries the new value of the widget. *)
Inductive param_event :=
| sigma_changed (x : Qc)
| smooth_changed (n : Z)
| edges_changed (b : bool)
| style_changed (s : string)
| item_changed (row : nat) (checked : bool).

Definition apply_param (e : param_event) (g : MeshGui) : MeshGui :=
  let p := render_params g in
  match e with
  | sigma_changed x =>
      with_params {| RenderParams.sigma := x;
                     RenderParams.smooth_iter := RenderParams.smooth_iter p;
                     RenderParams.show_edges := RenderParams.show_edges p;
                     RenderParams.style := RenderParams.style p;
                     RenderParams.view := RenderParams.view p |} g
  | smooth_changed n =>
      with_params {| RenderParams.sigma := RenderParams.sigma p;
                     RenderParams.smooth_iter := n;
                     RenderParams.show_edges := RenderParams.show_edges p;
                     RenderParams.style := RenderParams.style p;
                     RenderParams.view := RenderParams.view p |} g
  | edges_changed b =>
      with_params {| RenderParams.sigma := RenderParams.sigma p;
                     RenderParams.smooth_iter := RenderParams.smooth_iter p;
                     RenderParams.show_edges := b;
                     RenderParams.style := RenderParams.style p;
                     RenderParams.view := RenderParams.view p |} g
  | style_changed s =>
      with_params {| RenderParams.sigma := RenderParams.sigma p;
                     RenderParams.smooth_iter := RenderParams.smooth_iter p;
                     RenderParams.show_edges := RenderParams.show_edges p;
                     RenderParams.style := s;
                     RenderParams.view := RenderParams.view p |} g
  | item_changed row checked =>
      let ll := label_list g in
      with_label_list
        {| LabelList.items := alter (fun it => (it.1, checked)) row (LabelList.items ll);
           LabelList.label_colors := LabelList.label_colors ll;
           LabelList.label_values := LabelList.label_values ll |} g
  end.

(** The widget takes its new value, then the slot runs. *)
Definition on_param_event (e : param_event) (g : MeshGui) : MeshGui :=
  _schedule_render (apply_param e g).

(** [_on_view_changed]: the combo box changes, then [_reset_view]. *)
Definition _on_view_changed (view : string) (g : MeshGui) : MeshGui :=
  let p := render_params g in
  let g := with_params {| RenderParams.sigma := RenderParams.sigma p;
                          RenderParams.smooth_iter := RenderParams.smooth_iter p;
                          RenderParams.show_edges := RenderParams.show_edges p;
                          RenderParams.style := RenderParams.style p;
                          RenderParams.view := view |} g in
  with_plotter (Renderer.reset_view view (plotter g)) g.

(** *** A session as the event loop runs it: waits and signals. *)
Inductive step :=
| wait (dt : nat)
| param (e : param_event).

Definition run_step (g : MeshGui) (s : step) : MeshGui :=
  match s with
  | wait dt => elapse dt g
  | param e => on_param_event e g
  end.

Definition run (steps : list step) (g : MeshGui) : MeshGui :=
  foldl run_step g steps.

(** A burst: a first event, then events each less than the quiet period
    after the one before. *)
Fixpoint burst (e : param_event) (rest : list (nat * param_event)) : list step :=
  match rest with
  | [] => [param e]
  | (gap, e') :: rest' => param e :: wait gap :: burst e' rest'
  end.

(** *** The rest of the controls *)

(** [LabelListPanel.select_all] / [clear_selection]: [setCheckState] on
    every row; a row whose state changes emits [itemChanged], which reaches
    [_schedule_render]. *)
Definition set_all_rows (checked : bool) (g : MeshGui) : MeshGui :=
  foldl (fun g row =>
           match LabelList.items (label_list g) !! row with
           | Some (_, c) =>
               if bool_decide (c = checked) then g
               else on_param_event (item_changed row checked) g
           | None => g
           end)
        g (seq 0 (length (LabelList.items (label_list g)))).

Definition select_all (g : MeshGui) : MeshGui := set_all_rows true g.
Definition clear_selection (g : MeshGui) : MeshGui := set_all_rows false g.

(** [get_highlighted_labels]: the labels of the selected rows. *)
Definition get_highlighted_labels (rows : list nat) (g : MeshGui) : list Qc :=
  omap (fun row => fst <$> LabelList.items (label_list g) !! row) rows.

(** The "Reset view" button. *)
Definition _reset_view (g : MeshGui) : MeshGui :=
  with_plotter
    (Renderer.reset_view (RenderParams.view (render_params g)) (plotter g)) g.

(** Everything the user and the event loop can do to the window. *)
Inductive gui_event :=
| ev_wait (dt : nat)
| ev_param (e : param_event)
| ev_load_volume (path : string) (r : nii_read)
| ev_load_values (r : csv_read)
| ev_clear_values
| ev_colormap_toggle (checked : bool)
| ev_colormap_select (cmap_name : string)
| ev_vmin_edit (x : Qc)
| ev_vmax_edit (x : Qc)
| ev_auto_range
| ev_choose_color (rows : list nat) (color_hex : string)
| ev_select_all
| ev_clear_selection
| ev_view (view : string)
| ev_reset_view.

(** The window after the event, or [None] when the process ended. *)
Definition handle (g : MeshGui) (ev : gui_event) : option MeshGui :=
  match ev with
  | ev_wait dt => Some (elapse dt g)
  | ev_param e => Some (on_param_event e g)
  | ev_load_volume path r => Some (_load_volume path r g)
  | ev_load_values r => _load_values r g
  | ev_clear_values => _clear_values g
  | ev_colormap_toggle checked => slot (_on_colormap_toggle checked g)
  | ev_colormap_select cmap_name =>
      slot (_on_colormap_selection_changed cmap_name g)
  | ev_vmin_edit x => vmin_spin_setValue x g
  | ev_vmax_edit x => vmax_spin_setValue x g
  | ev_auto_range => auto_range g
  | ev_choose_color rows color_hex =>
      Some (_choose_color (get_highlighted_labels rows g) color_hex g)
  | ev_select_all => Some (select_all g)
  | ev_clear_selection => Some (clear_selection g)
  | ev_view view => Some (_on_view_changed view g)
  | ev_reset_view => Some (_reset_view g)
  end.

(** The window after the events from the state [g]. *)
Definition run_events (g : MeshGui) (evs : list gui_event) : option MeshGui :=
  foldl (fun og ev => g ← og; handle g ev) (Some g) evs.

(** The window after a history of events, from start-up; [None] when the
    process ended on the way. *)
Definition session (evs : list gui_event) : option MeshGui :=
  run_events init evs.
End WithLibs.
End MainWindow.

(** * Properties *)

(** Closed goals over decidable propositions are settled by evaluation. *)
Ltac by_eval := apply (bool_decide_unpack _); vm_compute; exact I.

(** The same for a conjunction of such goals. *)
Ltac all_by_eval :=
  repeat match goal with |- _ ∧ _ => split end; by_eval.

(** Inequalities between rationals in canonical form, by [lra] on the
    underlying fractions. *)
Ltac qc_lra :=
  unfold Qclt, Qcle in *; simpl in *; rewrite ?Qred_correct in *; lra.

(** ** Python's [max] and [min] *)

Definition is_max_of (m : Qc) (xs : list Qc) : Prop :=
  m ∈ xs ∧ ∀ x, x ∈ xs → x ≤ m.

Definition is_min_of (m : Qc) (xs : list Qc) : Prop :=
  m ∈ xs ∧ ∀ x, x ∈ xs → m ≤ x.

Lemma foldl_max_spec (rest : list Qc) (x : Qc) :
  is_max_of (foldl (fun m y => if bool_decide (m < y) then y else m) x rest)
            (x :: rest).
Proof.
  revert x. induction rest as [|y rest IH]; intros x; simpl.
  - split; [left|]. intros z Hz. apply list_elem_of_singleton in Hz.
    subst. apply Qcle_refl.
  - destruct (IH (if bool_decide (x < y) then y else x)) as [Hm Hub].
    assert (Hstep : x ≤ (if bool_decide (x < y) then y else x)
                    ∧ y ≤ (if bool_decide (x < y) then y else x)).
    { case_bool_decide as Hxy.
      - split; [by apply Qclt_le_weak | apply Qcle_refl].
      - split; [apply Qcle_refl | by apply Qcnot_lt_le]. }
    destruct Hstep as [Hx Hy]. split.
    + apply elem_of_cons in Hm as [Hm|Hm].
      * rewrite Hm. case_bool_decide; [right; left | left].
      * by do 2 right.
    + intros z Hz. apply elem_of_cons in Hz as [->|Hz].
      * eapply Qcle_trans; [exact Hx|]. apply Hub. left.
      * apply elem_of_cons in Hz as [->|Hz].
        -- eapply Qcle_trans; [exact Hy|]. apply Hub. left.
        -- apply Hub. by right.
Qed.

Lemma foldl_min_spec (rest : list Qc) (x : Qc) :
  is_min_of (foldl (fun m y => if bool_decide (y < m) then y else m) x rest)
            (x :: rest).
Proof.
  revert x. induction rest as [|y rest IH]; intros x; simpl.
  - split; [left|]. intros z Hz. apply list_elem_of_singleton in Hz.
    subst. apply Qcle_refl.
  - destruct (IH (if bool_decide (y < x) then y else x)) as [Hm Hlb].
    assert (Hstep : (if bool_decide (y < x) then y else x) ≤ x
                    ∧ (if bool_decide (y < x) then y else x) ≤ y).
    { case_bool_decide as Hxy.
      - split; [by apply Qclt_le_weak | apply Qcle_refl].
      - split; [apply Qcle_refl | by apply Qcnot_lt_le]. }
    destruct Hstep as [Hx Hy]. split.
    + apply elem_of_cons in Hm as [Hm|Hm].
      * rewrite Hm. case_bool_decide; [right; left | left].
      * by do 2 right.
    + intros z Hz. apply elem_of_cons in Hz as [->|Hz].
      * eapply Qcle_trans; [|exact Hx]. apply Hlb. left.
      * apply elem_of_cons in Hz as [->|Hz].
        -- eapply Qcle_trans; [|exact Hy]. apply Hlb. left.
        -- apply Hlb. by right.
Qed.

Lemma py_max_spec (xs : list Qc) (m : Qc) :
  py_max xs = Some m → is_max_of m xs.
Proof.
  destruct xs as [|x rest]; [done|]. intros [= <-]. apply foldl_max_spec.
Qed.

Lemma py_min_spec (xs : list Qc) (m : Qc) :
  py_min xs = Some m → is_min_of m xs.
Proof.
  destruct xs as [|x rest]; [done|]. intros [= <-]. apply foldl_min_spec.
Qed.

Lemma is_max_of_unique (xs : list Qc) (a b : Qc) :
  is_max_of a xs → is_max_of b xs → a = b.
Proof.
  intros [Ha Hua] [Hb Hub]. apply Qcle_antisym; [by apply Hub | by apply Hua].
Qed.

Lemma is_min_of_unique (xs : list Qc) (a b : Qc) :
  is_min_of a xs → is_min_of b xs → a = b.
Proof.
  intros [Ha Hla] [Hb Hlb]. apply Qcle_antisym; [by apply Hla | by apply Hlb].
Qed.

(** ** View presets ([mesh_viz._set_view]) *)
Section ViewPresets.
Import MeshViz.

Definition midpoint (b : bounds) : vec3 :=
  ((xmin b + xmax b) / Qc_of_Z 2, (ymin b + ymax b) / Qc_of_Z 2,
   (zmin b + zmax b) / Qc_of_Z 2).

Definition extents (b : bounds) : list Qc :=
  [xmax b - xmin b; ymax b - ymin b; zmax b - zmin b; 1].

(** [p + d * axis] *)
Definition along (p : vec3) (d : Qc) (axis : vec3) : vec3 :=
  let '(px, py, pz) := p in
  let '(ax, ay, az) := axis in
  (px + d * ax, py + d * ay, pz + d * az).

Lemma span_is_max (b : bounds) : is_max_of (span b) (extents b).
Proof. unfold span, extents, py_max. apply foldl_max_spec. Qed.

Lemma half_is_div2 (x : Qc) : dec 1 2 * x = x / Qc_of_Z 2.
Proof.
  assert (Hd : dec 1 2 = / Qc_of_Z 2) by (by apply Qc_is_canon).
  rewrite Hd. unfold Qcdiv. ring.
Qed.

Lemma mid_is_midpoint (b : bounds) : (x_mid b, y_mid b, z_mid b) = midpoint b.
Proof. unfold x_mid, y_mid, z_mid, midpoint. by rewrite !half_is_div2. Qed.

Lemma move_back (x s k : Qc) : x - s * k = x + k * s * - 1.
Proof. ring. Qed.

Lemma move_forth (x s k : Qc) : x + s * k = x + k * s * 1.
Proof. ring. Qed.

Lemma move_none (x s k : Qc) : x = x + k * s * 0.
Proof. ring. Qed.

Definition presets : list string := ["left"; "right"; "top"; "front"].

(** C6: for any bounds, every view name other than the four directional
    presets (so "iso" and every unrecognized name) yields the library's
    isometric reset, whatever the bounds; "left", "right", "top", "front"
    set the camera at the bounds midpoint moved by 1.8 times the largest of
    width, height, depth and 1.0 along -X, +X, +Z, -Y, looking at the
    midpoint, with up-vector +Z, +Z, +Y, +Z. *)
Theorem set_view_presets (b : bounds) :
  (∀ view, view ∉ presets → _set_view b view = view_isometric) ∧
  ∃ s, is_max_of s (extents b) ∧
    let d := dec 18 10 * s in
    let mid := midpoint b in
    _set_view b "left" = camera_position (along mid d (- 1, 0, 0)) mid (0, 0, 1) ∧
    _set_view b "right" = camera_position (along mid d (1, 0, 0)) mid (0, 0, 1) ∧
    _set_view b "top" = camera_position (along mid d (0, 0, 1)) mid (0, 1, 0) ∧
    _set_view b "front" = camera_position (along mid d (0, - 1, 0)) mid (0, 0, 1).
Proof.
  split.
  - intros view Hview. unfold _set_view, presets in *.
    destruct (String.eqb view "iso") eqn:E0; [done|].
    destruct (String.eqb_spec view "left") as [->|_]; [set_solver|].
    destruct (String.eqb_spec view "right") as [->|_]; [set_solver|].
    destruct (String.eqb_spec view "top") as [->|_]; [set_solver|].
    destruct (String.eqb_spec view "front") as [->|_]; [set_solver|].
    done.
  - exists (span b). split; [apply span_is_max|].
    cbv zeta. rewrite <- mid_is_midpoint.
    unfold _set_view, along, dist. cbn [String.eqb Ascii.eqb Bool.eqb].
    set (s := span b). set (k := dec 18 10).
    rewrite <- (move_none (x_mid b) s k), <- (move_none (y_mid b) s k),
      <- (move_none (z_mid b) s k), <- (move_back (x_mid b) s k),
      <- (move_back (y_mid b) s k), <- (move_forth (x_mid b) s k),
      <- (move_forth (z_mid b) s k).
    repeat split.
Qed.

Definition unit_box : bounds :=
  {| xmin := 0; xmax := dec 4 1; ymin := - 1; ymax := 1;
     zmin := 0; zmax := dec 1 2 |}.

Lemma set_view_presets_witness :
  ("back" ∉ presets) ∧ _set_view unit_box "back" = view_isometric.
Proof.
  assert (Hview : "back" ∉ presets) by (by_eval).
  split; [exact Hview|].
  exact (proj1 (set_view_presets unit_box) "back" Hview).
Defined.

(** The isometric preset does not look at the bounds. *)
Lemma set_view_iso_any_bounds (b b' : bounds) :
  _set_view b "iso" = _set_view b' "iso".
Proof. reflexivity. Qed.

Example set_view_left_unit_box :
  _set_view unit_box "left" =
    camera_position (dec (-52) 10, 0, dec 1 4) (dec 2 1, 0, dec 1 4) (0, 0, 1).
Proof. by_eval. Qed.
End ViewPresets.

(** ** Materials ([MeshRenderer._add_mesh]) *)
Section Materials.
Import MeshViz Renderer.

(** C5: the actor built for a mesh in 2D-flat style has ambient 1.0, diffuse
    0.1, specular 0, no lighting, no smooth shading and no edges whatever
    the edge flag is; in 3D-shaded style it has ambient 0.25, diffuse 0.6,
    specular 0.15, lighting, smooth shading, and edges as the flag says. *)
Theorem add_mesh_material (m : PolyData) (c : string) (show : bool) :
  let flat := _add_mesh m c true show in
  let shaded := _add_mesh m c false show in
  (ambient flat = 1 ∧ diffuse flat = dec 1 10 ∧ specular flat = 0 ∧
   lighting flat = false ∧ smooth_shading flat = false ∧
   show_edges flat = false) ∧
  (ambient shaded = dec 25 100 ∧ diffuse shaded = dec 6 10 ∧
   specular shaded = dec 15 100 ∧ lighting shaded = true ∧
   smooth_shading shaded = true ∧ show_edges shaded = show).
Proof. cbv zeta. unfold _add_mesh. simpl. tauto. Qed.

(** The actors of a plotter grow only through [add_actor]. *)
Lemma render_loop_actors `{GeometryLib} (cols : list (Qc * string))
    (is_2d show : bool) (ilm : list (nat * (Qc * PolyData))) (pl : Plotter) :
  actors (foldl (fun pl ilm =>
                   let '(idx, (lbl, m)) := ilm in
                   let c := default (_default_color idx) (dict_get cols lbl) in
                   add_actor (_add_mesh m c is_2d show) pl) pl ilm)
  = actors pl ++
    ((fun ilm : nat * (Qc * PolyData) =>
        _add_mesh ilm.2.2
          (default (_default_color ilm.1) (dict_get cols ilm.2.1))
          is_2d show) <$> ilm).
Proof.
  revert pl. induction ilm as [|[idx [lbl m]] rest IH]; intros pl; simpl.
  - by rewrite app_nil_r.
  - rewrite IH. simpl. by rewrite <- app_assoc.
Qed.

(** Every actor of a rendered scene was built by [_add_mesh] in the style of
    that render pass, so in 2D-flat style none of them draws edges. *)
Lemma render_meshes_flat_no_edges `{GeometryLib}
    (lm : list (Qc * PolyData)) (cols : list (Qc * string)) (show : bool)
    (view : string) (pl : Plotter) (a : Actor) :
  a ∈ actors (render_meshes lm cols true show view pl) →
  show_edges a = false ∧ lighting a = false ∧ ambient a = 1.
Proof.
  unfold render_meshes, _apply_view. simpl. rewrite render_loop_actors. simpl.
  intros Ha. apply list_elem_of_fmap in Ha as [x [-> _]]. done.
Qed.
End Materials.

(** ** Label mesh extraction ([mesh_viz.extract_label_meshes]) *)
Section ExtractionProps.
Import MeshViz.
Context `{GeometryLib}.

Variables (volume : ndarray) (spacing origin : vec3).
Variables (sigma : Qc) (smooth_iter : Z) (smooth_relax threshold : Qc).

(** The mesh of one label, or nothing. *)
Definition label_mesh (lbl : Qc) : option PolyData :=
  extract_isosurface (label_mask volume lbl) spacing origin threshold sigma
    smooth_iter smooth_relax.

(** The field handed to the contour filter for a label. *)
Definition label_field (lbl : Qc) : ndarray :=
  if bool_decide (0 < sigma) then gaussian_filter (label_mask volume lbl) sigma
  else label_mask volume lbl.

Lemma label_mesh_None (lbl : Qc) :
  label_mesh lbl = None ↔
  n_points (contour (label_field lbl) spacing origin threshold) = 0%nat.
Proof.
  unfold label_mesh, extract_isosurface, label_field.
  repeat case_bool_decide; naive_solver.
Qed.

Lemma extract_loop (labels : list Qc) (acc : list (Qc * PolyData)) :
  foldl (extract_step volume spacing origin sigma smooth_iter smooth_relax
           threshold) acc labels
  = acc ++ omap (fun lbl => pair lbl <$> label_mesh lbl) labels.
Proof.
  revert acc. induction labels as [|lbl rest IH]; intros acc; simpl.
  - by rewrite app_nil_r.
  - rewrite IH. unfold extract_step. fold (label_mesh lbl).
    destruct (label_mesh lbl); simpl; [by rewrite <- app_assoc | done].
Qed.

Lemma extract_label_meshes_omap (labels : list Qc) :
  extract_label_meshes volume labels spacing origin sigma smooth_iter
    smooth_relax threshold
  = omap (fun lbl => pair lbl <$> label_mesh lbl) labels.
Proof. unfold extract_label_meshes. by rewrite extract_loop. Qed.

Lemma extracted_labels (labels : list Qc) :
  (omap (fun lbl => pair lbl <$> label_mesh lbl) labels).*1
  = filter (fun lbl => is_Some (label_mesh lbl)) labels.
Proof.
  induction labels as [|lbl rest IH]; [done|]. simpl.
  destruct (label_mesh lbl) as [m|] eqn:E; simpl.
  - rewrite filter_cons_True by (by rewrite E). f_equal. exact IH.
  - rewrite filter_cons_False; [exact IH|]. rewrite E. by intros [? ?].
Qed.

Lemma extracted_mesh (labels : list Qc) (lbl : Qc) (m : PolyData) :
  (lbl, m) ∈ omap (fun lbl => pair lbl <$> label_mesh lbl) labels →
  lbl ∈ labels ∧ label_mesh lbl = Some m.
Proof.
  rewrite list_elem_of_omap. intros (l & Hl & Hm).
  destruct (label_mesh l) as [m'|] eqn:E; simplify_eq/=. done.
Qed.
End ExtractionProps.

Section ExtractionClaims.
Import MeshViz.
Context `{GeometryLib}.

(** pyvista's [smooth] moves points and keeps their number. *)
Definition smooth_keeps_points : Prop :=
  ∀ m n r, n_points (smooth m n r) = n_points m.

(** scipy's Gaussian filter is a weighted mean: an all-zero field stays
    all-zero. *)
Definition gaussian_keeps_zero : Prop :=
  ∀ f s, Forall (fun v => v = 0) (voxels f) →
         Forall (fun v => v = 0) (voxels (gaussian_filter f s)).

(** The contour filter puts points only where the field crosses the
    isovalue: a field wholly below it gives none. *)
Definition contour_needs_crossing : Prop :=
  ∀ f sp og t, Forall (fun v => v < t) (voxels f) →
               n_points (contour f sp og t) = 0%nat.

Lemma label_mesh_points (V : ndarray) (sp og : vec3) (sigma : Qc) (it : Z)
    (relax th lbl : Qc) (m : PolyData) :
  smooth_keeps_points →
  label_mesh V sp og sigma it relax th lbl = Some m → n_points m ≠ 0%nat.
Proof.
  intros Hsmooth. unfold label_mesh, extract_isosurface. cbv zeta.
  set (surface := contour _ sp og th).
  destruct (decide (n_points surface = 0%nat)) as [Hpts|Hpts].
  - by rewrite bool_decide_eq_true_2.
  - rewrite (bool_decide_eq_false_2 _ Hpts).
    case_bool_decide; intros [= <-]; by rewrite ?Hsmooth.
Qed.

(** C1: the labels of the extracted pairs are a subsequence of the requested
    labels (all from [L], same relative order), no extracted mesh has zero
    points, and the labels kept are exactly those whose isosurface has
    points: a label without geometry is left out, not paired with an empty
    mesh. *)
Theorem extract_label_meshes_sound (Hsmooth : smooth_keeps_points)
    (V : ndarray) (L : list Qc) (sp og : vec3) (sigma : Qc) (it : Z)
    (relax th : Qc) :
  let out := extract_label_meshes V L sp og sigma it relax th in
  sublist out.*1 L ∧
  (∀ lbl m, (lbl, m) ∈ out → lbl ∈ L ∧ n_points m ≠ 0%nat) ∧
  out.*1 = filter (fun lbl =>
             n_points (contour (label_field V sigma lbl) sp og th) ≠ 0%nat) L.
Proof.
  cbv zeta. rewrite extract_label_meshes_omap, extracted_labels.
  split; [apply sublist_filter|]. split.
  - intros lbl m Hm. apply extracted_mesh in Hm as [HL Hm].
    split; [done|]. by eapply label_mesh_points.
  - apply list_filter_iff. intros lbl.
    rewrite <- not_eq_None_Some, label_mesh_None. done.
Qed.

Lemma mask_zero (V : ndarray) (lbl : Qc) :
  lbl ∉ voxels V → Forall (fun v => v = 0) (voxels (label_mask V lbl)).
Proof.
  intros Hlbl. unfold label_mask. simpl. apply Forall_fmap, Forall_forall.
  intros v Hv. simpl. case_bool_decide; [by subst|done].
Qed.

(** C2: a label that matches no voxel is left out of the result for the
    threshold 0.5 and any sigma and smooth_iter (negative ones included): its
    mask is all zeros, stays all zeros under the Gaussian filter, and a
    field below the isovalue has no isosurface. Nothing is raised: the
    function is total. *)
Theorem unmatched_label_omitted (Hgauss : gaussian_keeps_zero)
    (Hcontour : contour_needs_crossing)
    (V : ndarray) (L : list Qc) (lbl : Qc) (sp og : vec3) (sigma : Qc)
    (it : Z) (relax : Qc) :
  lbl ∉ voxels V →
  lbl ∉ (extract_label_meshes V L sp og sigma it relax (dec 1 2)).*1.
Proof.
  intros Hlbl. rewrite extract_label_meshes_omap, extracted_labels.
  rewrite list_elem_of_filter. intros [[m Hm] _].
  assert (Hnone : label_mesh V sp og sigma it relax (dec 1 2) lbl = None);
    [|congruence].
  apply label_mesh_None, Hcontour.
  assert (Hzero : Forall (fun v => v = 0) (voxels (label_field V sigma lbl))).
  { unfold label_field. case_bool_decide; [apply Hgauss|]; by apply mask_zero. }
  eapply Forall_impl; [exact Hzero|]. by intros v ->.
Qed.
End ExtractionClaims.

(** A small geometry library for running the extraction: no blur, one point
    at the origin when some voxel reaches the isovalue, no smoothing. *)
Definition point_lib : MeshViz.GeometryLib :=
  {| MeshViz.gaussian_filter f s := f;
     MeshViz.contour f sp og t :=
       {| MeshViz.points :=
            if bool_decide (Forall (fun v => v < t) (MeshViz.voxels f))
            then [] else [og];
          MeshViz.faces := [] |};
     MeshViz.smooth m n r := m;
     MeshViz.scene_bounds ms := unit_box |}.

Definition grid4 : MeshViz.ndarray :=
  {| MeshViz.shape := (2, 2, 1)%nat;
     MeshViz.voxels := [0; dec 1 1; dec 1 1; dec 2 1] |}.

Section ExtractionWitness.
Import MeshViz.
#[local] Existing Instance point_lib.

Definition three_labels : list Qc := [dec 1 1; dec 3 1; dec 2 1].

Lemma point_lib_contour : contour_needs_crossing.
Proof.
  intros f sp og t Hbelow. unfold n_points. simpl.
  by rewrite bool_decide_eq_true_2.
Qed.

Lemma extract_label_meshes_sound_witness :
  let out := extract_label_meshes grid4 three_labels (1, 1, 1) (0, 0, 0)
               0 0%Z (dec 1 10) (dec 1 2) in
  sublist out.*1 three_labels ∧
  (∀ lbl m, (lbl, m) ∈ out → lbl ∈ three_labels ∧ n_points m ≠ 0%nat) ∧
  out.*1 = filter (fun lbl =>
             n_points (contour (label_field grid4 0 lbl)
                         (1, 1, 1) (0, 0, 0) (dec 1 2)) ≠ 0%nat)
             three_labels.
Proof.
  apply extract_label_meshes_sound.
  intros m n r. reflexivity.
Defined.

Example extract_grid4_labels :
  (extract_label_meshes grid4 three_labels (1, 1, 1) (0, 0, 0) 0 0%Z
     (dec 1 10) (dec 1 2)).*1 = [dec 1 1; dec 2 1].
Proof. by_eval. Qed.

Lemma unmatched_label_omitted_witness :
  (dec 3 1 ∉ voxels grid4) ∧
  dec 3 1 ∉ (extract_label_meshes grid4 three_labels (1, 1, 1) (0, 0, 0)
               (dec 8 10) 30%Z (dec 1 10) (dec 1 2)).*1.
Proof.
  assert (Hlbl : dec 3 1 ∉ voxels grid4) by (by_eval).
  split; [exact Hlbl|].
  apply unmatched_label_omitted.
  - intros f s Hzero. exact Hzero.
  - exact point_lib_contour.
  - exact Hlbl.
Defined.
End ExtractionWitness.

(** ** Loading a volume ([MeshGui._load_volume]) *)
Section LoadVolume.
Import MeshViz MainWindow.
Context `{GeometryLib}.

(** The attempt fails: the path does not exist, or decoding raised. *)
Definition load_failed (r : nii_read) : Prop :=
  match r with nii_ok _ _ _ => False | _ => True end.

#[local] Instance load_failed_dec (r : nii_read) : Decision (load_failed r).
Proof. destruct r; simpl; apply _. Defined.

(** The message a failed attempt leaves in the status label. *)
Definition failure_status (path : string) (r : nii_read) : Status :=
  match r with
  | nii_error exc => st_failed_to_load exc
  | _ => st_file_not_found path
  end.

(** C8: a failed load only sets the status message: the result is the old
    session with a new status, so volume, spacing, origin, the label list,
    the rendered scene and everything else are as before. *)
Theorem load_failure_keeps_session (path : string) (r : nii_read) (g : MeshGui) :
  load_failed r →
  let g' := _load_volume path r g in
  g' = _set_status (failure_status path r) g ∧
  volume g' = volume g ∧ spacing g' = spacing g ∧ origin g' = origin g ∧
  label_list g' = label_list g ∧ plotter g' = plotter g ∧
  colormap_panel g' = colormap_panel g ∧
  render_params g' = render_params g ∧
  _render_timer g' = _render_timer g ∧ render_log g' = render_log g.
Proof.
  intros Hfail. destruct r as [|exc|v sp og]; [| |destruct Hfail];
    cbv zeta; simpl; repeat split.
Qed.

Lemma render_scene_frame (g : MeshGui) :
  let g' := _render_scene g in
  volume g' = volume g ∧ spacing g' = spacing g ∧ origin g' = origin g ∧
  _render_timer g' = _render_timer g ∧ label_list g' = label_list g ∧
  colormap_panel g' = colormap_panel g ∧ render_params g' = render_params g ∧
  render_log g' = render_log g ++
    [ {| pass_params := render_params g;
         pass_labels := LabelList.get_checked_labels (label_list g) |} ].
Proof.
  cbv zeta. unfold _render_scene, log_pass. cbv zeta.
  destruct g as [v sp og t ll cp rp pl st lg]. simpl.
  destruct v as [v|]; [|by repeat split].
  destruct sp as [sp|]; [|by repeat split].
  destruct og as [og|]; [|by repeat split].
  destruct (LabelList.get_checked_labels ll) as [|l ls]; [by repeat split|].
  destruct (extract_label_meshes _ _ _ _ _ _ _ _); by repeat split.
Qed.

Lemma populate_loop_checked (labels : list Qc) (idx : nat)
    (its : list (Qc * bool)) (cols : list (Qc * string)) :
  Forall (fun it => it.2 = true) its →
  Forall (fun it => it.2 = true) (LabelList.populate_loop idx labels its cols).1.
Proof.
  revert idx its cols.
  induction labels as [|l ls IH]; intros idx its cols Hits; simpl; [done|].
  apply IH, Forall_app. split; [done|]. by constructor.
Qed.

Lemma populate_labels_checked (d : gmap Qc Qc) (labels : list Qc)
    (values : option LabelList.values_ref) (p : LabelList.LabelListPanel) :
  let p' := LabelList.populate_labels d labels values p in
  LabelList.get_checked_labels p' = (LabelList.items p').*1.
Proof.
  cbv zeta. unfold LabelList.populate_labels, LabelList.get_checked_labels.
  pose proof (populate_loop_checked labels 0 [] [] (Forall_nil_2 _)) as Hall.
  destruct (LabelList.populate_loop 0 labels [] []) as [its cols]. simpl in *.
  f_equal. induction Hall as [|it its' Hit _ IH]; [done|].
  rewrite filter_cons_True by done. by rewrite IH.
Qed.

(** A successful load does install the volume it decoded, with every label
    checked. *)
Lemma load_success_installs (path : string) (v : ndarray) (sp og : vec3)
    (g : MeshGui) :
  let g' := _load_volume path (nii_ok v sp og) g in
  volume g' = Some v ∧ spacing g' = Some sp ∧ origin g' = Some og ∧
  LabelList.get_checked_labels (label_list g') = (LabelList.items (label_list g')).*1.
Proof.
  cbv zeta. unfold _load_volume. cbv zeta.
  match goal with |- context [_render_scene ?x] =>
    destruct (render_scene_frame x) as (Hv & Hs & Ho & _ & Hl & _) end.
  rewrite Hv, Hs, Ho, Hl. simpl. repeat split.
  apply populate_labels_checked.
Qed.
End LoadVolume.

(** A session with the four-voxel grid loaded, for running the window. *)
Definition loaded_session : MainWindow.MeshGui :=
  MainWindow._load_volume (H := point_lib) "grid.nii"
    (MainWindow.nii_ok grid4 (1, 1, 1) (0, 0, 0)) MainWindow.init.

Lemma load_failure_keeps_session_witness :
  let r := MainWindow.nii_error "not a NIfTI file" in
  let g' := MainWindow._load_volume (H := point_lib) "bad.nii" r loaded_session in
  load_failed r ∧
  g' = MainWindow._set_status (failure_status "bad.nii" r) loaded_session ∧
  MainWindow.volume g' = MainWindow.volume loaded_session ∧
  MainWindow.spacing g' = MainWindow.spacing loaded_session ∧
  MainWindow.origin g' = MainWindow.origin loaded_session ∧
  MainWindow.label_list g' = MainWindow.label_list loaded_session ∧
  MainWindow.plotter g' = MainWindow.plotter loaded_session ∧
  MainWindow.colormap_panel g' = MainWindow.colormap_panel loaded_session ∧
  MainWindow.render_params g' = MainWindow.render_params loaded_session ∧
  MainWindow._render_timer g' = MainWindow._render_timer loaded_session ∧
  MainWindow.render_log g' = MainWindow.render_log loaded_session.
Proof.
  assert (Hfail : load_failed (MainWindow.nii_error "not a NIfTI file"))
    by exact I.
  split; [exact Hfail|].
  exact (load_failure_keeps_session (H := point_lib) "bad.nii" _
           loaded_session Hfail).
Defined.

Example loaded_session_volume :
  MainWindow.volume loaded_session = Some grid4 ∧
  LabelList.get_checked_labels (MainWindow.label_list loaded_session)
  = [dec 1 1; dec 2 1] ∧
  MainWindow.status loaded_session = MainWindow.st_rendered 2.
Proof. by_eval. Qed.

(** ** The render timer ([MeshGui._schedule_render]) *)
Section Debounce.
Import MeshViz Constants MainWindow.
Context `{GeometryLib}.

(** The widgets after a sequence of changes, scheduling left aside. *)
Definition apply_params (es : list param_event) (g : MeshGui) : MeshGui :=
  foldl (fun g e => apply_param e g) g es.

(** What a render pass started in state [g] reads. *)
Definition pass_of (g : MeshGui) : RenderPass :=
  {| pass_params := render_params g;
     pass_labels := LabelList.get_checked_labels (label_list g) |}.

Lemma apply_param_frame (e : param_event) (g : MeshGui) :
  volume (apply_param e g) = volume g ∧
  _render_timer (apply_param e g) = _render_timer g ∧
  render_log (apply_param e g) = render_log g.
Proof. by destruct e. Qed.

Lemma apply_param_timer (e : param_event) (t : option nat) (g : MeshGui) :
  apply_param e (with_timer t g) = with_timer t (apply_param e g).
Proof. by destruct e. Qed.

Lemma with_timer_twice (t t' : option nat) (g : MeshGui) :
  with_timer t (with_timer t' g) = with_timer t g.
Proof. done. Qed.

Lemma apply_params_frame (es : list param_event) (g : MeshGui) :
  volume (apply_params es g) = volume g ∧
  _render_timer (apply_params es g) = _render_timer g ∧
  render_log (apply_params es g) = render_log g.
Proof.
  revert g. induction es as [|e es IH]; intros g; [done|]. simpl.
  destruct (IH (apply_param e g)) as (-> & -> & ->). apply apply_param_frame.
Qed.

Lemma apply_params_timer (es : list param_event) (t : option nat)
    (g : MeshGui) :
  apply_params es (with_timer t g) = with_timer t (apply_params es g).
Proof.
  revert g. induction es as [|e es IH]; intros g; [done|]. simpl.
  by rewrite apply_param_timer, IH.
Qed.

Lemma on_param_event_loaded (e : param_event) (g : MeshGui) :
  is_Some (volume g) →
  on_param_event e g = with_timer (Some RENDER_DEBOUNCE_MS) (apply_param e g).
Proof.
  intros [v Hv]. unfold on_param_event, _schedule_render.
  destruct (apply_param_frame e g) as (-> & _). by rewrite Hv.
Qed.

Lemma on_param_event_idle (e : param_event) (g : MeshGui) :
  volume g = None → on_param_event e g = apply_param e g.
Proof.
  intros Hv. unfold on_param_event, _schedule_render.
  destruct (apply_param_frame e g) as (-> & _). by rewrite Hv.
Qed.

(** Within a burst the timer is restarted by every event and never times
    out: the state after the burst is the widgets' new state with the timer
    freshly armed. *)
Lemma run_burst (rest : list (nat * param_event)) (e : param_event)
    (g : MeshGui) :
  is_Some (volume g) →
  Forall (fun ge => ge.1 < RENDER_DEBOUNCE_MS)%nat rest →
  run (burst e rest) g
  = with_timer (Some RENDER_DEBOUNCE_MS) (apply_params (e :: rest.*2) g).
Proof.
  revert e g. induction rest as [|[gap e'] rest IH]; intros e g Hv Hgaps.
  - simpl. by apply on_param_event_loaded.
  - apply Forall_cons in Hgaps as [Hgap Hgaps]. simpl in Hgap.
    cbn [burst run foldl run_step]. rewrite on_param_event_loaded by done.
    unfold elapse. cbn [_render_timer with_timer].
    rewrite bool_decide_eq_false_2 by lia. rewrite with_timer_twice.
    change (foldl run_step ?a ?b) with (run b a). rewrite IH; [| |done].
    + cbn [fmap list_fmap apply_params foldl snd].
      change (foldl _ ?a ?b) with (apply_params b a).
      by rewrite apply_param_timer, apply_params_timer, with_timer_twice.
    + cbn [volume with_timer]. by destruct (apply_param_frame e g) as (-> & _).
Qed.

Lemma elapse_fires (T : nat) (g : MeshGui) :
  (RENDER_DEBOUNCE_MS <= T)%nat →
  elapse T (with_timer (Some RENDER_DEBOUNCE_MS) g)
  = _render_scene (with_timer None g).
Proof.
  intros HT. unfold elapse. cbn [_render_timer with_timer].
  by rewrite bool_decide_eq_true_2, with_timer_twice.
Qed.

Lemma elapse_early (T : nat) (g : MeshGui) :
  (T < RENDER_DEBOUNCE_MS)%nat →
  elapse T (with_timer (Some RENDER_DEBOUNCE_MS) g)
  = with_timer (Some (RENDER_DEBOUNCE_MS - T)%nat) g.
Proof.
  intros HT. unfold elapse. cbn [_render_timer with_timer].
  rewrite bool_decide_eq_false_2 by lia. apply with_timer_twice.
Qed.

Lemma elapse_stopped (T : nat) (g : MeshGui) :
  _render_timer g = None → elapse T g = g.
Proof. intros Ht. unfold elapse. by rewrite Ht. Qed.

(** Without a volume nothing is ever scheduled, whatever the user does. *)
Lemma idle_run (steps : list step) (g : MeshGui) :
  volume g = None → _render_timer g = None →
  volume (run steps g) = None ∧ _render_timer (run steps g) = None ∧
  render_log (run steps g) = render_log g.
Proof.
  revert g. induction steps as [|s steps IH]; intros g Hv Ht; [done|].
  cbn [run foldl]. change (foldl run_step ?a ?b) with (run b a).
  destruct s as [dt|e]; cbn [run_step].
  - rewrite elapse_stopped by done. by apply IH.
  - rewrite on_param_event_idle by done.
    destruct (apply_param_frame e g) as (Hv' & Ht' & Hl').
    destruct (IH (apply_param e g)) as (? & ? & ?); [congruence..|].
    repeat split; congruence.
Qed.

End Debounce.

Section DebounceWitness.
Import Constants MainWindow.
#[local] Existing Instance point_lib.

Definition drag_first : param_event := sigma_changed (dec 10 10).
Definition drag_rest : list (nat * param_event) :=
  [(30%nat, sigma_changed (dec 12 10)); (79%nat, smooth_changed 10)].


Example drag_renders_once :
  render_log (elapse 80 (run (burst drag_first drag_rest) loaded_session))
  = render_log loaded_session ++
    [ {| pass_params :=
           {| RenderParams.sigma := dec 12 10; RenderParams.smooth_iter := 10;
              RenderParams.show_edges := false;
              RenderParams.style := "3D shading";
              RenderParams.view := "left" |};
         pass_labels := [dec 1 1; dec 2 1] |} ].
Proof. by_eval. Qed.
End DebounceWitness.

(** ** Stand-ins for Python's [float], matplotlib and Qt, for running the GUI *)

Definition digit_of (c : ascii) : option Z :=
  let n := nat_of_ascii c in
  if bool_decide (48 <= n <= 57)%nat then Some (Z.of_nat (n - 48)) else None.

(** Digits with at most one decimal point and at least one digit:
    the integer they spell without the point, and the power of ten to
    divide it by. *)
Fixpoint parse_digits (cs : list ascii) (acc : Z) (scale : option positive)
    (seen : bool) : option (Z * positive) :=
  match cs with
  | [] => if seen then Some (acc, default 1%positive scale) else None
  | c :: rest =>
      if bool_decide (c = "."%char) then
        match scale with
        | Some _ => None
        | None => parse_digits rest acc (Some 1%positive) seen
        end
      else
        d ← digit_of c;
        parse_digits rest (10 * acc + d)%Z ((fun s => s * 10)%positive <$> scale) true
  end.

(** Plain decimal literals, a subset of what [float] accepts. *)
Definition parse_decimal (s : string) : option Qc :=
  let cs := String.list_ascii_of_string (str_strip s) in
  let '(neg, cs) :=
    match cs with
    | c :: rest =>
        if bool_decide (c = "-"%char) then (true, rest)
        else if bool_decide (c = "+"%char) then (false, rest)
        else (false, cs)
    | [] => (false, cs)
    end in
  '(n, d) ← parse_digits cs 0%Z None false;
  Some (Q2Qc ((if neg then - n else n)%Z # d)).

Definition decimal_float : PyFloat := {| py_float := parse_decimal |}.

Definition hex_digit (n : nat) : ascii :=
  ascii_of_nat (if bool_decide (n < 10)%nat then 48 + n else 87 + n).

(** A grey ramp standing for every colormap: linear normalisation, values
    outside [0, 1] take the end colours. *)
Definition gray_hex (x : Qc) : string :=
  let x := if bool_decide (x < 0) then 0 else if bool_decide (1 < x) then 1 else x in
  let level := Z.to_nat (Qfloor (x * dec 255 1)) in
  let hh := String (hex_digit (level / 16)) (String (hex_digit (level mod 16)) EmptyString) in
  String "#"%char (hh +:+ hh +:+ hh).

Definition gray_lib : ColorLib :=
  {| normalize vmin vmax value :=
       if bool_decide (vmax < vmin) then None
       else if bool_decide (vmin = vmax) then Some 0
       else Some ((value - vmin) / (vmax - vmin));
     cmap_hex name x := gray_hex x |}.

(** Rounding to the nearest thousandth, standing for the spin boxes'
    rounding. A value exactly half-way goes to the neighbour nearer zero;
    Qt, which rounds the binary double, may take either. *)
Definition round_nearest (x : Qc) : Z :=
  if bool_decide (0 ≤ x) then (- Qfloor (- x + dec 1 2))%Z
  else Qfloor (x + dec 1 2).

Definition thousandths (x : Qc) : Qc :=
  Qc_of_Z (round_nearest (x * Qc_of_Z 1000)) / Qc_of_Z 1000.

Definition thousandths_lib : QtLib := {| spin_round := thousandths |}.

Example parse_decimal_samples :
  parse_decimal " 0.25" = Some (dec 1 4) ∧ parse_decimal "-3" = Some (dec (-3) 1) ∧
  parse_decimal "label" = None ∧ parse_decimal "1.2.3" = None ∧
  parse_decimal "" = None ∧ gray_hex (dec 1 2) = "#7f7f7f"%string.
Proof. by_eval. Qed.

(** ** Insertion-ordered dictionaries *)
Section Dict.
Context {V : Type}.
Implicit Types (d : list (Qc * V)) (k : Qc) (v : V).

Lemma dict_get_set d k v k' :
  dict_get (dict_set k v d) k'
  = if bool_decide (k = k') then Some v else dict_get d k'.
Proof.
  induction d as [|[k0 v0] d IH]; simpl.
  - by repeat case_bool_decide.
  - destruct (decide (k0 = k)) as [->|Hk0].
    + rewrite bool_decide_eq_true_2 by done. simpl. by case_bool_decide.
    + rewrite (bool_decide_eq_false_2 _ Hk0). simpl. rewrite IH.
      repeat case_bool_decide; congruence.
Qed.

(** Assigning to a key keeps the order of the keys; a new key goes last. *)
Lemma dict_keys_cons d k v : dict_keys ((k, v) :: d) = k :: dict_keys d.
Proof. done. Qed.

Lemma dict_keys_set d k v :
  dict_keys (dict_set k v d)
  = if bool_decide (k ∈ dict_keys d) then dict_keys d else dict_keys d ++ [k].
Proof.
  induction d as [|[k0 v0] d IH]; [done|]. cbn [dict_set].
  destruct (decide (k0 = k)) as [->|Hk0].
  - rewrite bool_decide_eq_true_2 by done. rewrite !dict_keys_cons.
    by rewrite bool_decide_eq_true_2 by left.
  - rewrite (bool_decide_eq_false_2 _ Hk0). rewrite !dict_keys_cons, IH.
    destruct (decide (k ∈ dict_keys d)) as [Hk|Hk].
    + rewrite !bool_decide_eq_true_2; [done| by right | done].
    + rewrite !bool_decide_eq_false_2; [done| |done].
      intros [?|?]%elem_of_cons; congruence.
Qed.

Lemma dict_get_None d k : dict_get d k = None ↔ k ∉ dict_keys d.
Proof.
  induction d as [|[k0 v0] d IH]; cbn [dict_get].
  - split; [intros _; apply not_elem_of_nil | done].
  - rewrite dict_keys_cons, not_elem_of_cons. case_bool_decide as Hk.
    + split; [done|]. by intros [? _].
    + rewrite IH. split; [by split | by intros [_ ?]].
Qed.

Lemma dict_keys_NoDup_set d k v :
  NoDup (dict_keys d) → NoDup (dict_keys (dict_set k v d)).
Proof.
  intros Hd. rewrite dict_keys_set. case_bool_decide as Hk; [done|].
  apply NoDup_app. split; [done|]. split; [|apply NoDup_singleton].
  intros x Hx ->%list_elem_of_singleton. done.
Qed.

(** [d.update(other)] when the values of [other] are a function of the key:
    the keys of [other] take that value, every other key keeps its own. *)
Lemma dict_get_update (f : Qc → V) (other d : list (Qc * V)) k :
  (∀ e, e ∈ other → e.2 = f e.1) →
  dict_get (dict_update d other) k
  = if bool_decide (k ∈ dict_keys other) then Some (f k) else dict_get d k.
Proof.
  unfold dict_update. revert d.
  induction other as [|[k0 v0] other IH]; intros d Hf; [done|].
  cbn [foldl fst snd]. rewrite IH by (intros e He; apply Hf; by right).
  rewrite dict_get_set, dict_keys_cons.
  pose proof (Hf (k0, v0) (list_elem_of_here _ _)) as Hv0. simpl in Hv0.
  destruct (decide (k ∈ dict_keys other)) as [Hk|Hk].
  - rewrite !bool_decide_eq_true_2; [done| by right | done].
  - rewrite (bool_decide_eq_false_2 _ Hk).
    destruct (decide (k0 = k)) as [->|Hne].
    + rewrite !bool_decide_eq_true_2; [by rewrite Hv0 | left | done].
    + rewrite !bool_decide_eq_false_2; [done| |done].
      intros [?|?]%elem_of_cons; congruence.
Qed.

Lemma dict_keys_update (other d : list (Qc * V)) :
  dict_keys other ⊆ dict_keys d →
  dict_keys (dict_update d other) = dict_keys d.
Proof.
  unfold dict_update. revert d.
  induction other as [|[k0 v0] other IH]; intros d Hsub; [done|].
  cbn [foldl fst snd]. rewrite dict_keys_cons in Hsub.
  assert (Hk0 : k0 ∈ dict_keys d) by (apply Hsub; left).
  assert (Hkeys : dict_keys (dict_set k0 v0 d) = dict_keys d)
    by (by rewrite dict_keys_set, bool_decide_eq_true_2).
  rewrite IH; [done|]. rewrite Hkeys. intros x Hx. apply Hsub. by right.
Qed.
End Dict.

Lemma elem_of_dict_set {V} (d : list (Qc * V)) (k : Qc) (v : V) (e : Qc * V) :
  e ∈ dict_set k v d → e = (k, v) ∨ e ∈ d.
Proof.
  induction d as [|[k0 v0] d IH]; cbn [dict_set].
  - intros ->%list_elem_of_singleton. by left.
  - case_bool_decide as Hk.
    + intros [->|He]%elem_of_cons; [left; by subst | right; by right].
    + intros [->|He]%elem_of_cons; [right; left|].
      destruct (IH He) as [-> | ?]; [by left | right; by right].
Qed.

(** ** Colormap colours ([compute_colors], [_update_colors_from_colormap]) *)
Section ColormapColors.
Import MainWindow.
Context `{ColorLib}.

(** matplotlib's [Normalize] raises exactly for an inverted range. *)
Definition normalize_raises : Prop :=
  ∀ vmin vmax v, normalize vmin vmax v = None ↔ vmax < vmin.

(** The range [get_color_for_value] hands to [Normalize] is inverted. *)
Definition range_inverted (p : Colormap.ColormapPanel) : Prop :=
  default 1 (Colormap.colormap_vmax p) < default 0 (Colormap.colormap_vmin p).

Definition has_value (p : Colormap.ColormapPanel) (lbl : Qc) : Prop :=
  is_Some (Colormap.label_values p !! lbl).

(** The colormap colour of a label: that of its value, if it has one and
    [get_color_for_value] returns. *)
Definition color_of (p : Colormap.ColormapPanel) (lbl : Qc) : option string :=
  Colormap.label_values p !! lbl ≫= Colormap.get_color_for_value p.

(** When [compute_colors] raises on the labels [labels]. *)
Definition colors_raise (p : Colormap.ColormapPanel) (labels : list Qc) : Prop :=
  range_inverted p ∧ ∃ k, k ∈ labels ∧ has_value p k.

Lemma get_color_raises (Hnorm : normalize_raises)
    (p : Colormap.ColormapPanel) (v : Qc) :
  Colormap.get_color_for_value p v = None ↔ range_inverted p.
Proof.
  unfold Colormap.get_color_for_value, range_inverted. cbv zeta.
  rewrite <- (Hnorm _ _ v). by destruct (normalize _ _ v).
Qed.

(** One turn of the loop of [compute_colors]. *)
Definition color_step (p : Colormap.ColormapPanel)
    (colors : option (list (Qc * string))) (lbl : Qc)
    : option (list (Qc * string)) :=
  colors ← colors;
  match Colormap.label_values p !! lbl with
  | Some value =>
      c ← Colormap.get_color_for_value p value;
      Some (dict_set lbl c colors)
  | None => Some colors
  end.

Lemma color_loop_raised (p : Colormap.ColormapPanel) (labels : list Qc) :
  foldl (color_step p) None labels = None.
Proof. by induction labels. Qed.

Lemma compute_loop (p : Colormap.ColormapPanel) (labels : list Qc)
    (acc : list (Qc * string)) :
  (∀ e, e ∈ acc → color_of p e.1 = Some e.2) →
  match foldl (color_step p) (Some acc) labels with
  | Some r =>
      (∀ e, e ∈ r → color_of p e.1 = Some e.2) ∧
      (∀ k, k ∈ dict_keys r ↔ k ∈ dict_keys acc ∨ (k ∈ labels ∧ has_value p k)) ∧
      (∀ k, k ∈ labels → has_value p k → is_Some (color_of p k))
  | None =>
      ∃ k v, k ∈ labels ∧ Colormap.label_values p !! k = Some v ∧
             Colormap.get_color_for_value p v = None
  end.
Proof.
  revert acc. induction labels as [|lbl labels IH]; intros acc Hacc; cbn [foldl].
  - split; [done|]. split.
    + intros k. split; [by left|].
      intros [?|[Hk _]]; [done | by apply elem_of_nil in Hk].
    + by intros k Hk%elem_of_nil.
  - unfold color_step at 2. cbn [mbind option_bind].
    destruct (Colormap.label_values p !! lbl) as [v|] eqn:Hv.
    + destruct (Colormap.get_color_for_value p v) as [c|] eqn:Hc; cbn [mbind option_bind].
      * specialize (IH (dict_set lbl c acc)).
        destruct (foldl (color_step p) (Some (dict_set lbl c acc)) labels)
          as [r|].
        -- destruct IH as (Hvals & Hkeys & Hsome).
           { intros e [->|He]%elem_of_dict_set; [|by apply Hacc].
             unfold color_of. simpl. by rewrite Hv. }
           split; [done|]. split.
           ++ intros k. rewrite Hkeys, dict_keys_set.
              unfold has_value. rewrite elem_of_cons.
              case_bool_decide as Hin.
              ** split; [intros [?|[? ?]]; auto|].
                 intros [?|[[-> | ?] ?]]; auto.
              ** rewrite elem_of_app, list_elem_of_singleton.
                 split; [intros [[? | ->]|[? ?]]; auto; right; rewrite Hv; eauto|].
                 intros [?|[[-> | ?] ?]]; auto.
           ++ intros k [->|Hk]%elem_of_cons Hs; [|by apply Hsome].
              unfold color_of. rewrite Hv. simpl. rewrite Hc. eauto.
        -- destruct IH as (k & w & Hk & Hw & Hnone).
           { intros e [->|He]%elem_of_dict_set; [|by apply Hacc].
             unfold color_of. simpl. by rewrite Hv. }
           exists k, w. split; [by right|done].
      * rewrite color_loop_raised. exists lbl, v. split; [left|done].
    + specialize (IH acc Hacc).
      destruct (foldl (color_step p) (Some acc) labels) as [r|].
      * destruct IH as (Hvals & Hkeys & Hsome). split; [done|]. split.
        -- intros k. rewrite Hkeys. unfold has_value. rewrite elem_of_cons.
           split; [intros [?|[? ?]]; auto|].
           intros [?|[[-> | ?] Hs]]; auto. rewrite Hv in Hs. by destruct Hs.
        -- intros k [->|Hk]%elem_of_cons Hs; [|by apply Hsome].
           unfold has_value in Hs. rewrite Hv in Hs. by destruct Hs.
      * destruct IH as (k & w & Hk & Hw & Hnone).
        exists k, w. split; [by right|done].
Qed.

(** [compute_colors] either returns a table with an entry exactly for the
    labels with a value, each the colormap colour of that value, or raises
    because [get_color_for_value] raises for one of them. *)
Lemma compute_colors_spec (p : Colormap.ColormapPanel) (labels : list Qc) :
  match Colormap.compute_colors p labels with
  | Some cols =>
      (∀ e, e ∈ cols → color_of p e.1 = Some e.2) ∧
      (∀ k, k ∈ dict_keys cols ↔ k ∈ labels ∧ has_value p k) ∧
      (∀ k, k ∈ labels → has_value p k → is_Some (color_of p k))
  | None =>
      ∃ k v, k ∈ labels ∧ Colormap.label_values p !! k = Some v ∧
             Colormap.get_color_for_value p v = None
  end.
Proof.
  pose proof (compute_loop p labels []) as Hloop.
  change (foldl (color_step p) (Some []) labels)
    with (Colormap.compute_colors p labels) in Hloop.
  destruct (Colormap.compute_colors p labels) as [cols|].
  - destruct Hloop as (Hvals & Hkeys & Hsome); [by intros e ?%elem_of_nil|].
    split; [done|]. split; [|done]. intros k. rewrite Hkeys.
    split; [intros [Hk|?]; [by apply elem_of_nil in Hk | done] | by right].
  - apply Hloop. by intros e ?%elem_of_nil.
Qed.

(** Under matplotlib's contract [compute_colors] raises exactly when the
    range is inverted and some requested label has a value. *)
Lemma compute_colors_raises (Hnorm : normalize_raises)
    (p : Colormap.ColormapPanel) (labels : list Qc) :
  Colormap.compute_colors p labels = None ↔ colors_raise p labels.
Proof.
  pose proof (compute_colors_spec p labels) as Hspec. unfold colors_raise.
  destruct (Colormap.compute_colors p labels) as [cols|]; split.
  - done.
  - intros [Hinv (k & Hk & Hs)]. destruct Hspec as (_ & _ & Hsome).
    destruct (Hsome k Hk Hs) as [c Hc]. unfold color_of in Hc.
    destruct Hs as [v Hv]. rewrite Hv in Hc. simpl in Hc.
    apply (get_color_raises Hnorm p v) in Hinv. congruence.
  - intros _. destruct Hspec as (k & v & Hk & Hv & Hnone).
    split; [by apply (get_color_raises Hnorm p v)|].
    exists k. split; [done|]. unfold has_value. by rewrite Hv.
  - done.
Qed.

(** In colormap mode [_update_colors_from_colormap] raises, leaving the
    window untouched, exactly when [compute_colors] does on the labels of
    the colour table. *)
Lemma update_colors_colormap (g : MeshGui) :
  Colormap.use_colormap (colormap_panel g) = true →
  _update_colors_from_colormap g
  = match Colormap.compute_colors (colormap_panel g)
            (dict_keys (LabelList.label_colors (label_list g))) with
    | Some cols =>
        returned (with_label_list
                    (LabelList.set_label_colors cols (label_list g)) g)
    | None => raised g
    end.
Proof. intros Hcm. unfold _update_colors_from_colormap. by rewrite Hcm. Qed.

Lemma update_colors_palette (g : MeshGui) :
  Colormap.use_colormap (colormap_panel g) = false →
  _update_colors_from_colormap g
  = returned
      (with_label_list
         (LabelList.with_colors
            (Nat.iter (length (LabelList.label_colors (label_list g)))
               palette_pass (LabelList.label_colors (label_list g)))
            (label_list g)) g).
Proof. intros Hcm. unfold _update_colors_from_colormap. by rewrite Hcm. Qed.
End ColormapColors.

Lemma gray_normalize_raises : normalize_raises (H := gray_lib).
Proof.
  intros vmin vmax v. cbn [normalize gray_lib]. case_bool_decide as Hinv.
  - done.
  - split; [|done]. by case_bool_decide.
Qed.
(** ** The colormap range ([ColormapPanel.auto_range]) *)
Section AutoRange.
Import MainWindow.
Context `{ColorLib} `{QtLib}.

(** [v] is the least (greatest) value of the table. *)
Definition table_min (m : gmap Qc Qc) (v : Qc) : Prop :=
  (∃ k, m !! k = Some v) ∧ ∀ k w, m !! k = Some w → v ≤ w.
Definition table_max (m : gmap Qc Qc) (v : Qc) : Prop :=
  (∃ k, m !! k = Some v) ∧ ∀ k w, m !! k = Some w → w ≤ v.

(** The margin of the spec: 5% of the span, or 0.1 for a single value. *)
Definition margin_of (lo hi : Qc) : Qc :=
  if bool_decide (lo < hi) then dec 5 100 * (hi - lo) else dec 1 10.

(** The range used for colouring agrees with what the spin boxes show. *)
Definition range_synced (g : MeshGui) : Prop :=
  colormap_range g = (Colormap.vmin_spin (colormap_panel g),
                      Colormap.vmax_spin (colormap_panel g)).

(** Some label of the colour table has a value in the value table. *)
Definition some_label_valued (g : MeshGui) : Prop :=
  ∃ k, k ∈ dict_keys (LabelList.label_colors (label_list g)) ∧
       has_value (colormap_panel g) k.

(** Storing the lower bound [v] would hand [Normalize] an inverted range:
    colormap mode is on, the box changes, [v] lies above the upper bound
    shown, and there is a colour to compute. *)
Definition lower_bound_stops (g : MeshGui) (v : Qc) : Prop :=
  Colormap.use_colormap (colormap_panel g) = true ∧
  v ≠ Colormap.vmin_spin (colormap_panel g) ∧
  Colormap.vmax_spin (colormap_panel g) < v ∧
  some_label_valued g.

(** The same for the upper bound [v], below the lower bound shown. *)
Definition upper_bound_stops (g : MeshGui) (v : Qc) : Prop :=
  Colormap.use_colormap (colormap_panel g) = true ∧
  v ≠ Colormap.vmax_spin (colormap_panel g) ∧
  v < Colormap.vmin_spin (colormap_panel g) ∧
  some_label_valued g.

Lemma elem_of_table_values (m : gmap Qc Qc) (v : Qc) :
  v ∈ (map_to_list m).*2 ↔ ∃ k, m !! k = Some v.
Proof.
  rewrite list_elem_of_fmap. split.
  - intros [[k w] [-> Hkw]]. exists k. by apply elem_of_map_to_list.
  - intros [k Hk]. exists (k, v). split; [done|]. by apply elem_of_map_to_list.
Qed.

Lemma table_min_of_list (m : gmap Qc Qc) (v : Qc) :
  is_min_of v (map_to_list m).*2 → table_min m v.
Proof.
  intros [Hv Hlb]. split; [by apply elem_of_table_values|].
  intros k w Hk. apply Hlb, elem_of_table_values. by exists k.
Qed.

Lemma table_max_of_list (m : gmap Qc Qc) (v : Qc) :
  is_max_of v (map_to_list m).*2 → table_max m v.
Proof.
  intros [Hv Hub]. split; [by apply elem_of_table_values|].
  intros k w Hk. apply Hub, elem_of_table_values. by exists k.
Qed.

Lemma table_min_unique (m : gmap Qc Qc) (a b : Qc) :
  table_min m a → table_min m b → a = b.
Proof.
  intros [[ka Ha] Hla] [[kb Hb] Hlb]. apply Qcle_antisym; eauto.
Qed.

Lemma table_max_unique (m : gmap Qc Qc) (a b : Qc) :
  table_max m a → table_max m b → a = b.
Proof.
  intros [[ka Ha] Hua] [[kb Hb] Hub]. apply Qcle_antisym; eauto.
Qed.

(** What [auto_range] computes before the spin boxes see it. *)
Lemma auto_bounds_spec (p : Colormap.ColormapPanel) (lo hi : Qc) :
  table_min (Colormap.label_values p) lo →
  table_max (Colormap.label_values p) hi →
  Colormap.auto_bounds p = Some (lo - margin_of lo hi, hi + margin_of lo hi).
Proof.
  intros Hlo Hhi. unfold Colormap.auto_bounds. cbv zeta.
  destruct (py_min (map_to_list (Colormap.label_values p)).*2) as [vmin|] eqn:Emin.
  - destruct (py_max (map_to_list (Colormap.label_values p)).*2) as [vmax|] eqn:Emax.
    + apply py_min_spec, table_min_of_list in Emin.
      apply py_max_spec, table_max_of_list in Emax.
      rewrite (table_min_unique _ _ _ Hlo Emin), (table_max_unique _ _ _ Hhi Emax).
      simpl. unfold margin_of. do 2 f_equal; case_bool_decide; done || ring.
    + destruct (map_to_list (Colormap.label_values p)).*2; done.
  - destruct Hlo as [[k Hk] _].
    assert (Hin : lo ∈ (map_to_list (Colormap.label_values p)).*2)
      by (apply elem_of_table_values; eauto).
    destruct (map_to_list (Colormap.label_values p)).*2; [|done].
    by apply elem_of_nil in Hin.
Qed.

Lemma auto_bounds_empty (p : Colormap.ColormapPanel) :
  Colormap.label_values p = ∅ → Colormap.auto_bounds p = None.
Proof. intros Hp. unfold Colormap.auto_bounds. by rewrite Hp, map_to_list_empty. Qed.

Lemma slot_Some (o : outcome) (g : MeshGui) : slot o = Some g → o = returned g.
Proof. destruct o; [|done]. by intros [= ->]. Qed.

Lemma slot_state (o : outcome) (g : MeshGui) : slot o = Some g → g = state_of o.
Proof. by intros ->%slot_Some. Qed.

Lemma schedule_panel (g : MeshGui) :
  colormap_panel (_schedule_render g) = colormap_panel g.
Proof. unfold _schedule_render. destruct (volume g); reflexivity. Qed.

Lemma update_colors_panel (g : MeshGui) :
  colormap_panel (state_of (_update_colors_from_colormap g)) = colormap_panel g.
Proof.
  unfold _update_colors_from_colormap. cbv zeta.
  destruct (negb _); [reflexivity|].
  destruct (Colormap.compute_colors _ _); reflexivity.
Qed.

(** The colour slots leave the colormap panel alone, also when they raise. *)
Lemma on_colormap_changed_panel (g : MeshGui) :
  colormap_panel (state_of (_on_colormap_changed g)) = colormap_panel g.
Proof.
  unfold _on_colormap_changed.
  pose proof (update_colors_panel g) as Hp.
  destruct (_update_colors_from_colormap g) as [x|x]; cbn [and_then state_of] in *.
  - by rewrite schedule_panel.
  - done.
Qed.

Lemma on_range_changed_panel (g : MeshGui) :
  let p := colormap_panel g in
  colormap_panel (state_of (_on_range_changed g))
  = Colormap.set_colormap_vmax (Some (Colormap.vmax_spin p))
      (Colormap.set_colormap_vmin (Some (Colormap.vmin_spin p)) p).
Proof.
  cbv zeta. unfold _on_range_changed. cbv zeta.
  destruct (Colormap.use_colormap (colormap_panel g)); [|reflexivity].
  unfold _emit_colormap_changed. by rewrite on_colormap_changed_panel.
Qed.

Lemma vmin_spin_setValue_spec (x : Qc) (g g' : MeshGui) :
  vmin_spin_setValue x g = Some g' →
  range_synced g →
  let p := colormap_panel g in
  let p' := colormap_panel g' in
  Colormap.vmin_spin p' = Colormap.spin_value x ∧
  Colormap.vmax_spin p' = Colormap.vmax_spin p ∧
  Colormap.label_values p' = Colormap.label_values p ∧
  Colormap.use_colormap p' = Colormap.use_colormap p ∧
  range_synced g'.
Proof.
  intros Hset Hsync. cbv zeta. revert Hset. unfold vmin_spin_setValue. cbv zeta.
  case_bool_decide as Hv; [intros [= <-]; by rewrite Hv|].
  intros ->%slot_state. unfold range_synced, colormap_range.
  rewrite on_range_changed_panel. done.
Qed.

Lemma vmax_spin_setValue_spec (x : Qc) (g g' : MeshGui) :
  vmax_spin_setValue x g = Some g' →
  range_synced g →
  let p := colormap_panel g in
  let p' := colormap_panel g' in
  Colormap.vmax_spin p' = Colormap.spin_value x ∧
  Colormap.vmin_spin p' = Colormap.vmin_spin p ∧
  Colormap.label_values p' = Colormap.label_values p ∧
  Colormap.use_colormap p' = Colormap.use_colormap p ∧
  range_synced g'.
Proof.
  intros Hset Hsync. cbv zeta. revert Hset. unfold vmax_spin_setValue. cbv zeta.
  case_bool_decide as Hv; [intros [= <-]; by rewrite Hv|].
  intros ->%slot_state. unfold range_synced, colormap_range.
  rewrite on_range_changed_panel. done.
Qed.

(** The slot of the spin boxes ends the process exactly when colormap mode
    is on, the boxes show an inverted range and a colour is to be
    computed. *)
Lemma range_changed_stops (Hnorm : normalize_raises) (g : MeshGui) :
  slot (_on_range_changed g) = None ↔
  Colormap.use_colormap (colormap_panel g) = true ∧
  Colormap.vmax_spin (colormap_panel g) < Colormap.vmin_spin (colormap_panel g) ∧
  some_label_valued g.
Proof.
  unfold _on_range_changed. cbv zeta.
  destruct (Colormap.use_colormap (colormap_panel g)) eqn:Hcm.
  - unfold _emit_colormap_changed, _on_colormap_changed.
    rewrite update_colors_colormap by done.
    cbn [colormap_panel label_list with_panel].
    set (p2 := Colormap.set_colormap_vmax _ _).
    pose proof (compute_colors_raises Hnorm p2
                  (dict_keys (LabelList.label_colors (label_list g)))) as Hr.
    destruct (Colormap.compute_colors p2 _) as [cols|]; cbn [and_then slot].
    + split; [done|]. intros (_ & Hinv & Hk).
      assert (Hnone : @None (list (Qc * string)) = None) by done.
      enough (Some cols = None) by done. apply Hr. by split.
    + split; [|done]. intros _. destruct (proj1 Hr eq_refl) as [Hinv Hk].
      by split.
  - cbn [slot]. split; [done|]. by intros [? _].
Qed.

Lemma vmin_spin_setValue_stops (Hnorm : normalize_raises) (x : Qc) (g : MeshGui) :
  vmin_spin_setValue x g = None ↔ lower_bound_stops g (Colormap.spin_value x).
Proof.
  unfold vmin_spin_setValue, lower_bound_stops. cbv zeta.
  case_bool_decide as Hv.
  - split; [done|]. by intros (_ & ? & _).
  - rewrite (range_changed_stops Hnorm).
    cbn [colormap_panel with_panel Colormap.use_colormap Colormap.vmin_spin
         Colormap.vmax_spin Colormap.set_vmin_spin].
    unfold some_label_valued. cbn [label_list with_panel colormap_panel].
    split; [intros (? & ? & ?) | intros (? & _ & ? & ?)]; done.
Qed.

Lemma vmax_spin_setValue_stops (Hnorm : normalize_raises) (x : Qc) (g : MeshGui) :
  vmax_spin_setValue x g = None ↔ upper_bound_stops g (Colormap.spin_value x).
Proof.
  unfold vmax_spin_setValue, upper_bound_stops. cbv zeta.
  case_bool_decide as Hv.
  - split; [done|]. by intros (_ & ? & _).
  - rewrite (range_changed_stops Hnorm).
    cbn [colormap_panel with_panel Colormap.use_colormap Colormap.vmin_spin
         Colormap.vmax_spin Colormap.set_vmax_spin].
    unfold some_label_valued. cbn [label_list with_panel colormap_panel].
    split; [intros (? & ? & ?) | intros (? & _ & ? & ?)]; done.
Qed.
End AutoRange.

(** *** The spin boxes: rounding to three decimals, bounding to ±1e6 *)
Section SpinBox.
Context `{QtLib}.

(** What the rounding of a spin box with three decimals guarantees: a
    multiple of 0.001 within 0.0005 of the value. *)
Definition rounds_to_thousandths : Prop :=
  ∀ x, (∃ n : Z, spin_round x = Qc_of_Z n / Qc_of_Z 1000) ∧
       x - dec 1 2000 ≤ spin_round x ∧ spin_round x ≤ x + dec 1 2000.

Lemma thousandth_this (n : Z) :
  (this (Qc_of_Z n / Qc_of_Z 1000) == inject_Z n * (1 # 1000))%Q.
Proof.
  unfold Qcdiv, Qcmult, Qcinv. simpl. rewrite !Qred_correct.
  change (/ inject_Z 1000)%Q with (1 # 1000)%Q. reflexivity.
Qed.

Lemma Qc_close_this (x y : Qc) :
  x - dec 1 2000 ≤ y → y ≤ x + dec 1 2000 →
  (this x - (1 # 2000) <= this y ∧ this y <= this x + (1 # 2000))%Q.
Proof.
  unfold Qcle, Qcminus, Qcplus, Qcopp. simpl. rewrite !Qred_correct.
  change (Qred (1 # 2000)) with (1 # 2000)%Q. intros Hlo Hhi. split; lra.
Qed.

(** A value with at most three decimals is stored as it is. *)
Lemma spin_round_exact (Hround : rounds_to_thousandths) (n : Z) :
  spin_round (Qc_of_Z n / Qc_of_Z 1000) = Qc_of_Z n / Qc_of_Z 1000.
Proof.
  destruct (Hround (Qc_of_Z n / Qc_of_Z 1000)) as [[m Hm] [Hlo Hhi]].
  rewrite Hm in *. destruct (Qc_close_this _ _ Hlo Hhi) as [Hlo' Hhi'].
  rewrite !thousandth_this in Hlo', Hhi'.
  assert (Hmn : (m <= n)%Z).
  { apply Z.lt_succ_r. rewrite Zlt_Qlt. unfold Z.succ.
    rewrite inject_Z_plus. change (inject_Z 1) with 1%Q. lra. }
  assert (Hnm : (n <= m)%Z).
  { apply Z.lt_succ_r. rewrite Zlt_Qlt. unfold Z.succ.
    rewrite inject_Z_plus. change (inject_Z 1) with 1%Q. lra. }
  by replace m with n by lia.
Qed.

(** Rounding keeps the order. *)
Lemma spin_round_mono (Hround : rounds_to_thousandths) (x y : Qc) :
  x ≤ y → spin_round x ≤ spin_round y.
Proof.
  intros Hxy. destruct (Qcle_lt_or_eq _ _ Hxy) as [Hlt| ->]; [|apply Qcle_refl].
  destruct (Hround x) as [[n Hn] [Hxlo Hxhi]].
  destruct (Hround y) as [[m Hm] [Hylo Hyhi]].
  rewrite Hn, Hm in *.
  destruct (Qc_close_this _ _ Hxlo Hxhi) as [_ Hx].
  destruct (Qc_close_this _ _ Hylo Hyhi) as [Hy _].
  rewrite !thousandth_this in Hx, Hy. unfold Qclt in Hlt.
  assert (Hnm : (n <= m)%Z).
  { apply Z.lt_succ_r. rewrite Zlt_Qlt. unfold Z.succ.
    rewrite inject_Z_plus. change (inject_Z 1) with 1%Q. lra. }
  unfold Qcle. rewrite !thousandth_this. rewrite Zle_Qle in Hnm. lra.
Qed.

Lemma spin_bound_inside (x : Qc) :
  Colormap.spin_minimum ≤ x → x ≤ Colormap.spin_maximum →
  Colormap.spin_bound x = x.
Proof.
  intros Hlo Hhi. unfold Colormap.spin_bound.
  rewrite bool_decide_eq_false_2 by (by apply Qcle_not_lt).
  by rewrite bool_decide_eq_false_2 by (by apply Qcle_not_lt).
Qed.

Lemma spin_bound_range (x : Qc) :
  Colormap.spin_minimum ≤ Colormap.spin_bound x ∧
  Colormap.spin_bound x ≤ Colormap.spin_maximum.
Proof.
  unfold Colormap.spin_bound. repeat case_bool_decide.
  - split; [apply Qcle_refl | by_eval].
  - split; [by_eval | apply Qcle_refl].
  - split; by apply Qcnot_lt_le.
Qed.

Lemma spin_bound_mono (x y : Qc) :
  x ≤ y → Colormap.spin_bound x ≤ Colormap.spin_bound y.
Proof.
  intros Hxy.
  assert (Hrange : Colormap.spin_minimum ≤ Colormap.spin_maximum) by (by_eval).
  unfold Colormap.spin_bound.
  generalize dependent Colormap.spin_maximum.
  generalize dependent Colormap.spin_minimum. intros lo hi Hrange.
  repeat case_bool_decide; unfold Qclt, Qcle in *; lra.
Qed.

Lemma spin_value_mono (Hround : rounds_to_thousandths) (x y : Qc) :
  x ≤ y → Colormap.spin_value x ≤ Colormap.spin_value y.
Proof. intros Hxy. by apply spin_bound_mono, spin_round_mono. Qed.

(** Inside the range and on the 0.001 grid, [setValue] stores its argument. *)
Lemma spin_value_exact (Hround : rounds_to_thousandths) (x : Qc) (n : Z) :
  x = Qc_of_Z n / Qc_of_Z 1000 →
  Colormap.spin_minimum ≤ x → x ≤ Colormap.spin_maximum →
  Colormap.spin_value x = x.
Proof.
  intros -> Hlo Hhi. unfold Colormap.spin_value.
  rewrite spin_round_exact by done. by apply spin_bound_inside.
Qed.
End SpinBox.

(** The rounded value is within half a unit of the value. *)
Lemma round_nearest_bounds (y : Qc) :
  (y - (1 # 2) <= inject_Z (round_nearest y)
   ∧ inject_Z (round_nearest y) <= y + (1 # 2))%Q.
Proof.
  unfold round_nearest.
  change (this (dec 1 2)) with (1 # 2)%Q.
  case_bool_decide as Hy.
  - pose proof (Qfloor_le (- y + (1 # 2))) as Hle.
    pose proof (Qlt_floor (- y + (1 # 2))) as Hlt.
    rewrite inject_Z_plus in Hlt. change (inject_Z 1) with 1%Q in Hlt.
    rewrite inject_Z_opp. split; lra.
  - pose proof (Qfloor_le (y + (1 # 2))) as Hle.
    pose proof (Qlt_floor (y + (1 # 2))) as Hlt.
    rewrite inject_Z_plus in Hlt. change (inject_Z 1) with 1%Q in Hlt.
    split; lra.
Qed.

(** The stand-in rounding is one the spin boxes could have. *)
Lemma thousandths_rounds : rounds_to_thousandths (H := thousandths_lib).
Proof.
  intros x. cbn [spin_round thousandths_lib]. split; [by eexists|].
  unfold thousandths.
  destruct (round_nearest_bounds (x * Qc_of_Z 1000)) as [Hlo Hhi].
  simpl in Hlo, Hhi. rewrite Qred_correct in Hlo, Hhi.
  change (inject_Z 1000) with (1000 # 1)%Q in Hlo, Hhi.
  unfold Qcle, Qcdiv, Qcinv, Qcminus, Qcopp. simpl. rewrite !Qred_correct.
  change (/ inject_Z 1000)%Q with (1 # 1000)%Q.
  change (Qred (1 # 2000)) with (1 # 2000)%Q.
  split; lra.
Qed.

Lemma bounds_ordered (lo hi : Qc) :
  lo ≤ hi → lo - margin_of lo hi ≤ hi + margin_of lo hi.
Proof.
  intros Hle. unfold margin_of. case_bool_decide as Hlt; clear Hlt.
  - revert Hle. unfold Qcle, Qcminus, Qcplus, Qcmult, Qcopp, dec, Q2Qc, this.
    rewrite !Qred_correct. lra.
  - revert Hle. unfold Qcle, Qcminus, Qcplus, Qcopp, dec, Q2Qc, this.
    rewrite !Qred_correct. lra.
Qed.

Section AutoRangeClaim.
Import MainWindow.
Context `{ColorLib} `{QtLib}.

(** A fresh window whose value table is [m]. *)
Definition session_with_table (m : gmap Qc Qc) : MeshGui :=
  with_panel (Colormap.set_label_values m Colormap.init) init.

Definition two_values : gmap Qc Qc :=
  {[ dec 1 1 := dec 2 10; dec 2 1 := dec 8 10 ]}.

Lemma two_values_min : table_min two_values (dec 2 10).
Proof. apply table_min_of_list, py_min_spec. by_eval. Qed.

Lemma two_values_max : table_max two_values (dec 8 10).
Proof. apply table_max_of_list, py_max_spec. by_eval. Qed.

(** What [auto_range] does with a table whose least and greatest values
    are [lo] and [hi]: it ends the process in the slot of the lower box, or
    returns with both boxes and the range at the stored bounds. *)
Lemma auto_range_outcome (Hnorm : normalize_raises)
    (Hround : rounds_to_thousandths) (g : MeshGui) (lo hi : Qc) :
  table_min (Colormap.label_values (colormap_panel g)) lo →
  table_max (Colormap.label_values (colormap_panel g)) hi →
  range_synced g →
  let a := lo - margin_of lo hi in
  let b := hi + margin_of lo hi in
  let va := Colormap.spin_value a in
  let vb := Colormap.spin_value b in
  a ≤ b ∧ va ≤ vb ∧
  (lower_bound_stops g va → auto_range g = None) ∧
  (¬ lower_bound_stops g va →
   ∃ g', auto_range g = Some g' ∧
         colormap_range g' = (va, vb) ∧
         Colormap.vmin_spin (colormap_panel g') = va ∧
         Colormap.vmax_spin (colormap_panel g') = vb).
Proof.
  intros Hlo Hhi Hsync a b va vb.
  assert (Hab : a ≤ b).
  { destruct Hlo as [[k Hk] _]. destruct Hhi as [_ Hub].
    apply bounds_ordered. by eapply Hub. }
  assert (Hv : va ≤ vb) by (by apply spin_value_mono).
  split; [done|]. split; [done|].
  unfold auto_range. rewrite (auto_bounds_spec _ lo hi Hlo Hhi).
  fold a b. cbn [mbind option_bind].
  destruct (vmin_spin_setValue a g) as [g1|] eqn:E1; cbn [mbind option_bind].
  - destruct (vmin_spin_setValue_spec a g g1 E1 Hsync)
      as (Hmin1 & Hmax1 & _ & _ & Hsync1).
    destruct (vmax_spin_setValue b g1) as [g2|] eqn:E2.
    + destruct (vmax_spin_setValue_spec b g1 g2 E2 Hsync1)
        as (Hmax2 & Hmin2 & _ & _ & Hsync2).
      split.
      * intros Hstop%(vmin_spin_setValue_stops Hnorm). congruence.
      * intros _. exists g2. split; [done|].
        rewrite Hsync2, Hmax2, Hmin2, Hmin1. done.
    + apply (vmax_spin_setValue_stops Hnorm) in E2 as (_ & _ & Hlt & _).
      rewrite Hmin1 in Hlt. fold va vb in Hlt.
      by apply Qcle_not_lt in Hv.
  - split; [done|]. intros Hno. destruct Hno.
    by apply (vmin_spin_setValue_stops Hnorm).
Qed.

End AutoRangeClaim.

Section AutoRangeWitness.
Import MeshViz MainWindow.
#[local] Existing Instance point_lib.
#[local] Existing Instance gray_lib.
#[local] Existing Instance decimal_float.
#[local] Existing Instance thousandths_lib.

Definition one_big_value : gmap Qc Qc := {[ dec 1 1 := dec 2000000 1 ]}.



(** Rounding alone also moves the range: {1: 0.12342} gives [0.023, 0.223]. *)
Example auto_range_rounds :
  colormap_range <$>
    auto_range (session_with_table {[ dec 1 1 := dec 12342 100000 ]})
  = Some (dec 23 1000, dec 223 1000).
Proof. by_eval. Qed.

(** At a decimal tie the theorem leaves the stored bound open between the
    two neighbours: for {7: 0.25, 9: 0.5} the bounds asked for are 0.2375
    and 0.5125. *)
Example auto_range_at_a_tie :
  Colormap.auto_bounds
    (colormap_panel
       (session_with_table {[ dec 7 1 := dec 25 100; dec 9 1 := dec 5 10 ]}))
  = Some (dec 2375 10000, dec 5125 10000) ∧
  colormap_range <$>
    auto_range (session_with_table {[ dec 7 1 := dec 25 100; dec 9 1 := dec 5 10 ]})
  = Some (dec 237 1000, dec 512 1000).
Proof. all_by_eval. Qed.

(** And it can end the program: the grid with the table {1: 0.2} in
    colormap mode, the range edited to [-10, -5], then "Auto". The new
    lower bound 0.1 meets the old upper bound -5. *)
Example auto_range_ends_the_program :
  let before :=
    [ ev_load_volume "grid.nii" (nii_ok grid4 (1, 1, 1) (0, 0, 0));
      ev_load_values (csv_file [["1"; "0.2"]] false);
      ev_colormap_toggle true;
      ev_vmin_edit (dec (-10) 1);
      ev_vmax_edit (dec (-5) 1) ] in
  (colormap_range <$> session before) = Some (dec (-10) 1, dec (-5) 1) ∧
  session (before ++ [ev_auto_range]) = None.
Proof. cbv zeta. all_by_eval. Qed.
End AutoRangeWitness.

Section ColormapMode.
Import MeshViz MainWindow.
Context `{GeometryLib} `{ColorLib}.

(** The actor of the [idx]-th extracted mesh carries that mesh and the
    colour [label_colors] has for its label (the palette colour of [idx]
    when the label has no entry). *)
Lemma render_meshes_actor (lm : list (Qc * PolyData)) (cols : list (Qc * string))
    (is_2d show : bool) (view : string) (pl : Renderer.Plotter)
    (idx : nat) (lbl : Qc) (m : PolyData) :
  lm !! idx = Some (lbl, m) →
  ∃ a, Renderer.actors (Renderer.render_meshes lm cols is_2d show view pl) !! idx
       = Some a ∧
       Renderer.mesh a = m ∧
       Renderer.color a
       = default (Renderer._default_color idx) (dict_get cols lbl).
Proof.
  intros Hidx. unfold Renderer.render_meshes, Renderer._apply_view.
  cbn [Renderer.actors]. rewrite render_loop_actors.
  change (Renderer.actors (Renderer._clear_and_setup_lights _))
    with (@nil Renderer.Actor).
  rewrite app_nil_l, list_lookup_fmap, list_lookup_imap, Hidx.
  eexists. split; [reflexivity|]. by destruct is_2d.
Qed.

(** [d.update(other)] when [other] holds the colormap colours. *)
Lemma dict_get_update_colors (p : Colormap.ColormapPanel)
    (other d : list (Qc * string)) (k : Qc) :
  (∀ e, e ∈ other → color_of p e.1 = Some e.2) →
  dict_get (dict_update d other) k
  = if bool_decide (k ∈ dict_keys other) then color_of p k else dict_get d k.
Proof.
  intros Hf.
  rewrite (dict_get_update (fun k => default ""%string (color_of p k)));
    [|by intros e ->%Hf].
  case_bool_decide as Hk; [|done].
  apply list_elem_of_fmap in Hk as [e [-> He]]. by rewrite (Hf e He).
Qed.

End ColormapMode.

Section ColormapModeWitness.
Import MeshViz MainWindow.
#[local] Existing Instance point_lib.
#[local] Existing Instance gray_lib.
#[local] Existing Instance decimal_float.
#[local] Existing Instance thousandths_lib.

(** Loading the grid, then the table {1: 0.2}, then ticking "Use
    colormap". *)
Definition colormap_history : list gui_event :=
  [ ev_load_volume "grid.nii" (nii_ok grid4 (1, 1, 1) (0, 0, 0));
    ev_load_values (csv_file [["1"; "0.2"]] false);
    ev_colormap_toggle true ].

(** The window that history leads to. *)
Definition colormap_session : MeshGui := default init (session colormap_history).

Example colormap_session_reached :
  session colormap_history = Some colormap_session.
Proof. by_eval. Qed.



(** With the colormap off the range can be inverted at leisure; ticking
    "Use colormap" then ends the program. *)
Example inverted_range_ends_the_program :
  let before :=
    [ ev_load_volume "grid.nii" (nii_ok grid4 (1, 1, 1) (0, 0, 0));
      ev_load_values (csv_file [["1"; "0.2"]] false);
      ev_vmin_edit (dec 5 1) ] in
  (colormap_range <$> session before) = Some (dec 5 1, dec 3 10) ∧
  session (before ++ [ev_colormap_toggle true]) = None.
Proof. cbv zeta. all_by_eval. Qed.
End ColormapModeWitness.

(** ** Loading a value table ([ColormapPanel._load_values]) *)
Section ValueTable.
Context `{PyFloat}.

(** A row after the first is data when it has two cells or more and both
    detected columns parse. *)
Definition data_entry (label_col value_col : nat) (row : list string)
    : option (Qc * Qc) :=
  if bool_decide (length row < 2)%nat then None
  else Colormap.row_entry label_col value_col row.

(** The (label, value) pairs a file contributes, in file order: the first
    row when its detected columns parse, then the data rows. *)
Definition file_entries (rows : list (list string)) : list (Qc * Qc) :=
  match rows with
  | [] => []
  | header :: rest =>
      let '(lc, vc) := Colormap.detect_columns header in
      option_list (Colormap.row_entry lc vc header) ++ omap (data_entry lc vc) rest
  end.

Definition store_entries (es : list (Qc * Qc)) (d : gmap Qc Qc) : gmap Qc Qc :=
  foldl (fun d e => <[e.1 := e.2]> d) d es.

Lemma store_rows_entries (lc vc : nat) (rest : list (list string)) (d : gmap Qc Qc) :
  foldl (fun d row => if bool_decide (length row < 2)%nat then d
                      else Colormap.store_row lc vc row d) d rest
  = store_entries (omap (data_entry lc vc) rest) d.
Proof.
  revert d. induction rest as [|row rest IH]; intros d; [done|].
  cbn [foldl omap list_omap]. rewrite IH. unfold data_entry, Colormap.store_row.
  case_bool_decide; [done|].
  by destruct (Colormap.row_entry lc vc row) as [[l v]|].
Qed.

Lemma read_rows_entries (rows : list (list string)) (d : gmap Qc Qc) :
  Colormap.read_rows rows d = store_entries (file_entries rows) d.
Proof.
  destruct rows as [|header rest]; [done|].
  unfold Colormap.read_rows, file_entries. destruct header as [|h hs].
  - change (Colormap.detect_columns []) with (0%nat, 1%nat).
    by rewrite store_rows_entries.
  - destruct (Colormap.detect_columns (h :: hs)) as [lc vc].
    rewrite store_rows_entries. unfold store_entries at 2.
    rewrite foldl_app. unfold Colormap.store_row.
    by destruct (Colormap.row_entry lc vc (h :: hs)) as [[l v]|].
Qed.

(** Storing pairs one after the other: a key ends with the value of the
    last pair that carries it. *)
Lemma store_entries_lookup (es : list (Qc * Qc)) (d : gmap Qc Qc) (k : Qc) :
  store_entries es d !! k
  = match last (filter (fun e => e.1 = k) es) with
    | Some e => Some e.2
    | None => d !! k
    end.
Proof.
  unfold store_entries. induction es as [|e es IH] using rev_ind; [done|].
  rewrite foldl_app, filter_app. cbn [foldl].
  destruct (decide (e.1 = k)) as [Hk|Hk].
  - rewrite filter_cons_True by done. rewrite filter_nil, last_snoc.
    by rewrite Hk, lookup_insert_eq.
  - rewrite filter_cons_False by done. rewrite filter_nil, app_nil_r.
    by rewrite lookup_insert_ne.
Qed.

Lemma filter_none {A} (P : A → Prop) `{∀ x, Decision (P x)} (l : list A) :
  (∀ x, x ∈ l → ¬ P x) → filter P l = [].
Proof.
  induction l as [|x l IH]; intros Hl; [done|].
  rewrite filter_cons_False by (apply Hl; left).
  apply IH. intros y Hy. apply Hl. by right.
Qed.

(** C10: the first row of the file is stored as a (label, value) entry
    whenever both detected columns parse as floats, whether or not it also
    served as a header; and each label ends with the value of the last row
    that carries it, so the first row's value stays when no later data row
    has its label. *)
Theorem first_row_is_data (header : list string) (rest : list (list string)) :
  let lc := (Colormap.detect_columns header).1 in
  let vc := (Colormap.detect_columns header).2 in
  let d := Colormap.read_rows (header :: rest) ∅ in
  (∀ l v, Colormap.row_entry lc vc header = Some (l, v) →
     Colormap.read_rows [header] ∅ = {[ l := v ]} ∧
     is_Some (d !! l) ∧
     ((∀ e, e ∈ omap (data_entry lc vc) rest → e.1 ≠ l) → d !! l = Some v)) ∧
  (∀ k, d !! k
        = snd <$> last (filter (fun e => e.1 = k) (file_entries (header :: rest)))).
Proof.
  cbv zeta.
  assert (Hlookup : ∀ k, Colormap.read_rows (header :: rest) ∅ !! k
            = snd <$> last (filter (fun e => e.1 = k) (file_entries (header :: rest)))).
  { intros k. rewrite read_rows_entries, store_entries_lookup.
    by destruct (last _). }
  split; [|done]. intros l v Hrow.
  assert (Hentries : file_entries (header :: rest)
            = (l, v) :: omap (data_entry (Colormap.detect_columns header).1
                                (Colormap.detect_columns header).2) rest).
  { unfold file_entries. destruct (Colormap.detect_columns header) as [lc vc].
    simpl in *. by rewrite Hrow. }
  split; [|split].
  - rewrite read_rows_entries. unfold file_entries.
    destruct (Colormap.detect_columns header) as [lc vc]. simpl in *.
    by rewrite Hrow.
  - rewrite Hlookup, Hentries, filter_cons_True by done.
    destruct (filter _ _) as [|e es] eqn:Hf using rev_ind; [by eexists|].
    rewrite app_comm_cons, last_snoc. by eexists.
  - intros Hlater. rewrite Hlookup, Hentries, filter_cons_True by done.
    assert (Hnone : filter (fun e : Qc * Qc => e.1 = l)
              (omap (data_entry (Colormap.detect_columns header).1
                       (Colormap.detect_columns header).2) rest) = []).
    { by apply filter_none. }
    by rewrite Hnone.
Qed.
End ValueTable.

Section ValueTableWitness.
Import MainWindow.
#[local] Existing Instance point_lib.
#[local] Existing Instance gray_lib.
#[local] Existing Instance decimal_float.
#[local] Existing Instance thousandths_lib.

Definition numeric_first_row : list string := ["1"; "0.5"].
Definition later_rows : list (list string) := [["2"; "0.7"]; ["1"; "0.9"]; ["x"; "3"]].

Lemma first_row_is_data_witness :
  Colormap.row_entry (Colormap.detect_columns numeric_first_row).1
    (Colormap.detect_columns numeric_first_row).2 numeric_first_row
  = Some (dec 1 1, dec 1 2) ∧
  Colormap.read_rows [numeric_first_row] ∅ = {[ dec 1 1 := dec 1 2 ]} ∧
  is_Some (Colormap.read_rows (numeric_first_row :: later_rows) ∅ !! dec 1 1).
Proof.
  assert (Hrow : Colormap.row_entry (Colormap.detect_columns numeric_first_row).1
                   (Colormap.detect_columns numeric_first_row).2 numeric_first_row
                 = Some (dec 1 1, dec 1 2)) by (by_eval).
  split; [exact Hrow|].
  destruct (proj1 (first_row_is_data numeric_first_row later_rows) _ _ Hrow)
    as (Hfirst & Hstored & _).
  split; [exact Hfirst | exact Hstored].
Defined.

Example last_row_wins :
  Colormap.read_rows (numeric_first_row :: later_rows) ∅
  = {[ dec 1 1 := dec 9 10; dec 2 1 := dec 7 10 ]}.
Proof. by_eval. Qed.

Definition junk_rows : list (list string) := [["roi"; "value"]; ["a"; "b"]; ["7"]].

(** C9 on the code: with the table {1: 0.2} loaded and in use, loading a
    file without a single valid row empties the table - also as the label
    list sees it, which holds the same dictionary - while the colormap
    switch, the range, the colours and the status stay as they were and no
    render is scheduled. *)
Theorem load_values_zero_rows_clears :
  let g := colormap_session in
  let g' := with_panel (Colormap.set_label_values ∅ (colormap_panel g)) g in
  Colormap.read_rows junk_rows ∅ = ∅ ∧
  Colormap.label_values (colormap_panel g) = {[ dec 1 1 := dec 2 10 ]} ∧
  Colormap.label_values (colormap_panel g') = ∅ ∧
  LabelList.label_values (label_list g') = LabelList.panel_values ∧
  LabelList.deref (Colormap.label_values (colormap_panel g'))
    (LabelList.label_values (label_list g')) = ∅ ∧
  _load_values (csv_file junk_rows false) g = Some g' ∧
  g' ≠ g ∧
  Colormap.use_colormap (colormap_panel g') = true ∧
  _render_timer g' = _render_timer g.
Proof. cbv zeta. all_by_eval. Qed.
End ValueTableWitness.

Section ValueTableLoad.
Import MainWindow.
Context `{MeshViz.GeometryLib} `{ColorLib} `{PyFloat} `{QtLib}.

(** Whatever the session, a file without a valid row only empties the
    table; nothing else is touched and no slot runs. So the load is a no-op
    exactly when no table was loaded before. *)
Lemma load_values_zero_rows (rows : list (list string)) (raises : bool)
    (g : MeshGui) :
  Colormap.read_rows rows ∅ = ∅ →
  _load_values (csv_file rows raises) g
  = Some (with_panel (Colormap.set_label_values ∅ (colormap_panel g)) g).
Proof.
  intros Hrows. unfold _load_values. rewrite Hrows.
  destruct raises; [done|]. by rewrite bool_decide_eq_true_2.
Qed.

Lemma load_values_zero_rows_noop (rows : list (list string)) (raises : bool)
    (g : MeshGui) :
  Colormap.read_rows rows ∅ = ∅ →
  Colormap.label_values (colormap_panel g) = ∅ →
  _load_values (csv_file rows raises) g = Some g.
Proof.
  intros Hrows Hempty. rewrite load_values_zero_rows by done.
  destruct g as [? ? ? ? ? [] ? ? ? ?]. simpl in *. by subst.
Qed.
End ValueTableLoad.

(** * Further properties of the code *)

(** ** Labels of a volume ([_load_volume]) and the label list *)
Section Labels.
Import MeshViz MainWindow.

Lemma volume_labels_facts (v : ndarray) :
  StronglySorted Qcle (volume_labels v) ∧ NoDup (volume_labels v) ∧
  (∀ x, x ∈ volume_labels v ↔ x ∈ voxels v ∧ x ≠ 0) ∧
  (∀ i j x y, volume_labels v !! i = Some x → volume_labels v !! j = Some y →
              (i < j)%nat → x < y).
Proof.
  unfold volume_labels.
  set (l := remove_dups (filter (fun x => x <> 0) (voxels v))).
  assert (Hsorted : StronglySorted Qcle (merge_sort Qcle l))
    by (apply StronglySorted_merge_sort; apply _).
  assert (Hnodup : NoDup (merge_sort Qcle l)).
  { rewrite merge_sort_Permutation. apply NoDup_remove_dups. }
  split; [done|]. split; [done|]. split.
  - intros x. rewrite merge_sort_Permutation. unfold l.
    by rewrite elem_of_remove_dups, list_elem_of_filter, (comm and).
  - intros i j x y Hi Hj Hij.
    assert (Hle : x ≤ y).
    { apply (StronglySorted_app_1_elem_of Qcle (take j (merge_sort Qcle l))
               (drop j (merge_sort Qcle l))).
      - by rewrite take_drop.
      - apply list_elem_of_lookup. exists i. by rewrite lookup_take_lt.
      - apply list_elem_of_lookup. exists 0%nat.
        by rewrite lookup_drop, Nat.add_0_r. }
    apply Qcle_lt_or_eq in Hle as [Hlt|Heq]; [done|]. subst y.
    pose proof (NoDup_lookup _ _ _ _ Hnodup Hi Hj). lia.
Qed.

Lemma dict_set_fresh {V} (d : list (Qc * V)) (k : Qc) (v : V) :
  k ∉ dict_keys d → dict_set k v d = d ++ [(k, v)].
Proof.
  induction d as [|[k0 v0] d IH]; [done|].
  rewrite dict_keys_cons, not_elem_of_cons. intros [Hne Hk].
  cbn [dict_set]. rewrite bool_decide_eq_false_2 by done.
  by rewrite IH.
Qed.

Lemma populate_loop_spec (labels : list Qc) (idx : nat)
    (its : list (Qc * bool)) (cols : list (Qc * string)) :
  NoDup labels → (∀ l, l ∈ labels → l ∉ dict_keys cols) →
  LabelList.populate_loop idx labels its cols
  = (its ++ ((fun l => (l, true)) <$> labels),
     cols ++ imap (fun i l => (l, Constants.palette_color (idx + i))) labels).
Proof.
  revert idx its cols.
  induction labels as [|l labels IH]; intros idx its cols Hnd Hfresh.
  - simpl. by rewrite !app_nil_r.
  - apply NoDup_cons in Hnd as [Hl Hnd]. cbn [LabelList.populate_loop].
    unfold LabelList._get_default_color.
    rewrite dict_set_fresh by (apply Hfresh; left).
    rewrite IH; [|done|].
    + rewrite imap_cons, Nat.add_0_r, <- !app_assoc. simpl.
      do 3 f_equal. apply imap_ext. intros i x _. simpl.
      by rewrite Nat.add_succ_r.
    + intros l' Hl'. unfold dict_keys. rewrite fmap_app, not_elem_of_app.
      split; [apply Hfresh; by right|].
      simpl. rewrite list_elem_of_singleton. by intros ->.
Qed.
Lemma dict_get_imap {V} (f : nat → V) (labels : list Qc) (i : nat) (l : Qc) :
  NoDup labels → labels !! i = Some l →
  dict_get (imap (fun i l => (l, f i)) labels) l = Some (f i).
Proof.
  revert f i. induction labels as [|l0 ls IH]; intros f i Hnd Hi; [done|].
  apply NoDup_cons in Hnd as [Hl0 Hnd]. rewrite imap_cons. cbn [dict_get].
  destruct i as [|i]; simpl in Hi.
  - injection Hi as ->. by rewrite bool_decide_eq_true_2.
  - rewrite bool_decide_eq_false_2.
    + by apply (IH (f ∘ S)).
    + intros ->. apply Hl0. by eapply list_elem_of_lookup_2.
Qed.

Lemma palette_lookup (i : nat) :
  Constants.PALETTE !! (i mod 8)%nat = Some (Constants.palette_color i).
Proof.
  unfold Constants.palette_color.
  change (length Constants.PALETTE) with 8%nat.
  destruct (Constants.PALETTE !! (i mod 8)%nat) as [c|] eqn:Hc; [done|].
  apply lookup_ge_None in Hc. change (length Constants.PALETTE) with 8%nat in Hc.
  pose proof (Nat.mod_upper_bound i 8). lia.
Qed.

Lemma populate_labels_shape (d : gmap Qc Qc) (labels : list Qc)
    (values : option LabelList.values_ref) (p : LabelList.LabelListPanel) :
  NoDup labels →
  let p' := LabelList.populate_labels d labels values p in
  LabelList.items p' = (fun l => (l, true)) <$> labels ∧
  LabelList.get_checked_labels p' = labels ∧
  dict_keys (LabelList.label_colors p') = labels ∧
  (∀ i l, labels !! i = Some l →
     dict_get (LabelList.label_colors p') l
     = Constants.PALETTE !! (i mod 8)%nat).
Proof.
  intros Hnd. cbv zeta.
  pose proof (populate_labels_checked d labels values p) as Hchecked.
  cbv zeta in Hchecked. rewrite Hchecked. clear Hchecked.
  unfold LabelList.populate_labels.
  rewrite populate_loop_spec by (done || intros ? _; apply not_elem_of_nil).
  cbn [LabelList.items LabelList.label_colors app].
  split; [done|]. split; [|split].
  - rewrite <- list_fmap_compose. apply list_fmap_id.
  - unfold dict_keys. rewrite fmap_imap.
    rewrite (imap_ext _ (const id)) by done.
    by rewrite imap_const, list_fmap_id.
  - intros i l Hi.
    rewrite (dict_get_imap (fun i => Constants.palette_color (0 + i))) with (i := i)
      by done.
    by rewrite palette_lookup.
Qed.

(** The labels offered after a load are exactly the non-zero voxel values,
    each once, in increasing order. *)
Theorem volume_labels_sorted_distinct (v : ndarray) :
  StronglySorted Qcle (volume_labels v) ∧ NoDup (volume_labels v) ∧
  (∀ x, x ∈ volume_labels v ↔ x ∈ voxels v ∧ x ≠ 0) ∧
  (∀ i j x y, volume_labels v !! i = Some x → volume_labels v !! j = Some y →
              (i < j)%nat → x < y).
Proof. exact (volume_labels_facts v). Qed.

(** [populate_labels] on distinct labels: one checked row per label in the
    given order, and the label at position i is coloured PALETTE[i mod 8];
    whatever rows and colours the list held before are gone. *)
Theorem populate_labels_palette (d : gmap Qc Qc) (labels : list Qc)
    (values : option LabelList.values_ref) (p : LabelList.LabelListPanel) :
  NoDup labels →
  let p' := LabelList.populate_labels d labels values p in
  LabelList.items p' = (fun l => (l, true)) <$> labels ∧
  LabelList.get_checked_labels p' = labels ∧
  dict_keys (LabelList.label_colors p') = labels ∧
  (∀ i l, labels !! i = Some l →
     dict_get (LabelList.label_colors p') l
     = Constants.PALETTE !! (i mod 8)%nat).
Proof. exact (populate_labels_shape d labels values p). Qed.
End Labels.

Lemma populate_labels_palette_witness :
  NoDup three_labels ∧
  LabelList.get_checked_labels
    (LabelList.populate_labels ∅ three_labels None LabelList.init)
  = three_labels.
Proof.
  assert (Hnd : NoDup three_labels) by (by_eval).
  split; [exact Hnd|].
  exact (proj1 (proj2 (populate_labels_palette ∅ three_labels None
                         LabelList.init Hnd))).
Defined.

(** ** Extraction, label by label *)
Section ExtractionCompose.
Import MeshViz.
Context `{GeometryLib}.

(** Each label is extracted on its own: extracting a concatenation of label
    lists gives the concatenation of the results, so neither the other
    labels requested nor their order change the mesh a label gets, and the
    result never has more pairs than labels were asked for. *)
Theorem extract_label_meshes_app (V : ndarray) (L1 L2 : list Qc)
    (sp og : vec3) (sigma : Qc) (it : Z) (relax th : Qc) :
  extract_label_meshes V (L1 ++ L2) sp og sigma it relax th
  = extract_label_meshes V L1 sp og sigma it relax th
    ++ extract_label_meshes V L2 sp og sigma it relax th ∧
  (length (extract_label_meshes V L1 sp og sigma it relax th) <= length L1)%nat ∧
  (∀ lbl, extract_label_meshes V [lbl] sp og sigma it relax th
          = match extract_isosurface (label_mask V lbl) sp og th sigma it relax with
            | Some m => [(lbl, m)]
            | None => []
            end).
Proof.
  rewrite !extract_label_meshes_omap. split; [apply omap_app|]. split.
  - induction L1 as [|l L1 IH]; [done|]. cbn [omap list_omap length].
    destruct (pair l <$> label_mesh V sp og sigma it relax th l);
      cbn [length]; lia.
  - intros lbl. rewrite extract_label_meshes_omap. simpl.
    unfold label_mesh. by destruct (extract_isosurface _ _ _ _ _ _ _).
Qed.

(** With no blur and no smoothing requested (sigma <= 0, smooth_iter <= 0)
    neither library filter runs: the mesh of a label is the bare contour of
    its mask. *)
Theorem extract_isosurface_bare (V : ndarray) (sp og : vec3) (th sigma : Qc)
    (it : Z) (relax : Qc) :
  sigma ≤ 0 → (it <= 0)%Z →
  extract_isosurface V sp og th sigma it relax
  = if bool_decide (n_points (contour V sp og th) = 0%nat) then None
    else Some (contour V sp og th).
Proof.
  intros Hs Hit. unfold extract_isosurface. cbv zeta.
  rewrite (bool_decide_eq_false_2 (0 < sigma)) by (by apply Qcle_not_lt).
  case_bool_decide; [done|]. by rewrite bool_decide_eq_false_2 by lia.
Qed.
End ExtractionCompose.

Lemma extract_isosurface_bare_witness :
  (- 1 ≤ 0) ∧ (0 <= 0)%Z ∧
  MeshViz.extract_isosurface (H := point_lib) grid4 (1, 1, 1) (0, 0, 0)
    (dec 1 2) (- 1) 0 (dec 1 10)
  = Some (MeshViz.contour (GeometryLib := point_lib) grid4 (1, 1, 1) (0, 0, 0) (dec 1 2)).
Proof.
  assert (Hs : - 1 ≤ 0) by (by_eval).
  assert (Hit : (0 <= 0)%Z) by lia.
  split; [exact Hs|]. split; [exact Hit|].
  exact (extract_isosurface_bare (H := point_lib) grid4 (1, 1, 1) (0, 0, 0)
           (dec 1 2) (- 1) 0 (dec 1 10) Hs Hit).
Defined.

(** ** The camera ([_set_view]) *)
Section Camera.
Import MeshViz.

Lemma span_at_least_one (b : bounds) : 1 ≤ span b.
Proof.
  destruct (span_is_max b) as [_ Hub]. apply Hub. unfold extents.
  do 3 right; left.
Qed.

Lemma dist_at_least (b : bounds) : dec 18 10 ≤ dist b.
Proof.
  unfold dist. rewrite <- (Qcmult_1_l (dec 18 10)) at 1.
  apply Qcmult_le_compat_r; [apply span_at_least_one | by_eval].
Qed.

Lemma shifted_differs (x d : Qc) : dec 18 10 ≤ d → x - d ≠ x ∧ x + d ≠ x.
Proof.
  intros Hd.
  assert (Hnz : d ≠ 0).
  { intros ->. revert Hd. by_eval. }
  split; intros Heq; apply Hnz.
  - replace d with (x - (x - d)) by ring. rewrite Heq. ring.
  - replace d with ((x + d) - x) by ring. rewrite Heq. ring.
Qed.

(** Whenever [_set_view] positions the camera itself, the view is one of
    the four directional presets, the camera looks at the middle of the
    bounds from at least 1.8 units away, and so never sits on its focal
    point - also for empty or flat bounds. *)
Theorem camera_off_focal_point (b : bounds) (view : string)
    (pos focal up : vec3) :
  _set_view b view = camera_position pos focal up →
  view ∈ presets ∧ focal = (x_mid b, y_mid b, z_mid b) ∧
  dec 18 10 ≤ dist b ∧ pos ≠ focal.
Proof.
  pose proof (dist_at_least b) as Hd.
  destruct (shifted_differs (x_mid b) (dist b) Hd) as [Hx1 Hx2].
  destruct (shifted_differs (y_mid b) (dist b) Hd) as [Hy1 _].
  destruct (shifted_differs (z_mid b) (dist b) Hd) as [_ Hz2].
  unfold _set_view, presets.
  destruct (String.eqb view "iso"); [done|].
  destruct (String.eqb_spec view "left") as [->|_].
  { intros [= <- <- <-]. repeat split; [left|done|congruence]. }
  destruct (String.eqb_spec view "right") as [->|_].
  { intros [= <- <- <-]. repeat split; [right; left|done|congruence]. }
  destruct (String.eqb_spec view "top") as [->|_].
  { intros [= <- <- <-]. repeat split; [do 2 right; left|done|congruence]. }
  destruct (String.eqb_spec view "front") as [->|_]; [|done].
  intros [= <- <- <-]. repeat split; [do 3 right; left|done|congruence].
Qed.

Lemma camera_off_focal_point_witness :
  _set_view unit_box "top"
  = camera_position (dec 2 1, 0, dec 149 20) (dec 2 1, 0, dec 1 4) (0, 1, 0) ∧
  (dec 2 1, 0, dec 149 20) ≠ ((dec 2 1, 0, dec 1 4) : vec3).
Proof.
  assert (Hview : _set_view unit_box "top"
            = camera_position (dec 2 1, 0, dec 149 20) (dec 2 1, 0, dec 1 4) (0, 1, 0))
    by (by_eval).
  split; [exact Hview|].
  exact (proj2 (proj2 (proj2 (camera_off_focal_point unit_box "top" _ _ _ Hview)))).
Defined.
End Camera.

(** ** The scene ([MeshRenderer.render_meshes], [MeshGui._render_scene]) *)
Section Scene.
Import MeshViz MainWindow.
Context `{GeometryLib}.

(** The actor built for the [idx]-th pair. *)
Definition actor_of (cols : list (Qc * string)) (is_2d show : bool)
    (ilm : nat * (Qc * PolyData)) : Renderer.Actor :=
  Renderer._add_mesh ilm.2.2
    (default (Renderer._default_color ilm.1) (dict_get cols ilm.2.1)) is_2d show.

Lemma render_loop_closed (cols : list (Qc * string)) (is_2d show : bool)
    (ilm : list (nat * (Qc * PolyData))) (pl : Renderer.Plotter) :
  foldl (fun pl ilm =>
           let '(idx, (lbl, m)) := ilm in
           let c := default (Renderer._default_color idx) (dict_get cols lbl) in
           Renderer.add_actor (Renderer._add_mesh m c is_2d show) pl) pl ilm
  = {| Renderer.parallel_projection := Renderer.parallel_projection pl;
       Renderer.anti_aliasing := Renderer.anti_aliasing pl;
       Renderer.lights := Renderer.lights pl;
       Renderer.actors := Renderer.actors pl ++ (actor_of cols is_2d show <$> ilm);
       Renderer.cam := Renderer.cam pl;
       Renderer.cam_reset := Renderer.cam_reset pl;
       Renderer.ren_win := Renderer.ren_win pl |}.
Proof.
  revert pl. induction ilm as [|[idx [lbl m]] ilm IH]; intros pl.
  - simpl. rewrite app_nil_r. by destruct pl.
  - cbn [foldl]. rewrite IH. unfold Renderer.add_actor. simpl.
    by rewrite <- app_assoc.
Qed.

Lemma actor_meshes (cols : list (Qc * string)) (is_2d show : bool)
    (lm : list (Qc * PolyData)) :
  Renderer.mesh <$> (actor_of cols is_2d show <$> imap pair lm) = lm.*2.
Proof.
  rewrite <- list_fmap_compose, fmap_imap, <- (imap_const snd lm).
  apply imap_ext. by intros i [lbl m] _; destruct is_2d.
Qed.

(** What a render pass leaves in the plotter. *)
Lemma render_meshes_closed (lm : list (Qc * PolyData)) (cols : list (Qc * string))
    (is_2d show : bool) (view : string) (pl : Renderer.Plotter) :
  Renderer.render_meshes lm cols is_2d show view pl
  = {| Renderer.parallel_projection := is_2d;
       Renderer.anti_aliasing := negb is_2d;
       Renderer.lights := Renderer.three_point_lights;
       Renderer.actors := actor_of cols is_2d show <$> imap pair lm;
       Renderer.cam := _set_view (scene_bounds lm.*2) view;
       Renderer.cam_reset := true;
       Renderer.ren_win := Renderer.ren_win pl |}.
Proof.
  unfold Renderer.render_meshes. cbv zeta. rewrite render_loop_closed.
  unfold Renderer._apply_view.
  cbn [Renderer.parallel_projection Renderer.anti_aliasing Renderer.lights
       Renderer.actors Renderer.cam Renderer.cam_reset Renderer.ren_win
       Renderer._clear_and_setup_lights Renderer._configure_projection app].
  by rewrite actor_meshes.
Qed.

(** Every render pass rebuilds the scene from nothing: one actor per
    extracted mesh in the order given, the three fixed lights, parallel
    projection without anti-aliasing in 2D-flat style and the converse in
    3D, the camera of the requested view for the bounds of the new meshes.
    Nothing of the previous scene survives, so the same inputs give the
    same scene whatever was shown before. *)
Theorem render_meshes_rebuilds (lm : list (Qc * PolyData))
    (cols : list (Qc * string)) (is_2d show : bool) (view : string)
    (pl pl2 : Renderer.Plotter) :
  let pl' := Renderer.render_meshes lm cols is_2d show view pl in
  Renderer.mesh <$> Renderer.actors pl' = lm.*2 ∧
  Renderer.lights pl' = Renderer.three_point_lights ∧
  Renderer.parallel_projection pl' = is_2d ∧
  Renderer.anti_aliasing pl' = negb is_2d ∧
  Renderer.cam pl' = _set_view (scene_bounds lm.*2) view ∧
  (Renderer.ren_win pl2 = Renderer.ren_win pl →
   Renderer.render_meshes lm cols is_2d show view pl2 = pl').
Proof.
  cbv zeta. rewrite !render_meshes_closed.
  cbn [Renderer.parallel_projection Renderer.anti_aliasing Renderer.lights
       Renderer.actors Renderer.cam].
  split; [apply actor_meshes|]. do 4 (split; [done|]). by intros ->.
Qed.

(** The status line after a render pass tells what the scene holds: with a
    volume loaded the scene shows exactly the meshes extracted for the
    checked labels, in their order; the status is "No labels selected" when
    nothing is checked, "No meshes extracted" when no checked label yields
    geometry, and "Rendered n meshes" with n the number of actors
    otherwise. *)
Theorem render_scene_outcome (g : MeshGui) (v : ndarray) (sp og : vec3) :
  volume g = Some v → spacing g = Some sp → origin g = Some og →
  let checked := LabelList.get_checked_labels (label_list g) in
  let lm := extract_label_meshes v checked sp og
              (RenderParams.sigma (render_params g))
              (RenderParams.smooth_iter (render_params g)) (dec 1 10) (dec 1 2) in
  let g' := _render_scene g in
  Renderer.mesh <$> Renderer.actors (plotter g') = lm.*2 ∧
  length (Renderer.actors (plotter g')) = length lm ∧
  status g' = match checked, lm with
              | [], _ => st_no_labels
              | _ :: _, [] => st_no_meshes
              | _ :: _, _ :: _ => st_rendered (length lm)
              end.
Proof.
  intros Hv Hsp Hog. cbv zeta. unfold _render_scene. cbv zeta.
  cbn [volume spacing origin log_pass label_list render_params plotter].
  rewrite Hv, Hsp, Hog.
  destruct (LabelList.get_checked_labels (label_list g)) as [|l ls] eqn:Hc.
  { by cbn. }
  destruct (extract_label_meshes v (l :: ls) sp og _ _ _ _) as [|m ms] eqn:Hlm.
  { by cbn. }
  cbn [plotter _set_status with_plotter status].
  rewrite render_meshes_closed. cbn [Renderer.actors].
  rewrite actor_meshes. by rewrite length_fmap, length_imap.
Qed.
End Scene.

Lemma render_scene_outcome_witness :
  MainWindow.status (MainWindow._render_scene (H := point_lib) loaded_session)
  = MainWindow.st_rendered 2.
Proof.
  pose proof (render_scene_outcome (H := point_lib) loaded_session grid4
                (1, 1, 1) (0, 0, 0) eq_refl eq_refl eq_refl) as (_ & _ & Hst).
  exact Hst.
Defined.

(** ** Time ([_render_timer]) *)
Section Time.
Import MeshViz Constants MainWindow.
Context `{GeometryLib}.

(** Waiting in two stretches is waiting once for their sum: the timer
    fires at the same moment, once, and a render pass never re-arms it. *)
Theorem elapse_add (a b : nat) (g : MeshGui) :
  elapse b (elapse a g) = elapse (a + b) g.
Proof.
  unfold elapse at 2 3. destruct (_render_timer g) as [r|] eqn:Ht.
  - destruct (decide (r <= a)%nat) as [Hra|Hra].
    + rewrite !bool_decide_eq_true_2 by lia.
      apply elapse_stopped.
      by destruct (render_scene_frame (with_timer None g)) as (_ & _ & _ & -> & _).
    + rewrite (bool_decide_eq_false_2 (r <= a)%nat) by done.
      unfold elapse. cbn [_render_timer with_timer].
      destruct (decide (r <= a + b)%nat) as [Hrab|Hrab].
      * rewrite !bool_decide_eq_true_2 by lia. by rewrite with_timer_twice.
      * rewrite !bool_decide_eq_false_2 by lia. rewrite with_timer_twice.
        do 2 f_equal. lia.
  - by rewrite elapse_stopped.
Qed.
End Time.

(** ** What every handler keeps: the session invariants *)
Section Invariants.
Import MeshViz Constants MainWindow.
Context `{GeometryLib} `{ColorLib} `{PyFloat} `{QtLib}.

(** A handler is quiet when it leaves the volume alone, at most (re)starts
    the timer - and only with a volume loaded - and keeps the rows of the
    label list and the keys of its colour table. *)
Definition quiet (g g' : MeshGui) : Prop :=
  volume g' = volume g ∧ spacing g' = spacing g ∧ origin g' = origin g ∧
  (_render_timer g' = _render_timer g ∨
   (_render_timer g' = Some RENDER_DEBOUNCE_MS ∧ is_Some (volume g))) ∧
  (LabelList.items (label_list g')).*1 = (LabelList.items (label_list g)).*1 ∧
  dict_keys (LabelList.label_colors (label_list g'))
  = dict_keys (LabelList.label_colors (label_list g)).

Lemma quiet_refl (g : MeshGui) : quiet g g.
Proof. unfold quiet. auto 10. Qed.

Lemma quiet_status (s : Status) (g x : MeshGui) :
  quiet g x → quiet g (_set_status s x).
Proof. done. Qed.

Lemma quiet_with_panel (p : Colormap.ColormapPanel) (g x : MeshGui) :
  quiet g x → quiet g (with_panel p x).
Proof. done. Qed.

Lemma quiet_with_params (p : RenderParams.RenderParamsPanel) (g x : MeshGui) :
  quiet g x → quiet g (with_params p x).
Proof. done. Qed.

Lemma quiet_with_plotter (pl : Renderer.Plotter) (g x : MeshGui) :
  quiet g x → quiet g (with_plotter pl x).
Proof. done. Qed.

Lemma quiet_schedule (g x : MeshGui) :
  quiet g x → quiet g (_schedule_render x).
Proof.
  intros Hq. unfold _schedule_render.
  destruct (volume x) as [v|] eqn:Hx; [|exact Hq].
  destruct Hq as (Hv & Hs & Ho & Ht & Hi & Hk).
  unfold quiet. cbn [volume spacing origin _render_timer label_list with_timer].
  do 3 (split; [done|]). split; [|done].
  right. split; [done|]. rewrite <- Hv, Hx. eauto.
Qed.

Lemma quiet_with_label_list (l : LabelList.LabelListPanel) (g x : MeshGui) :
  quiet g x →
  (LabelList.items l).*1 = (LabelList.items (label_list x)).*1 →
  dict_keys (LabelList.label_colors l)
  = dict_keys (LabelList.label_colors (label_list x)) →
  quiet g (with_label_list l x).
Proof.
  intros (Hv & Hs & Ho & Ht & Hi & Hk) Hil Hkl. unfold quiet.
  cbn [volume spacing origin _render_timer label_list with_label_list].
  rewrite Hil, Hkl. auto 10.
Qed.

(** Assigning colours to keys the table already has keeps its keys. *)
Lemma dict_keys_foldl_set {A} (f : A → Qc) (c : A → string) (xs : list A)
    (cols : list (Qc * string)) :
  (∀ x, x ∈ xs → f x ∈ dict_keys cols) →
  dict_keys (foldl (fun acc x => dict_set (f x) (c x) acc) cols xs)
  = dict_keys cols.
Proof.
  revert cols. induction xs as [|x xs IH]; intros cols Hxs; [done|].
  cbn [foldl].
  assert (Hkeys : dict_keys (dict_set (f x) (c x) cols) = dict_keys cols).
  { rewrite dict_keys_set, bool_decide_eq_true_2; [done|]. apply Hxs. left. }
  rewrite IH; [done|]. intros y Hy. rewrite Hkeys. apply Hxs. by right.
Qed.

Lemma palette_pass_keys (cols : list (Qc * string)) :
  dict_keys (palette_pass cols) = dict_keys cols.
Proof.
  unfold palette_pass. apply dict_keys_foldl_set.
  intros [i k] Hik. simpl.
  apply list_elem_of_lookup in Hik as [j Hj].
  rewrite list_lookup_imap in Hj.
  destruct (dict_keys cols !! j) as [k'|] eqn:Hk'; [|done].
  injection Hj as <- <-. by eapply list_elem_of_lookup_2.
Qed.

Lemma palette_iter_keys (n : nat) (cols : list (Qc * string)) :
  dict_keys (Nat.iter n palette_pass cols) = dict_keys cols.
Proof.
  induction n as [|n IH]; [done|]. simpl. by rewrite palette_pass_keys.
Qed.

(** What holds of the window when a call is entered and is kept by the
    rest of the method holds of the window the call leaves, whether it
    returns or raises. *)
Lemma keeps_and_then (P : MeshGui → Prop) (o : outcome)
    (rest : MeshGui → outcome) :
  P (state_of o) → (∀ x, P x → P (state_of (rest x))) →
  P (state_of (and_then o rest)).
Proof. destruct o; cbn [and_then state_of]; auto. Qed.

Lemma quiet_update_colors (g x : MeshGui) :
  quiet g x → quiet g (state_of (_update_colors_from_colormap x)).
Proof.
  intros Hq. unfold _update_colors_from_colormap. cbv zeta.
  destruct (negb _).
  - cbn [state_of]. apply quiet_with_label_list; [done|done|].
    cbn [LabelList.with_colors LabelList.label_colors]. apply palette_iter_keys.
  - pose proof (compute_colors_spec (colormap_panel x)
                  (dict_keys (LabelList.label_colors (label_list x)))) as Hspec.
    destruct (Colormap.compute_colors _ _) as [cols|]; cbn [state_of]; [|done].
    destruct Hspec as (_ & Hkeys & _).
    apply quiet_with_label_list; [done|done|].
    cbn [LabelList.set_label_colors LabelList.label_colors].
    apply dict_keys_update. intros k Hk.
    by apply Hkeys in Hk as [? _].
Qed.

Lemma quiet_colormap_changed (g x : MeshGui) :
  quiet g x → quiet g (state_of (_on_colormap_changed x)).
Proof.
  intros Hq. unfold _on_colormap_changed.
  apply (keeps_and_then (quiet g)); [by apply quiet_update_colors|].
  intros y Hy. cbn [state_of]. by apply quiet_schedule.
Qed.

Lemma quiet_range_changed (g x : MeshGui) :
  quiet g x → quiet g (state_of (_on_range_changed x)).
Proof.
  intros Hq. unfold _on_range_changed. cbv zeta.
  destruct (Colormap.use_colormap _); [|by apply quiet_with_panel].
  by apply quiet_colormap_changed, quiet_with_panel.
Qed.

Lemma quiet_vmin (v : Qc) (g x y : MeshGui) :
  quiet g x → vmin_spin_setValue v x = Some y → quiet g y.
Proof.
  intros Hq. unfold vmin_spin_setValue. cbv zeta.
  case_bool_decide; [by intros [= <-]|]. intros ->%slot_state.
  by apply quiet_range_changed, quiet_with_panel.
Qed.

Lemma quiet_vmax (v : Qc) (g x y : MeshGui) :
  quiet g x → vmax_spin_setValue v x = Some y → quiet g y.
Proof.
  intros Hq. unfold vmax_spin_setValue. cbv zeta.
  case_bool_decide; [by intros [= <-]|]. intros ->%slot_state.
  by apply quiet_range_changed, quiet_with_panel.
Qed.

Lemma quiet_auto_range (g x y : MeshGui) :
  quiet g x → auto_range x = Some y → quiet g y.
Proof.
  intros Hq. unfold auto_range.
  destruct (Colormap.auto_bounds _) as [[lo hi]|]; [|by intros [= <-]].
  destruct (vmin_spin_setValue lo x) as [x1|] eqn:E1; [|done].
  cbn [mbind option_bind]. intros E2.
  eapply quiet_vmax; [|exact E2]. by eapply quiet_vmin.
Qed.

Lemma quiet_toggle (b : bool) (g x : MeshGui) :
  quiet g x → quiet g (state_of (_on_colormap_toggle b x)).
Proof.
  intros Hq. unfold _on_colormap_toggle. cbv zeta.
  by apply quiet_colormap_changed, quiet_with_panel.
Qed.

Lemma quiet_values_loaded (g x : MeshGui) :
  quiet g x → quiet g (state_of (_on_values_loaded x)).
Proof.
  intros Hq. unfold _on_values_loaded. cbv zeta.
  apply (keeps_and_then (quiet g)).
  - apply quiet_update_colors. by apply quiet_with_label_list.
  - intros y Hy. cbn [state_of]. by apply quiet_schedule, quiet_status.
Qed.

Lemma quiet_load_values (r : csv_read) (g x y : MeshGui) :
  quiet g x → _load_values r x = Some y → quiet g y.
Proof.
  intros Hq. unfold _load_values.
  destruct r as [|rows raises]; [by intros [= <-]|].
  cbv zeta. destruct raises; [intros [= <-]; by apply quiet_with_panel|].
  case_bool_decide; [intros [= <-]; by apply quiet_with_panel|].
  destruct (auto_range _) as [x1|] eqn:E1; [|done].
  cbn [mbind option_bind]. intros [= <-].
  apply quiet_values_loaded. eapply quiet_auto_range; [|exact E1].
  by apply quiet_with_panel.
Qed.

Lemma checked_in_items (l : LabelList.LabelListPanel) (k : Qc) :
  k ∈ LabelList.get_checked_labels l → k ∈ (LabelList.items l).*1.
Proof.
  unfold LabelList.get_checked_labels. rewrite !list_elem_of_fmap.
  intros [it [-> Hit]]. apply list_elem_of_filter in Hit as [_ Hit]. eauto.
Qed.

(** The colour table has one entry for each row of the label list. *)
Definition colors_cover (g : MeshGui) : Prop :=
  dict_keys (LabelList.label_colors (label_list g))
  = (LabelList.items (label_list g)).*1 ∧
  NoDup (LabelList.items (label_list g)).*1.

Lemma quiet_values_cleared (g x : MeshGui) :
  colors_cover x → quiet g x → quiet g (_on_values_cleared x).
Proof.
  intros [Hcover _] Hq. unfold _on_values_cleared. cbv zeta.
  apply quiet_schedule, quiet_status, quiet_with_label_list; [done|done|].
  cbn [LabelList.set_label_values LabelList.with_colors LabelList.label_colors].
  apply dict_keys_foldl_set. intros [i k] Hik. simpl. rewrite Hcover.
  apply checked_in_items.
  apply list_elem_of_lookup in Hik as [j Hj]. rewrite list_lookup_imap in Hj.
  destruct (_ !! j) as [k'|] eqn:Hk'; [|done].
  injection Hj as <- <-. by eapply list_elem_of_lookup_2.
Qed.

Lemma colors_cover_quiet (g g' : MeshGui) :
  quiet g g' → colors_cover g → colors_cover g'.
Proof.
  intros (_ & _ & _ & _ & Hi & Hk) [Hc Hnd]. unfold colors_cover.
  by rewrite Hi, Hk.
Qed.

Lemma quiet_trans (g x y : MeshGui) : quiet g x → quiet x y → quiet g y.
Proof.
  intros (Hv & Hs & Ho & Ht & Hi & Hk) (Hv' & Hs' & Ho' & Ht' & Hi' & Hk').
  unfold quiet. rewrite Hv', Hs', Ho', Hi', Hk'. repeat split; try done.
  destruct Ht' as [->|[-> Hsome]]; [done|]. right. split; [done|].
  by rewrite <- Hv.
Qed.

Lemma quiet_clear_values (g y : MeshGui) :
  colors_cover g → _clear_values g = Some y → quiet g y.
Proof.
  intros Hcover. unfold _clear_values. cbv zeta.
  set (g1 := with_panel _ g).
  assert (Hq1 : quiet g g1) by (by apply quiet_with_panel, quiet_refl).
  destruct (if Colormap.use_colormap (colormap_panel g1)
            then slot (_on_colormap_toggle false g1) else Some g1)
    as [g2|] eqn:E2; [|done].
  assert (Hq2 : quiet g g2).
  { destruct (Colormap.use_colormap _); [|by injection E2 as <-].
    apply slot_state in E2 as ->. by apply quiet_toggle. }
  cbn [mbind option_bind]. intros [= <-].
  apply quiet_values_cleared; [|by apply quiet_with_panel].
  apply (colors_cover_quiet g); [|done]. by apply quiet_with_panel.
Qed.

Lemma alter_check_labels (row : nat) (b : bool) (its : list (Qc * bool)) :
  (alter (fun it => (it.1, b)) row its).*1 = its.*1.
Proof.
  revert row. induction its as [|it its IH]; intros [|row]; [done..|].
  cbn [alter list_alter]. rewrite !fmap_cons. f_equal. apply IH.
Qed.

Lemma quiet_apply_param (e : param_event) (g x : MeshGui) :
  quiet g x → quiet g (apply_param e x).
Proof.
  intros Hq. destruct e; try by apply quiet_with_params.
  apply quiet_with_label_list; [done| |done].
  cbn [LabelList.items]. apply alter_check_labels.
Qed.

Lemma quiet_param (e : param_event) (g x : MeshGui) :
  quiet g x → quiet g (on_param_event e x).
Proof. intros Hq. by apply quiet_schedule, quiet_apply_param. Qed.

Lemma quiet_set_all_rows (b : bool) (g : MeshGui) : quiet g (set_all_rows b g).
Proof.
  unfold set_all_rows.
  generalize (seq 0 (length (LabelList.items (label_list g)))). intros rows.
  assert (Hgen : ∀ x, quiet g x →
            quiet g (foldl (fun g0 row =>
                       match LabelList.items (label_list g0) !! row with
                       | Some (_, c) =>
                           if bool_decide (c = b) then g0
                           else on_param_event (item_changed row b) g0
                       | None => g0
                       end) x rows)).
  { induction rows as [|row rows IH]; intros x Hx; [done|]. cbn [foldl].
    apply IH. destruct (_ !! row) as [[l c]|]; [|done].
    case_bool_decide; [done|]. by apply quiet_param. }
  apply Hgen, quiet_refl.
Qed.

Lemma highlighted_in_items (rows : list nat) (g : MeshGui) (k : Qc) :
  k ∈ get_highlighted_labels rows g → k ∈ (LabelList.items (label_list g)).*1.
Proof.
  unfold get_highlighted_labels. rewrite list_elem_of_omap.
  intros (row & _ & Hrow).
  destruct (LabelList.items (label_list g) !! row) as [it|] eqn:Hit; [|done].
  injection Hrow as <-. apply list_elem_of_fmap. exists it. split; [done|].
  by eapply list_elem_of_lookup_2.
Qed.

Lemma quiet_choose_color (rows : list nat) (hex : string) (g : MeshGui) :
  colors_cover g →
  quiet g (_choose_color (get_highlighted_labels rows g) hex g).
Proof.
  intros [Hcover _]. unfold _choose_color.
  destruct (get_highlighted_labels rows g) as [|l ls] eqn:Hhl; [apply quiet_refl|].
  cbv zeta. apply quiet_status, quiet_schedule.
  apply quiet_with_label_list; [apply quiet_refl|done|].
  cbn [LabelList.with_colors LabelList.label_colors].
  apply (dict_keys_foldl_set id (fun _ => hex)). intros k Hk. simpl.
  rewrite Hcover. apply (highlighted_in_items rows). by rewrite Hhl.
Qed.

Lemma quiet_selection_changed (name : string) (g x : MeshGui) :
  quiet g x → quiet g (state_of (_on_colormap_selection_changed name x)).
Proof.
  intros Hq. unfold _on_colormap_selection_changed. cbv zeta.
  destruct (Colormap.use_colormap _); [|by apply quiet_with_panel].
  by apply quiet_colormap_changed, quiet_with_panel.
Qed.

(** The events that neither load a volume nor let time pass. *)
Definition is_quiet_event (ev : gui_event) : Prop :=
  match ev with
  | ev_wait _ | ev_load_volume _ _ => False
  | _ => True
  end.

Lemma handle_quiet (ev : gui_event) (g y : MeshGui) :
  colors_cover g → is_quiet_event ev → handle g ev = Some y → quiet g y.
Proof.
  intros Hcover Hev. destruct ev; try done; cbn [handle].
  - intros [= <-]. apply quiet_param, quiet_refl.
  - apply quiet_load_values, quiet_refl.
  - by apply quiet_clear_values.
  - intros ->%slot_state. apply quiet_toggle, quiet_refl.
  - intros ->%slot_state. apply quiet_selection_changed, quiet_refl.
  - apply quiet_vmin, quiet_refl.
  - apply quiet_vmax, quiet_refl.
  - apply quiet_auto_range, quiet_refl.
  - intros [= <-]. by apply quiet_choose_color.
  - intros [= <-]. apply quiet_set_all_rows.
  - intros [= <-]. apply quiet_set_all_rows.
  - intros [= <-]. unfold _on_view_changed. cbv zeta.
    apply quiet_with_plotter, quiet_with_params, quiet_refl.
  - intros [= <-]. apply quiet_with_plotter, quiet_refl.
Qed.

(** The label list shows either the colormap panel's table or no values. *)
Definition values_shared (g : MeshGui) : Prop :=
  LabelList.label_values (label_list g) = LabelList.panel_values ∨
  LabelList.label_values (label_list g) = LabelList.own_values ∅.

(** The part of the invariant about the colormap range and the table. *)
Definition side (g : MeshGui) : Prop := range_synced g ∧ values_shared g.

Lemma side_status (s : Status) (x : MeshGui) : side x → side (_set_status s x).
Proof. intros Hs. exact Hs. Qed.

Lemma side_with_params (p : RenderParams.RenderParamsPanel) (x : MeshGui) :
  side x → side (with_params p x).
Proof. intros Hs. exact Hs. Qed.

Lemma side_with_plotter (pl : Renderer.Plotter) (x : MeshGui) :
  side x → side (with_plotter pl x).
Proof. intros Hs. exact Hs. Qed.

Lemma side_with_timer (t : option nat) (x : MeshGui) :
  side x → side (with_timer t x).
Proof. intros Hs. exact Hs. Qed.

Lemma side_schedule (x : MeshGui) : side x → side (_schedule_render x).
Proof. intros Hs. unfold _schedule_render. by destruct (volume x). Qed.

Lemma side_with_label_list (l : LabelList.LabelListPanel) (x : MeshGui) :
  side x →
  LabelList.label_values l = LabelList.label_values (label_list x) →
  side (with_label_list l x).
Proof.
  intros [Hr Hv] Hl. split; [exact Hr|]. unfold values_shared.
  cbn [label_list with_label_list]. by rewrite Hl.
Qed.

Lemma side_with_values (l : LabelList.LabelListPanel) (x : MeshGui) :
  side x →
  LabelList.label_values l = LabelList.panel_values ∨
  LabelList.label_values l = LabelList.own_values ∅ →
  side (with_label_list l x).
Proof. intros [Hr _] Hl. by split. Qed.

(** A panel update that leaves the range and the spin boxes alone. *)
Lemma side_with_panel (p : Colormap.ColormapPanel) (x : MeshGui) :
  side x →
  Colormap.colormap_vmin p = Colormap.colormap_vmin (colormap_panel x) →
  Colormap.colormap_vmax p = Colormap.colormap_vmax (colormap_panel x) →
  Colormap.vmin_spin p = Colormap.vmin_spin (colormap_panel x) →
  Colormap.vmax_spin p = Colormap.vmax_spin (colormap_panel x) →
  side (with_panel p x).
Proof.
  intros [Hr Hv] Ea Eb Ec Ed. split; [|exact Hv].
  unfold range_synced, colormap_range in *.
  cbn [colormap_panel with_panel]. by rewrite Ea, Eb, Ec, Ed.
Qed.

Lemma side_update_colors (x : MeshGui) :
  side x → side (state_of (_update_colors_from_colormap x)).
Proof.
  intros Hs. unfold _update_colors_from_colormap. cbv zeta.
  destruct (negb _); [by apply side_with_label_list|].
  destruct (Colormap.compute_colors _ _); cbn [state_of]; [|done].
  by apply side_with_label_list.
Qed.

Lemma side_colormap_changed (x : MeshGui) :
  side x → side (state_of (_on_colormap_changed x)).
Proof.
  intros Hs. unfold _on_colormap_changed.
  apply (keeps_and_then side); [by apply side_update_colors|].
  intros y Hy. cbn [state_of]. by apply side_schedule.
Qed.

Lemma side_range_changed (x : MeshGui) :
  values_shared x → side (state_of (_on_range_changed x)).
Proof.
  intros Hv. unfold _on_range_changed. cbv zeta.
  set (x' := with_panel _ x).
  assert (Hx' : side x') by (by split).
  destruct (Colormap.use_colormap _); [|done].
  by apply side_colormap_changed.
Qed.

Lemma side_vmin (v : Qc) (x y : MeshGui) :
  side x → vmin_spin_setValue v x = Some y → side y.
Proof.
  intros Hs. unfold vmin_spin_setValue. cbv zeta.
  case_bool_decide; [by intros [= <-]|]. intros ->%slot_state.
  apply side_range_changed. by destruct Hs.
Qed.

Lemma side_vmax (v : Qc) (x y : MeshGui) :
  side x → vmax_spin_setValue v x = Some y → side y.
Proof.
  intros Hs. unfold vmax_spin_setValue. cbv zeta.
  case_bool_decide; [by intros [= <-]|]. intros ->%slot_state.
  apply side_range_changed. by destruct Hs.
Qed.

Lemma side_auto_range (x y : MeshGui) : side x → auto_range x = Some y → side y.
Proof.
  intros Hs. unfold auto_range.
  destruct (Colormap.auto_bounds _) as [[lo hi]|]; [|by intros [= <-]].
  destruct (vmin_spin_setValue lo x) as [x1|] eqn:E1; [|done].
  cbn [mbind option_bind]. intros E2.
  eapply side_vmax; [|exact E2]. by eapply side_vmin.
Qed.

Lemma side_toggle (b : bool) (x : MeshGui) :
  side x → side (state_of (_on_colormap_toggle b x)).
Proof.
  intros Hs. unfold _on_colormap_toggle. cbv zeta.
  by apply side_colormap_changed, side_with_panel.
Qed.

Lemma side_selection_changed (name : string) (x : MeshGui) :
  side x → side (state_of (_on_colormap_selection_changed name x)).
Proof.
  intros Hs. unfold _on_colormap_selection_changed. cbv zeta.
  destruct (Colormap.use_colormap _); [|by apply side_with_panel].
  by apply side_colormap_changed, side_with_panel.
Qed.

Lemma side_values_loaded (x : MeshGui) :
  side x → side (state_of (_on_values_loaded x)).
Proof.
  intros Hs. unfold _on_values_loaded. cbv zeta.
  apply (keeps_and_then side).
  - apply side_update_colors, side_with_values; [done | by left].
  - intros y Hy. cbn [state_of]. by apply side_schedule, side_status.
Qed.

Lemma side_load_values (r : csv_read) (x y : MeshGui) :
  side x → _load_values r x = Some y → side y.
Proof.
  intros Hs. unfold _load_values.
  destruct r as [|rows raises]; [by intros [= <-]|].
  cbv zeta. destruct raises; [intros [= <-]; by apply side_with_panel|].
  case_bool_decide; [intros [= <-]; by apply side_with_panel|].
  destruct (auto_range _) as [x1|] eqn:E1; [|done].
  cbn [mbind option_bind]. intros [= <-].
  apply side_values_loaded. eapply side_auto_range; [|exact E1].
  by apply side_with_panel.
Qed.

Lemma side_values_cleared (x : MeshGui) : side x → side (_on_values_cleared x).
Proof.
  intros Hs. unfold _on_values_cleared. cbv zeta.
  apply side_schedule, side_status, side_with_values; [done | by right].
Qed.

Lemma side_clear_values (x y : MeshGui) :
  side x → _clear_values x = Some y → side y.
Proof.
  intros Hs. unfold _clear_values. cbv zeta.
  set (x1 := with_panel _ x).
  assert (Hs1 : side x1) by (by apply side_with_panel).
  destruct (if Colormap.use_colormap (colormap_panel x1)
            then slot (_on_colormap_toggle false x1) else Some x1)
    as [x2|] eqn:E2; [|done].
  assert (Hs2 : side x2).
  { destruct (Colormap.use_colormap _); [|by injection E2 as <-].
    apply slot_state in E2 as ->. by apply side_toggle. }
  cbn [mbind option_bind]. intros [= <-].
  by apply side_values_cleared, side_with_panel.
Qed.

Lemma side_apply_param (e : param_event) (x : MeshGui) :
  side x → side (apply_param e x).
Proof.
  intros Hs. destruct e; try by apply side_with_params.
  by apply side_with_label_list.
Qed.

Lemma side_param (e : param_event) (x : MeshGui) :
  side x → side (on_param_event e x).
Proof. intros Hs. by apply side_schedule, side_apply_param. Qed.

Lemma side_set_all_rows (b : bool) (x : MeshGui) : side x → side (set_all_rows b x).
Proof.
  unfold set_all_rows.
  generalize (seq 0 (length (LabelList.items (label_list x)))). intros rows.
  revert x. induction rows as [|row rows IH]; intros x Hx; [done|]. cbn [foldl].
  apply IH. destruct (_ !! row) as [[l c]|]; [|done].
  case_bool_decide; [done|]. by apply side_param.
Qed.

Lemma side_choose_color (hl : list Qc) (hex : string) (x : MeshGui) :
  side x → side (_choose_color hl hex x).
Proof.
  intros Hs. unfold _choose_color. destruct hl as [|l ls]; [done|]. cbv zeta.
  by apply side_status, side_schedule, side_with_label_list.
Qed.

Lemma side_render_scene (x : MeshGui) : side x → side (_render_scene x).
Proof.
  intros [Hr Hv].
  destruct (render_scene_frame x) as (_ & _ & _ & _ & Hl & Hp & _).
  split.
  - unfold range_synced, colormap_range in *. by rewrite Hp.
  - unfold values_shared in *. by rewrite Hl.
Qed.

Lemma side_elapse (dt : nat) (x : MeshGui) : side x → side (elapse dt x).
Proof.
  intros Hs. unfold elapse. destruct (_render_timer x) as [r|]; [|done].
  case_bool_decide; [|done]. by apply side_render_scene.
Qed.

(** The session right after a decoded volume was installed and the label
    list repopulated, before the render pass. *)
Definition installed (path : string) (v : ndarray) (sp og : vec3)
    (g : MeshGui) : MeshGui :=
  _set_status (st_loaded path (length (volume_labels v)))
    (with_label_list
       (LabelList.populate_labels
          (Colormap.label_values (colormap_panel (with_volume v sp og g)))
          (volume_labels v) (Some LabelList.panel_values)
          (label_list (with_volume v sp og g)))
       (with_volume v sp og g)).

Lemma load_volume_installed (path : string) (v : ndarray) (sp og : vec3)
    (g : MeshGui) :
  _load_volume path (nii_ok v sp og) g = _render_scene (installed path v sp og g).
Proof. done. Qed.

Lemma side_installed (path : string) (v : ndarray) (sp og : vec3) (x : MeshGui) :
  side x → side (installed path v sp og x).
Proof.
  intros [Hr Hv]. split; [exact Hr|].
  unfold values_shared, installed in *.
  cbn [label_list with_label_list with_volume colormap_panel _set_status].
  unfold LabelList.populate_labels.
  destruct (LabelList.populate_loop 0 (volume_labels v) [] []) as [its cols].
  cbn [LabelList.label_values]. case_bool_decide; [done | by left].
Qed.

Lemma side_load_volume (path : string) (r : nii_read) (x : MeshGui) :
  side x → side (_load_volume path r x).
Proof.
  intros Hs. destruct r as [|exc|v sp og]; [done..|].
  rewrite load_volume_installed. by apply side_render_scene, side_installed.
Qed.

Lemma handle_side (ev : gui_event) (g y : MeshGui) :
  side g → handle g ev = Some y → side y.
Proof.
  intros Hs. destruct ev; cbn [handle].
  - intros [= <-]. by apply side_elapse.
  - intros [= <-]. by apply side_param.
  - intros [= <-]. by apply side_load_volume.
  - by apply side_load_values.
  - by apply side_clear_values.
  - intros ->%slot_state. by apply side_toggle.
  - intros ->%slot_state. by apply side_selection_changed.
  - by apply side_vmin.
  - by apply side_vmax.
  - by apply side_auto_range.
  - intros [= <-]. by apply side_choose_color.
  - intros [= <-]. by apply side_set_all_rows.
  - intros [= <-]. by apply side_set_all_rows.
  - intros [= <-]. unfold _on_view_changed. cbv zeta.
    by apply side_with_plotter, side_with_params.
  - intros [= <-]. by apply side_with_plotter.
Qed.

(** Volume, spacing and origin are there together or not at all. *)
Definition data_together (g : MeshGui) : Prop :=
  (volume g = None ∧ spacing g = None ∧ origin g = None) ∨
  (is_Some (volume g) ∧ is_Some (spacing g) ∧ is_Some (origin g)).

(** A running timer means a loaded volume and at most the quiet period. *)
Definition timer_ok (g : MeshGui) : Prop :=
  ∀ r, _render_timer g = Some r →
       is_Some (volume g) ∧ (0 < r <= RENDER_DEBOUNCE_MS)%nat.

Definition session_ok (g : MeshGui) : Prop :=
  data_together g ∧ timer_ok g ∧ colors_cover g ∧ side g.

Lemma session_ok_init : session_ok init.
Proof.
  split; [by left|]. split; [done|]. split; [|by split; [|right]].
  split; [done|]. apply NoDup_nil_2.
Qed.

Lemma session_ok_quiet (g g' : MeshGui) :
  session_ok g → quiet g g' → side g' → session_ok g'.
Proof.
  intros (Hd & Ht & Hc & _) Hq Hs.
  pose proof (colors_cover_quiet _ _ Hq Hc) as Hc'.
  destruct Hq as (Hv & Hsp & Ho & Htm & _ & _).
  split; [|split; [|by split]].
  - unfold data_together. by rewrite Hv, Hsp, Ho.
  - intros r Hr. rewrite Hv. destruct Htm as [Hsame|[Hnew Hsome]].
    + apply Ht. by rewrite <- Hsame.
    + split; [done|]. rewrite Hnew in Hr. injection Hr as <-.
      unfold RENDER_DEBOUNCE_MS. lia.
Qed.

Lemma session_ok_render (g : MeshGui) :
  session_ok g → session_ok (_render_scene g).
Proof.
  intros (Hd & Ht & Hc & Hs).
  destruct (render_scene_frame g) as (Hv & Hsp & Ho & Htm & Hl & _).
  split; [|split; [|split; [|by apply side_render_scene]]].
  - unfold data_together. by rewrite Hv, Hsp, Ho.
  - intros r. rewrite Hv, Htm. apply Ht.
  - unfold colors_cover. by rewrite Hl.
Qed.

Lemma session_ok_elapse (dt : nat) (g : MeshGui) :
  session_ok g → session_ok (elapse dt g).
Proof.
  intros Hok. unfold elapse. destruct (_render_timer g) as [r|] eqn:Hr; [|done].
  destruct Hok as (Hd & Ht & Hc & Hs). destruct (Ht r Hr) as [Hsome Hrange].
  case_bool_decide.
  - apply session_ok_render. split; [done|]. split; [done|]. by split.
  - split; [done|]. split; [|by split].
    intros r' [= <-]. split; [done|]. lia.
Qed.

Lemma session_ok_load_volume (path : string) (r : nii_read) (g : MeshGui) :
  session_ok g → session_ok (_load_volume path r g).
Proof.
  intros Hok. destruct r as [|exc|v sp og]; [done..|].
  rewrite load_volume_installed. apply session_ok_render.
  destruct Hok as (Hd & Ht & Hc & Hs).
  split; [right; cbn; eauto|]. split.
  { intros r Hr. split; [cbn; eauto|]. by apply (Ht r). }
  split; [|by apply side_installed].
  destruct (volume_labels_facts v) as (_ & Hnd & _).
  destruct (populate_labels_shape
              (Colormap.label_values (colormap_panel (with_volume v sp og g)))
              (volume_labels v) (Some LabelList.panel_values)
              (label_list (with_volume v sp og g)) Hnd) as (Hi & _ & Hk & _).
  unfold colors_cover, installed. cbn [label_list _set_status with_label_list].
  rewrite Hk, Hi, <- list_fmap_compose.
  change (fst ∘ (fun l : Qc => (l, true))) with (@id Qc).
  by rewrite list_fmap_id.
Qed.

Lemma handle_ok (ev : gui_event) (g y : MeshGui) :
  session_ok g → handle g ev = Some y → session_ok y.
Proof.
  intros Hok Hy.
  assert (Hquiet : is_quiet_event ev → session_ok y).
  { intros Hq. apply (session_ok_quiet g); [done| |].
    - eapply handle_quiet; [|done|exact Hy]. by destruct Hok as (_ & _ & ? & _).
    - eapply handle_side; [|exact Hy]. by destruct Hok as (_ & _ & _ & ?). }
  destruct ev; try (by apply Hquiet); cbn [handle] in Hy; injection Hy as <-.
  - by apply session_ok_elapse.
  - by apply session_ok_load_volume.
Qed.

Lemma run_events_snoc (g : MeshGui) (evs : list gui_event) (ev : gui_event) :
  run_events g (evs ++ [ev]) = run_events g evs ≫= fun x => handle x ev.
Proof. unfold run_events. by rewrite foldl_app. Qed.

(** Every state the window can reach satisfies the invariants. *)
Lemma session_is_ok (evs : list gui_event) (g : MeshGui) :
  session evs = Some g → session_ok g.
Proof.
  unfold session. revert g. induction evs as [|ev evs IH] using rev_ind; intros g.
  - intros [= <-]. apply session_ok_init.
  - rewrite run_events_snoc.
    destruct (run_events init evs) as [x|]; [|done].
    cbn [mbind option_bind]. apply handle_ok. by apply IH.
Qed.

(** However the window got to its state, a running render timer means a
    volume is loaded, and it has between 1 and 80 ms left: renders are
    never scheduled without data and never later than one quiet period. *)
Theorem timer_needs_volume (evs : list gui_event) (g : MeshGui) (r : nat) :
  session evs = Some g →
  _render_timer g = Some r →
  is_Some (volume g) ∧ (0 < r <= RENDER_DEBOUNCE_MS)%nat.
Proof. intros Hg. destruct (session_is_ok evs g Hg) as (_ & Ht & _). apply Ht. Qed.

(** [volume], [spacing] and [origin] are always all unset or all set, so a
    render pass that finds a volume also finds its spacing and origin. *)
Theorem volume_fields_together (evs : list gui_event) (g : MeshGui) :
  session evs = Some g →
  (volume g = None ∧ spacing g = None ∧ origin g = None) ∨
  (is_Some (volume g) ∧ is_Some (spacing g) ∧ is_Some (origin g)).
Proof. intros Hg. destruct (session_is_ok evs g Hg) as (Hd & _). exact Hd. Qed.

(** The colour table always has exactly one entry per row of the label
    list, in row order, so every checked label has a colour of its own and
    the palette fallback of [render_meshes] is never what the GUI shows. *)
Theorem every_row_has_a_color (evs : list gui_event) (g : MeshGui) :
  session evs = Some g →
  let ll := label_list g in
  dict_keys (LabelList.label_colors ll) = (LabelList.items ll).*1 ∧
  NoDup (dict_keys (LabelList.label_colors ll)) ∧
  (∀ lbl, lbl ∈ LabelList.get_checked_labels ll →
          is_Some (dict_get (LabelList.label_colors ll) lbl)).
Proof.
  intros Hg. cbv zeta. destruct (session_is_ok evs g Hg) as (_ & _ & [Hk Hnd] & _).
  split; [done|]. split; [by rewrite Hk|].
  intros lbl Hlbl. apply not_eq_None_Some. rewrite dict_get_None, Hk.
  intros Hn. apply Hn. by apply checked_in_items.
Qed.

(** The range used to colour by value ([colormap_vmin], [colormap_vmax],
    0 and 1 while unset) is always the pair the two range spin boxes show,
    and the label list's value table is the colormap panel's own
    dictionary or empty. *)
Theorem range_matches_spin_boxes (evs : list gui_event) (g : MeshGui) :
  session evs = Some g →
  colormap_range g
  = (Colormap.vmin_spin (colormap_panel g),
     Colormap.vmax_spin (colormap_panel g)) ∧
  (LabelList.label_values (label_list g) = LabelList.panel_values ∨
   LabelList.label_values (label_list g) = LabelList.own_values ∅).
Proof. intros Hg. destruct (session_is_ok evs g Hg) as (_ & _ & _ & Hs). exact Hs. Qed.
End Invariants.

Section InvariantsWitness.
Import MainWindow.
#[local] Existing Instance point_lib.
#[local] Existing Instance gray_lib.
#[local] Existing Instance decimal_float.
#[local] Existing Instance thousandths_lib.

Definition busy_history : list gui_event :=
  [ ev_load_volume "grid.nii" (nii_ok grid4 (1, 1, 1) (0, 0, 0));
    ev_load_values (csv_file [["1"; "0.2"]] false);
    ev_colormap_toggle true;
    ev_wait 30;
    ev_param (sigma_changed (dec 12 10));
    ev_wait 50 ].

(** The window that history leads to. *)
Definition busy_session : MeshGui := default init (session busy_history).

Lemma busy_session_reached : session busy_history = Some busy_session.
Proof. by_eval. Qed.

Lemma timer_needs_volume_witness :
  session busy_history = Some busy_session ∧
  _render_timer busy_session = Some 30%nat ∧
  is_Some (volume busy_session) ∧ (0 < 30 <= Constants.RENDER_DEBOUNCE_MS)%nat.
Proof.
  assert (Ht : _render_timer busy_session = Some 30%nat) by (by_eval).
  split; [exact busy_session_reached|]. split; [exact Ht|].
  exact (timer_needs_volume busy_history busy_session 30 busy_session_reached Ht).
Defined.

Lemma volume_fields_together_witness :
  session busy_history = Some busy_session ∧
  ((volume busy_session = None ∧ spacing busy_session = None ∧
    origin busy_session = None) ∨
   (is_Some (volume busy_session) ∧ is_Some (spacing busy_session) ∧
    is_Some (origin busy_session))).
Proof.
  split; [exact busy_session_reached|].
  exact (volume_fields_together busy_history busy_session busy_session_reached).
Defined.

Lemma every_row_has_a_color_witness :
  session busy_history = Some busy_session ∧
  dict_keys (LabelList.label_colors (label_list busy_session))
  = (LabelList.items (label_list busy_session)).*1 ∧
  is_Some (dict_get (LabelList.label_colors (label_list busy_session)) (dec 2 1)).
Proof.
  split; [exact busy_session_reached|].
  destruct (every_row_has_a_color busy_history busy_session busy_session_reached)
    as (Hkeys & _ & Hsome).
  split; [exact Hkeys|]. apply Hsome. by_eval.
Defined.

Lemma range_matches_spin_boxes_witness :
  session busy_history = Some busy_session ∧
  colormap_range busy_session
  = (Colormap.vmin_spin (colormap_panel busy_session),
     Colormap.vmax_spin (colormap_panel busy_session)).
Proof.
  split; [exact busy_session_reached|].
  exact (proj1 (range_matches_spin_boxes busy_history busy_session
                  busy_session_reached)).
Defined.
End InvariantsWitness.

(** ** Palette colours ([_update_colors_from_colormap], [_on_values_cleared]) *)
Section Palette.
Import MainWindow.
Context `{ColorLib}.

(** Colours assigned one after the other: a key ends with the colour of
    the last assignment to it. *)
Lemma dict_get_foldl_set {A} (f : A → Qc) (c : A → string) (xs : list A)
    (cols : list (Qc * string)) (k : Qc) :
  dict_get (foldl (fun acc x => dict_set (f x) (c x) acc) cols xs) k
  = match last (filter (fun x => f x = k) xs) with
    | Some x => Some (c x)
    | None => dict_get cols k
    end.
Proof.
  induction xs as [|x xs IH] using rev_ind; [done|].
  rewrite foldl_app, filter_app. cbn [foldl]. rewrite dict_get_set.
  destruct (decide (f x = k)) as [Hk|Hk].
  - rewrite filter_cons_True by done. rewrite filter_nil, last_snoc.
    by rewrite bool_decide_eq_true_2.
  - rewrite filter_cons_False by done. rewrite filter_nil, app_nil_r.
    by rewrite bool_decide_eq_false_2.
Qed.

(** Distinct labels coloured by position: the label at position [i] gets
    the palette colour of [i]. *)
Lemma dict_get_by_position (labels : list Qc) (cols : list (Qc * string))
    (i : nat) (k : Qc) :
  NoDup labels → labels !! i = Some k →
  dict_get (foldl (fun acc il => dict_set il.2 (Constants.palette_color il.1) acc)
              cols (imap pair labels)) k
  = Some (Constants.palette_color i).
Proof.
  intros Hnd Hi. rewrite (dict_get_foldl_set snd (Constants.palette_color ∘ fst)).
  assert (Hin : (i, k) ∈ filter (fun x : nat * Qc => x.2 = k) (imap pair labels)).
  { apply list_elem_of_filter. split; [done|].
    apply list_elem_of_lookup. exists i. by rewrite list_lookup_imap, Hi. }
  destruct (last (filter _ _)) as [[j k']|] eqn:Hlast.
  - apply last_Some_elem_of, list_elem_of_filter in Hlast as [Hk' Hj]. simpl in Hk'.
    subst k'. apply list_elem_of_lookup in Hj as [n Hn].
    rewrite list_lookup_imap in Hn.
    destruct (labels !! n) as [k'|] eqn:Hn'; [|done]. injection Hn as <- <-.
    by rewrite (NoDup_lookup _ _ _ _ Hnd Hn' Hi).
  - apply last_None in Hlast. rewrite Hlast in Hin. by apply elem_of_nil in Hin.
Qed.

Lemma palette_pass_get (cols : list (Qc * string)) (i : nat) (k : Qc) :
  NoDup (dict_keys cols) → dict_keys cols !! i = Some k →
  dict_get (palette_pass cols) k = Some (Constants.palette_color i).
Proof. intros Hnd Hi. by apply dict_get_by_position. Qed.

Lemma palette_iter_get (n : nat) (cols : list (Qc * string)) (i : nat) (k : Qc) :
  NoDup (dict_keys cols) → dict_keys cols !! i = Some k → (0 < n)%nat →
  dict_get (Nat.iter n palette_pass cols) k = Some (Constants.palette_color i).
Proof.
  intros Hnd Hi Hn. destruct n as [|n]; [lia|].
  change (Nat.iter (S n) palette_pass cols)
    with (palette_pass (Nat.iter n palette_pass cols)).
  apply palette_pass_get; by rewrite palette_iter_keys.
Qed.

(** Leaving colormap mode resets the colours: with the colormap off,
    [_update_colors_from_colormap] keeps the labels and their order and
    gives the label at position i the colour PALETTE[i mod 8], whatever
    colour it had - colormap colours and the user's choices are lost. *)
Theorem palette_reset (g : MeshGui) :
  Colormap.use_colormap (colormap_panel g) = false →
  NoDup (dict_keys (LabelList.label_colors (label_list g))) →
  let cols := LabelList.label_colors (label_list g) in
  let g' := state_of (_update_colors_from_colormap g) in
  let cols' := LabelList.label_colors (label_list g') in
  _update_colors_from_colormap g = returned g' ∧
  dict_keys cols' = dict_keys cols ∧
  LabelList.items (label_list g') = LabelList.items (label_list g) ∧
  (∀ i k, dict_keys cols !! i = Some k →
          dict_get cols' k = Constants.PALETTE !! (i mod 8)%nat).
Proof.
  intros Hoff Hnd. cbv zeta. rewrite update_colors_palette by done.
  cbn [state_of label_list with_label_list LabelList.with_colors
       LabelList.label_colors LabelList.items].
  split; [done|].
  split; [apply palette_iter_keys|]. split; [done|].
  intros i k Hi. rewrite palette_lookup. apply palette_iter_get; [done..|].
  apply lookup_lt_Some in Hi. unfold dict_keys in Hi.
  rewrite length_fmap in Hi. lia.
Qed.
End Palette.

Section PaletteWitness.
Import MainWindow.
#[local] Existing Instance point_lib.
#[local] Existing Instance gray_lib.
#[local] Existing Instance decimal_float.
#[local] Existing Instance thousandths_lib.

(** The colormap session with the colormap switched off again by hand,
    before any slot ran. *)
Definition colormap_off_session : MeshGui :=
  with_panel (Colormap.set_use_colormap false (colormap_panel colormap_session))
    colormap_session.

Lemma palette_reset_witness :
  Colormap.use_colormap (colormap_panel colormap_off_session) = false ∧
  NoDup (dict_keys (LabelList.label_colors (label_list colormap_off_session))) ∧
  dict_get (LabelList.label_colors
              (label_list (state_of (_update_colors_from_colormap
                                       colormap_off_session))))
    (dec 1 1)
  = Constants.PALETTE !! (0 mod 8)%nat.
Proof.
  assert (Hoff : Colormap.use_colormap (colormap_panel colormap_off_session) = false)
    by reflexivity.
  assert (Hnd : NoDup (dict_keys (LabelList.label_colors
                                    (label_list colormap_off_session))))
    by (by_eval).
  split; [exact Hoff|]. split; [exact Hnd|].
  apply (proj2 (proj2 (proj2 (palette_reset colormap_off_session Hoff Hnd)))).
  by_eval.
Defined.
End PaletteWitness.

(** ** The value table in the session ([_load_values], [_clear_values]) *)
Section TableSession.
Import MeshViz Constants MainWindow.
Context `{GeometryLib} `{ColorLib} `{PyFloat} `{QtLib}.

Lemma schedule_timer (x : MeshGui) :
  _render_timer (_schedule_render x)
  = match volume x with
    | Some _ => Some RENDER_DEBOUNCE_MS
    | None => _render_timer x
    end.
Proof. unfold _schedule_render. by destruct (volume x). Qed.

Lemma schedule_rest (x : MeshGui) :
  colormap_panel (_schedule_render x) = colormap_panel x ∧
  label_list (_schedule_render x) = label_list x ∧
  status (_schedule_render x) = status x ∧
  volume (_schedule_render x) = volume x ∧
  plotter (_schedule_render x) = plotter x ∧
  render_params (_schedule_render x) = render_params x.
Proof.
  unfold _schedule_render.
  destruct (volume x) eqn:E; repeat split; cbn; by rewrite ?E.
Qed.

Lemma update_colors_rest (x : MeshGui) :
  let x' := state_of (_update_colors_from_colormap x) in
  colormap_panel x' = colormap_panel x ∧
  LabelList.items (label_list x') = LabelList.items (label_list x) ∧
  LabelList.label_values (label_list x') = LabelList.label_values (label_list x) ∧
  status x' = status x ∧ volume x' = volume x ∧
  _render_timer x' = _render_timer x ∧ plotter x' = plotter x ∧
  render_params x' = render_params x.
Proof.
  cbv zeta. unfold _update_colors_from_colormap. cbv zeta.
  destruct (negb _); [by repeat split|].
  destruct (Colormap.compute_colors _ _); by repeat split.
Qed.

(** [_update_colors_from_colormap] returns unless colormap mode is on and
    [compute_colors] raises. *)
Lemma update_colors_returns (Hnorm : normalize_raises) (x : MeshGui) :
  ¬ (Colormap.use_colormap (colormap_panel x) = true ∧
     colors_raise (colormap_panel x)
       (dict_keys (LabelList.label_colors (label_list x)))) →
  _update_colors_from_colormap x
  = returned (state_of (_update_colors_from_colormap x)).
Proof.
  intros Hgo. destruct (Colormap.use_colormap (colormap_panel x)) eqn:Hcm.
  - rewrite update_colors_colormap by done.
    pose proof (compute_colors_raises Hnorm (colormap_panel x)
                  (dict_keys (LabelList.label_colors (label_list x)))) as Hr.
    destruct (Colormap.compute_colors _ _); [done|].
    destruct Hgo. split; [done|]. by apply Hr.
  - by rewrite update_colors_palette.
Qed.

Lemma colormap_changed_rest (x : MeshGui) :
  let x' := state_of (_on_colormap_changed x) in
  colormap_panel x' = colormap_panel x ∧
  LabelList.items (label_list x') = LabelList.items (label_list x) ∧
  LabelList.label_values (label_list x') = LabelList.label_values (label_list x) ∧
  volume x' = volume x.
Proof.
  cbv zeta. unfold _on_colormap_changed.
  destruct (update_colors_rest x) as (Hp & Hi & Hv & _ & Hvo & _).
  cbv zeta in Hp, Hi, Hv, Hvo.
  destruct (_update_colors_from_colormap x) as [y|y]; cbn [and_then state_of] in *.
  - destruct (schedule_rest y) as (-> & -> & _ & -> & _). done.
  - done.
Qed.

Lemma range_changed_rest (x : MeshGui) :
  let x' := state_of (_on_range_changed x) in
  Colormap.label_values (colormap_panel x') = Colormap.label_values (colormap_panel x) ∧
  Colormap.use_colormap (colormap_panel x') = Colormap.use_colormap (colormap_panel x) ∧
  Colormap.value_file_edit (colormap_panel x')
  = Colormap.value_file_edit (colormap_panel x) ∧
  LabelList.items (label_list x') = LabelList.items (label_list x) ∧
  volume x' = volume x.
Proof.
  cbv zeta. rewrite on_range_changed_panel. split; [done|]. split; [done|].
  split; [done|]. unfold _on_range_changed. cbv zeta.
  destruct (Colormap.use_colormap _); [|done].
  unfold _emit_colormap_changed.
  by destruct (colormap_changed_rest
                 (with_panel
                    (Colormap.set_colormap_vmax (Some (Colormap.vmax_spin (colormap_panel x)))
                       (Colormap.set_colormap_vmin
                          (Some (Colormap.vmin_spin (colormap_panel x)))
                          (colormap_panel x))) x)) as (_ & -> & _ & ->).
Qed.

Lemma vmin_rest (v : Qc) (x x' : MeshGui) :
  vmin_spin_setValue v x = Some x' →
  Colormap.label_values (colormap_panel x') = Colormap.label_values (colormap_panel x) ∧
  Colormap.use_colormap (colormap_panel x') = Colormap.use_colormap (colormap_panel x) ∧
  Colormap.value_file_edit (colormap_panel x')
  = Colormap.value_file_edit (colormap_panel x) ∧
  LabelList.items (label_list x') = LabelList.items (label_list x) ∧
  volume x' = volume x.
Proof.
  unfold vmin_spin_setValue. cbv zeta.
  case_bool_decide; [by intros [= <-]|]. intros ->%slot_state.
  by destruct (range_changed_rest
                 (with_panel (Colormap.set_vmin_spin (Colormap.spin_value v)
                                (colormap_panel x)) x)) as (-> & -> & -> & -> & ->).
Qed.

Lemma vmax_rest (v : Qc) (x x' : MeshGui) :
  vmax_spin_setValue v x = Some x' →
  Colormap.label_values (colormap_panel x') = Colormap.label_values (colormap_panel x) ∧
  Colormap.use_colormap (colormap_panel x') = Colormap.use_colormap (colormap_panel x) ∧
  Colormap.value_file_edit (colormap_panel x')
  = Colormap.value_file_edit (colormap_panel x) ∧
  LabelList.items (label_list x') = LabelList.items (label_list x) ∧
  volume x' = volume x.
Proof.
  unfold vmax_spin_setValue. cbv zeta.
  case_bool_decide; [by intros [= <-]|]. intros ->%slot_state.
  by destruct (range_changed_rest
                 (with_panel (Colormap.set_vmax_spin (Colormap.spin_value v)
                                (colormap_panel x)) x)) as (-> & -> & -> & -> & ->).
Qed.

Lemma auto_range_rest (x x' : MeshGui) :
  auto_range x = Some x' →
  Colormap.label_values (colormap_panel x') = Colormap.label_values (colormap_panel x) ∧
  Colormap.use_colormap (colormap_panel x') = Colormap.use_colormap (colormap_panel x) ∧
  Colormap.value_file_edit (colormap_panel x')
  = Colormap.value_file_edit (colormap_panel x) ∧
  LabelList.items (label_list x') = LabelList.items (label_list x) ∧
  volume x' = volume x.
Proof.
  unfold auto_range.
  destruct (Colormap.auto_bounds _) as [[lo hi]|]; [|by intros [= <-]].
  destruct (vmin_spin_setValue lo x) as [x1|] eqn:E1; [|done].
  cbn [mbind option_bind]. intros E2.
  destruct (vmax_rest hi x1 x' E2) as (-> & -> & -> & -> & ->).
  by apply (vmin_rest lo).
Qed.

(** A table that is not empty has a least and a greatest value. *)
Lemma table_extremes (d : gmap Qc Qc) :
  d ≠ ∅ → ∃ lo hi, table_min d lo ∧ table_max d hi.
Proof.
  intros Hd.
  destruct (map_to_list d).*2 as [|v vs] eqn:Hvs.
  { apply fmap_nil_inv, map_to_list_empty_iff in Hvs. done. }
  exists (default 0 (py_min (v :: vs))), (default 0 (py_max (v :: vs))).
  split.
  - apply table_min_of_list. rewrite Hvs. by apply py_min_spec.
  - apply table_max_of_list. rewrite Hvs. by apply py_max_spec.
Qed.


Lemma toggle_rest (b : bool) (x : MeshGui) :
  let x' := state_of (_on_colormap_toggle b x) in
  colormap_panel x' = Colormap.set_use_colormap b (colormap_panel x) ∧
  LabelList.items (label_list x') = LabelList.items (label_list x) ∧
  volume x' = volume x.
Proof.
  cbv zeta. unfold _on_colormap_toggle, _emit_colormap_changed. cbv zeta.
  by destruct (colormap_changed_rest
                 (with_panel (Colormap.set_use_colormap b (colormap_panel x)) x))
    as (-> & -> & _ & ->).
Qed.

(** Switching the colormap off never raises: only the palette branch runs. *)
Lemma toggle_off_returns (x : MeshGui) :
  _on_colormap_toggle false x = returned (state_of (_on_colormap_toggle false x)).
Proof.
  unfold _on_colormap_toggle, _emit_colormap_changed, _on_colormap_changed.
  cbv zeta. by rewrite update_colors_palette.
Qed.

(** "Clear" always returns. It empties the table, switches the colormap
    off, blanks the file field, detaches the label list from the table,
    and recolours the checked labels by their position among the checked
    ones (PALETTE[i mod 8] for the i-th checked label); check marks are
    kept and a render is scheduled when a volume is loaded. *)
Theorem clear_values_outcome (g : MeshGui) :
  NoDup (LabelList.get_checked_labels (label_list g)) →
  ∃ g', _clear_values g = Some g' ∧
  Colormap.label_values (colormap_panel g') = ∅ ∧
  Colormap.use_colormap (colormap_panel g') = false ∧
  Colormap.value_file_edit (colormap_panel g') = ""%string ∧
  LabelList.label_values (label_list g') = LabelList.own_values ∅ ∧
  LabelList.items (label_list g') = LabelList.items (label_list g) ∧
  status g' = st_values_cleared ∧
  (∀ i k, LabelList.get_checked_labels (label_list g) !! i = Some k →
          dict_get (LabelList.label_colors (label_list g')) k
          = PALETTE !! (i mod 8)%nat) ∧
  (is_Some (volume g) → _render_timer g' = Some RENDER_DEBOUNCE_MS).
Proof.
  intros Hnd. unfold _clear_values. cbv zeta.
  set (g1 := with_panel _ g).
  assert (Hg2 : ∃ g2, (if Colormap.use_colormap (colormap_panel g1)
                       then slot (_on_colormap_toggle false g1) else Some g1)
                      = Some g2 ∧
                Colormap.label_values (colormap_panel g2) = ∅ ∧
                Colormap.use_colormap (colormap_panel g2) = false ∧
                LabelList.items (label_list g2) = LabelList.items (label_list g) ∧
                volume g2 = volume g).
  { destruct (Colormap.use_colormap (colormap_panel g1)) eqn:Huse.
    - rewrite toggle_off_returns. eexists. split; [reflexivity|].
      by destruct (toggle_rest false g1) as (-> & -> & ->).
    - exists g1. split; [done|]. by rewrite Huse. }
  destruct Hg2 as (g2 & -> & Hvals & Huse & Hitems & Hvol).
  cbn [mbind option_bind]. eexists. split; [reflexivity|].
  set (g3 := with_panel _ g2). unfold _on_values_cleared. cbv zeta.
  assert (Hchecked : LabelList.get_checked_labels (label_list g3)
                     = LabelList.get_checked_labels (label_list g)).
  { unfold LabelList.get_checked_labels. cbn [label_list g3 with_panel].
    by rewrite Hitems. }
  rewrite Hchecked.
  match goal with |- context [_schedule_render ?x] =>
    destruct (schedule_rest x) as (-> & -> & -> & _);
    rewrite (schedule_timer x) end.
  cbn [colormap_panel label_list status volume _set_status with_label_list
       LabelList.set_label_values LabelList.with_colors LabelList.label_values
       LabelList.items LabelList.label_colors g3 with_panel
       Colormap.set_value_file_edit Colormap.label_values Colormap.use_colormap
       Colormap.value_file_edit].
  rewrite Hvals, Huse, Hitems, Hvol.
  repeat (split; [done|]). split.
  - intros i k Hi. rewrite palette_lookup. by apply dict_get_by_position.
  - by intros [v ->].
Qed.

(** The loaded events that only set the colormap name or the range. *)
Definition is_range_event (ev : gui_event) : Prop :=
  match ev with
  | ev_colormap_select _ | ev_vmin_edit _ | ev_vmax_edit _ | ev_auto_range => True
  | _ => False
  end.

(** The window differs from [g] in the colormap panel only, and the
    colormap is off. *)
Definition panel_only (g x : MeshGui) : Prop :=
  x = with_panel (colormap_panel x) g ∧
  Colormap.use_colormap (colormap_panel x) = false.

Lemma range_changed_off (x g : MeshGui) :
  panel_only g x →
  ∃ x', _on_range_changed x = returned x' ∧ panel_only g x'.
Proof.
  intros [Hx Hoff]. unfold _on_range_changed. cbv zeta. rewrite Hoff.
  eexists. split; [reflexivity|]. split; [|done].
  cbn [colormap_panel with_panel].
  generalize (Colormap.set_colormap_vmax (Some (Colormap.vmax_spin (colormap_panel x)))
                (Colormap.set_colormap_vmin
                   (Some (Colormap.vmin_spin (colormap_panel x))) (colormap_panel x))).
  intros p. by rewrite Hx.
Qed.

Lemma vmin_off (v : Qc) (x g : MeshGui) :
  panel_only g x →
  ∃ x', vmin_spin_setValue v x = Some x' ∧ panel_only g x'.
Proof.
  intros [Hx Hoff]. unfold vmin_spin_setValue. cbv zeta.
  case_bool_decide; [by exists x|].
  destruct (range_changed_off
              (with_panel (Colormap.set_vmin_spin (Colormap.spin_value v)
                             (colormap_panel x)) x) g) as (x' & -> & Hx').
  - split; [|done]. cbn [colormap_panel with_panel].
    generalize (Colormap.set_vmin_spin (Colormap.spin_value v) (colormap_panel x)).
    intros p. by rewrite Hx.
  - by exists x'.
Qed.

Lemma vmax_off (v : Qc) (x g : MeshGui) :
  panel_only g x →
  ∃ x', vmax_spin_setValue v x = Some x' ∧ panel_only g x'.
Proof.
  intros [Hx Hoff]. unfold vmax_spin_setValue. cbv zeta.
  case_bool_decide; [by exists x|].
  destruct (range_changed_off
              (with_panel (Colormap.set_vmax_spin (Colormap.spin_value v)
                             (colormap_panel x)) x) g) as (x' & -> & Hx').
  - split; [|done]. cbn [colormap_panel with_panel].
    generalize (Colormap.set_vmax_spin (Colormap.spin_value v) (colormap_panel x)).
    intros p. by rewrite Hx.
  - by exists x'.
Qed.

(** While "Use colormap" is off, choosing a colormap, editing the range or
    pressing "Auto" returns and changes the colormap panel and nothing
    else: no label is recoloured, the scene and the status stay, and no
    render is scheduled. *)
Theorem colormap_off_is_inert (ev : gui_event) (g : MeshGui) :
  Colormap.use_colormap (colormap_panel g) = false → is_range_event ev →
  ∃ g', handle g ev = Some g' ∧
        g' = with_panel (colormap_panel g') g ∧
        Colormap.use_colormap (colormap_panel g') = false.
Proof.
  intros Hoff Hev.
  assert (Hg : panel_only g g) by (split; [by destruct g|done]).
  destruct ev; try done; cbn [handle].
  - unfold _on_colormap_selection_changed. cbv zeta. rewrite Hoff.
    eexists. split; [reflexivity|]. split; [|done].
    cbn [colormap_panel with_panel]. done.
  - by apply vmin_off.
  - by apply vmax_off.
  - unfold auto_range. destruct (Colormap.auto_bounds _) as [[lo hi]|].
    + destruct (vmin_off lo g g Hg) as (x1 & -> & Hx1).
      cbn [mbind option_bind]. by apply vmax_off.
    + by exists g.
Qed.
End TableSession.

Section TableSessionWitness.
Import MainWindow.
#[local] Existing Instance point_lib.
#[local] Existing Instance gray_lib.
#[local] Existing Instance decimal_float.
#[local] Existing Instance thousandths_lib.


Lemma clear_values_outcome_witness :
  NoDup (LabelList.get_checked_labels (label_list colormap_session)) ∧
  ∃ g', _clear_values colormap_session = Some g' ∧
        Colormap.label_values (colormap_panel g') = ∅ ∧
        Colormap.use_colormap (colormap_panel g') = false.
Proof.
  assert (Hnd : NoDup (LabelList.get_checked_labels (label_list colormap_session)))
    by (by_eval).
  split; [exact Hnd|].
  destruct (clear_values_outcome colormap_session Hnd)
    as (g' & Hg' & Hvals & Huse & _).
  exists g'. split; [exact Hg'|]. split; [exact Hvals | exact Huse].
Defined.

Lemma colormap_off_is_inert_witness :
  Colormap.use_colormap (colormap_panel loaded_session) = false ∧
  is_range_event (ev_vmax_edit (dec 5 1)) ∧
  ∃ g', handle loaded_session (ev_vmax_edit (dec 5 1)) = Some g' ∧
        g' = with_panel (colormap_panel g') loaded_session.
Proof.
  assert (Hoff : Colormap.use_colormap (colormap_panel loaded_session) = false)
    by reflexivity.
  split; [exact Hoff|]. split; [exact I|].
  destruct (colormap_off_is_inert (ev_vmax_edit (dec 5 1)) loaded_session Hoff I)
    as (g' & Hg' & Hpanel & _).
  exists g'. split; [exact Hg' | exact Hpanel].
Defined.

Example clear_values_recolours :
  LabelList.label_colors (label_list colormap_session)
  = [(dec 1 1, "#7f7f7f"); (dec 2 1, "#E45756")] ∧
  (LabelList.label_colors ∘ label_list) <$> _clear_values colormap_session
  = Some [(dec 1 1, "#4C78A8"); (dec 2 1, "#E45756")].
Proof. all_by_eval. Qed.

(** A load can end the program: in colormap mode with the range [0.1, 0.3]
    of the table {1: 0.2}, loading the single row 1,5.0 asks for the lower
    bound 4.9 while the upper box still shows 0.3. *)
Example load_values_ends_the_program :
  colormap_range colormap_session = (dec 1 10, dec 3 10) ∧
  _load_values (csv_file [["1"; "5.0"]] false) colormap_session = None.
Proof. all_by_eval. Qed.
End TableSessionWitness.

(** ** Reading the value table, row by row ([_load_values]) *)
Section Rows.
Context `{PyFloat}.

(** Why a row after the first contributes nothing: it has fewer than two
    cells, or a detected column is missing or not a number. *)
Definition bad_row (label_col value_col : nat) (row : list string) : Prop :=
  (length row < 2)%nat ∨
  row !! label_col ≫= py_float = None ∨
  row !! value_col ≫= py_float = None.

Lemma data_entry_bad (lc vc : nat) (row : list string) :
  bad_row lc vc row → data_entry lc vc row = None.
Proof.
  unfold bad_row, data_entry, Colormap.row_entry.
  intros [Hlen|[Hl|Hv]].
  - by rewrite bool_decide_eq_true_2.
  - case_bool_decide; [done|]. by rewrite Hl.
  - case_bool_decide; [done|]. rewrite Hv.
    by destruct (row !! lc ≫= py_float).
Qed.

(** A malformed row is skipped on its own: the table read from a file is
    the table read from the same file without that row, wherever the row
    stands among the data rows. *)
Theorem malformed_row_is_skipped (header : list string)
    (before after : list (list string)) (row : list string) (d : gmap Qc Qc) :
  bad_row (Colormap.detect_columns header).1 (Colormap.detect_columns header).2 row →
  Colormap.read_rows (header :: before ++ row :: after) d
  = Colormap.read_rows (header :: before ++ after) d.
Proof.
  intros Hbad%data_entry_bad. rewrite !read_rows_entries. f_equal.
  unfold file_entries. destruct (Colormap.detect_columns header) as [lc vc].
  simpl in Hbad. f_equal. rewrite !omap_app. f_equal.
  cbn [omap list_omap]. by rewrite Hbad.
Qed.

(** A file of nothing but malformed rows after a non-numeric first row
    yields no entry at all. *)
Lemma no_valid_row (header : list string) (rest : list (list string)) :
  Colormap.row_entry (Colormap.detect_columns header).1
    (Colormap.detect_columns header).2 header = None →
  Forall (bad_row (Colormap.detect_columns header).1
            (Colormap.detect_columns header).2) rest →
  Colormap.read_rows (header :: rest) ∅ = ∅.
Proof.
  intros Hh Hrest. rewrite read_rows_entries. unfold file_entries.
  destruct (Colormap.detect_columns header) as [lc vc]. simpl in *.
  rewrite Hh. simpl.
  induction Hrest as [|row rest Hrow _ IH]; [done|].
  cbn [omap list_omap]. by rewrite (data_entry_bad _ _ _ Hrow).
Qed.
End Rows.

Lemma malformed_row_is_skipped_witness :
  bad_row (H := decimal_float) (Colormap.detect_columns numeric_first_row).1
    (Colormap.detect_columns numeric_first_row).2 ["x"; "3"] ∧
  Colormap.read_rows (H := decimal_float)
    (numeric_first_row :: [["2"; "0.7"]] ++ ["x"; "3"] :: [["1"; "0.9"]]) ∅
  = Colormap.read_rows (H := decimal_float)
      (numeric_first_row :: [["2"; "0.7"]] ++ [["1"; "0.9"]]) ∅.
Proof.
  assert (Hbad : bad_row (H := decimal_float)
                   (Colormap.detect_columns numeric_first_row).1
                   (Colormap.detect_columns numeric_first_row).2 ["x"; "3"]).
  { right; left. reflexivity. }
  split; [exact Hbad|].
  exact (malformed_row_is_skipped (H := decimal_float) numeric_first_row
           [["2"; "0.7"]] [["1"; "0.9"]] ["x"; "3"] ∅ Hbad).
Defined.

(** ** Column detection ([_load_values]) *)
Section Columns.

(** Cell [i] of the header, lower-cased and stripped, is one of [aliases]. *)
Definition alias_at (aliases : list string) (header : list string) (i : nat) : Prop :=
  ∃ h, Colormap.header_lower header !! i = Some h ∧ h ∈ aliases.

(** Where the detection loop stands after the cells [cells]. *)
Definition detected (aliases : list string) (default_col : nat)
    (cells : list string) (col : nat) : Prop :=
  ((∀ i, ¬ (∃ h, cells !! i = Some h ∧ h ∈ aliases)) → col = default_col) ∧
  (∀ i, (∃ h, cells !! i = Some h ∧ h ∈ aliases) →
        (∃ h, cells !! col = Some h ∧ h ∈ aliases) ∧ (i <= col)%nat).

Lemma detect_loop (cells : list string) :
  detected Colormap.label_aliases 0 cells
    (foldl Colormap.detect_step (0%nat, 1%nat) (imap pair cells)).1 ∧
  detected Colormap.value_aliases 1 cells
    (foldl Colormap.detect_step (0%nat, 1%nat) (imap pair cells)).2.
Proof.
  induction cells as [|cell cells IH] using rev_ind.
  { split; (split; [done|]); by intros i [h [? _]]. }
  rewrite imap_app, foldl_app. cbn [imap foldl]. rewrite Nat.add_0_r.
  destruct (foldl Colormap.detect_step (0%nat, 1%nat) (imap pair cells))
    as [lc vc]. cbn [Colormap.detect_step fst snd] in *.
  assert (Hstep : ∀ aliases dflt col,
            detected aliases dflt cells col →
            detected aliases dflt (cells ++ [cell])
              (if bool_decide (cell ∈ aliases) then length cells else col)).
  { intros aliases dflt col [Hnone Hsome]. case_bool_decide as Hcell.
    - split.
      + intros Hno. destruct (Hno (length cells)). exists cell.
        by rewrite lookup_app_r, Nat.sub_diag by lia.
      + intros i [h [Hi _]]. split.
        * exists cell. by rewrite lookup_app_r, Nat.sub_diag by lia.
        * apply lookup_lt_Some in Hi. rewrite length_app in Hi. simpl in Hi. lia.
    - assert (Hold : ∀ i, (∃ h, (cells ++ [cell]) !! i = Some h ∧ h ∈ aliases) →
                          ∃ h, cells !! i = Some h ∧ h ∈ aliases).
      { intros i [h [Hi Hh]]. apply lookup_app_Some in Hi as [Hi|[_ Hi]]; [eauto|].
        apply list_lookup_singleton_Some in Hi as [_ <-]. done. }
      split.
      + intros Hno. apply Hnone. intros i [h [Hi Hh]]. apply (Hno i).
        exists h. split; [|done]. by apply lookup_app_l_Some.
      + intros i Hi. destruct (Hsome i (Hold i Hi)) as [[h [Hc Hh]] Hle].
        split; [|done]. exists h. split; [|done]. by apply lookup_app_l_Some. }
  destruct IH as [IHl IHv]. split; by apply Hstep.
Qed.

(** The label column is the position of the last header cell that is a
    label alias ("label", "roi", "region", "id", "index", in any case and
    with blanks around), and column 0 when there is none; the value column
    likewise for the value aliases, with default 1. A later alias overrides
    an earlier one. *)
Theorem detect_columns_last_alias (header : list string) :
  let lc := (Colormap.detect_columns header).1 in
  let vc := (Colormap.detect_columns header).2 in
  ((∀ i, ¬ alias_at Colormap.label_aliases header i) → lc = 0%nat) ∧
  (∀ i, alias_at Colormap.label_aliases header i →
        alias_at Colormap.label_aliases header lc ∧ (i <= lc)%nat) ∧
  ((∀ i, ¬ alias_at Colormap.value_aliases header i) → vc = 1%nat) ∧
  (∀ i, alias_at Colormap.value_aliases header i →
        alias_at Colormap.value_aliases header vc ∧ (i <= vc)%nat).
Proof.
  cbv zeta. unfold Colormap.detect_columns, alias_at.
  destruct (detect_loop (Colormap.header_lower header)) as [[Hl0 Hl1] [Hv0 Hv1]].
  auto.
Qed.

Example detect_columns_samples :
  Colormap.detect_columns ["Value"; " ROI "; "note"] = (1%nat, 0%nat) ∧
  Colormap.detect_columns ["id"; "score"; "Index"; "weight"] = (2%nat, 3%nat) ∧
  Colormap.detect_columns ["1"; "0.5"] = (0%nat, 1%nat) ∧
  Colormap.detect_columns [] = (0%nat, 1%nat).
Proof. all_by_eval. Qed.
End Columns.

(** ** A header row that names a column *)
Section NamedHeader.
Context `{PyFloat}.

(** [float] raises on the column names the loader looks for, however they
    are capitalised and padded. *)
Definition rejects_column_names : Prop :=
  ∀ s, str_strip (str_lower s) ∈ Colormap.label_aliases ++ Colormap.value_aliases →
       py_float s = None.

Lemma header_cell (aliases : list string) (header : list string) (i : nat) :
  alias_at aliases header i →
  ∃ s, header !! i = Some s ∧ str_strip (str_lower s) ∈ aliases.
Proof.
  intros [h [Hi Hh]]. unfold Colormap.header_lower in Hi.
  apply list_lookup_fmap_Some in Hi as [s [-> Hs]]. eauto.
Qed.

(** A first row in which some cell is a column name is never taken for
    data: the cell the loader then reads for that column is a column name,
    which [float] rejects. Only the rows after it fill the table. *)
Theorem named_header_is_not_data (header : list string)
    (rest : list (list string)) (d : gmap Qc Qc) (i : nat) :
  rejects_column_names →
  alias_at Colormap.label_aliases header i ∨
  alias_at Colormap.value_aliases header i →
  let '(lc, vc) := Colormap.detect_columns header in
  Colormap.row_entry lc vc header = None ∧
  Colormap.read_rows (header :: rest) d
  = foldl (fun d row => if bool_decide (length row < 2)%nat then d
                        else Colormap.store_row lc vc row d) d rest.
Proof.
  intros Hfloat Hi.
  assert (Hentry : Colormap.row_entry (Colormap.detect_columns header).1
                     (Colormap.detect_columns header).2 header = None).
  { unfold Colormap.detect_columns.
    destruct (detect_loop (Colormap.header_lower header)) as [[_ Hl] [_ Hv]].
    unfold Colormap.row_entry. destruct Hi as [Hi|Hi].
    - destruct (Hl i Hi) as [Hlc _].
      apply header_cell in Hlc as [s [Hs Hin]]. rewrite Hs. simpl.
      rewrite Hfloat; [done|]. apply elem_of_app. by left.
    - destruct (Hv i Hi) as [Hvc _].
      apply header_cell in Hvc as [s [Hs Hin]]. rewrite Hs. simpl.
      rewrite (Hfloat s) by (apply elem_of_app; by right).
      by destruct (_ ≫= py_float). }
  destruct (Colormap.detect_columns header) as [lc vc] eqn:Hcols.
  simpl in Hentry. split; [done|].
  unfold Colormap.read_rows. destruct header as [|h hs].
  { destruct Hi as [[? [Hi _]]|[? [Hi _]]]; done. }
  rewrite Hcols. unfold Colormap.store_row. by rewrite Hentry.
Qed.
End NamedHeader.

(** The decimal reader rejects the column names: what it accepts starts
    with a sign, a point or a digit, and lower-casing leaves those alone. *)
Definition numeric_start (c : ascii) : bool :=
  bool_decide (c = "-"%char) || bool_decide (c = "+"%char)
  || bool_decide (c = "."%char)
  || bool_decide (48 <= nat_of_ascii c <= 57)%nat.

Definition alias_start (c : ascii) : bool :=
  bool_decide (c ∈ ["l"; "r"; "i"; "v"; "s"; "o"; "w"; "m"]%char).

Lemma is_space_lower (c : ascii) : is_space (ascii_lower c) = is_space c.
Proof. destruct c as [[] [] [] [] [] [] [] []]; reflexivity. Qed.

Lemma numeric_not_alias (c : ascii) :
  numeric_start c = true → alias_start (ascii_lower c) = false.
Proof. destruct c as [[] [] [] [] [] [] [] []]; vm_compute; congruence. Qed.

Lemma lstrip_lower (cs : list ascii) :
  lstrip (map ascii_lower cs) = map ascii_lower (lstrip cs).
Proof.
  induction cs as [|c cs IH]; [done|]. cbn [map lstrip].
  rewrite is_space_lower. by destruct (is_space c).
Qed.

Lemma chars_lower (s : string) :
  String.list_ascii_of_string (str_lower s)
  = map ascii_lower (String.list_ascii_of_string s).
Proof. induction s as [|c s IH]; [done|]. simpl. by rewrite IH. Qed.

Lemma chars_strip_lower (s : string) :
  String.list_ascii_of_string (str_strip (str_lower s))
  = map ascii_lower (String.list_ascii_of_string (str_strip s)).
Proof.
  unfold str_strip. rewrite !String.list_ascii_of_string_of_list_ascii.
  by rewrite chars_lower, lstrip_lower, <- map_rev, lstrip_lower, <- map_rev.
Qed.

Lemma parse_decimal_start (s : string) (q : Qc) :
  parse_decimal s = Some q →
  ∃ c rest, String.list_ascii_of_string (str_strip s) = c :: rest ∧
            numeric_start c = true.
Proof.
  unfold parse_decimal.
  destruct (String.list_ascii_of_string (str_strip s)) as [|c rest]; [done|].
  intros Hq. exists c, rest. split; [done|]. unfold numeric_start.
  repeat case_bool_decide; try done.
  cbn [parse_digits] in Hq. rewrite bool_decide_eq_false_2 in Hq by done.
  unfold digit_of in Hq. by rewrite bool_decide_eq_false_2 in Hq by done.
Qed.

Lemma decimal_rejects_column_names : rejects_column_names (H := decimal_float).
Proof.
  intros s Hin. destruct (parse_decimal s) as [q|] eqn:Hq; [|done]. exfalso.
  apply parse_decimal_start in Hq as [c [rest [Hs Hc]]].
  apply numeric_not_alias in Hc.
  assert (Hall : Forall (fun a => ∃ c' r, String.list_ascii_of_string a = c' :: r ∧
                                          alias_start c' = true)
                   (Colormap.label_aliases ++ Colormap.value_aliases)).
  { repeat (apply Forall_cons; split; [eexists _, _; split; reflexivity|]).
    apply Forall_nil_2. }
  rewrite Forall_forall in Hall. destruct (Hall _ Hin) as [c' [r [Hn Hc']]].
  rewrite chars_strip_lower, Hs in Hn. simplify_eq/=. congruence.
Qed.

Lemma named_header_is_not_data_witness :
  let header := [" Region"; "note"; "Score "] in
  let rest := [["7"; "x"; "0.25"]; ["8"; "y"]; ["9"; "z"; "0.5"]] in
  alias_at Colormap.label_aliases header 0 ∧
  Colormap.row_entry (H := decimal_float) 0 2 header = None ∧
  Colormap.read_rows (H := decimal_float) (header :: rest) ∅
  = {[ dec 7 1 := dec 1 4; dec 9 1 := dec 1 2 ]}.
Proof.
  cbv zeta.
  assert (Hat : alias_at Colormap.label_aliases [" Region"; "note"; "Score "] 0).
  { exists "region"%string. split; [reflexivity|]. by_eval. }
  pose proof (named_header_is_not_data (H := decimal_float)
                [" Region"; "note"; "Score "]
                [["7"; "x"; "0.25"]; ["8"; "y"]; ["9"; "z"; "0.5"]] ∅ 0
                decimal_rejects_column_names (or_introl Hat)) as Hthm.
  change (Colormap.detect_columns [" Region"; "note"; "Score "])
    with (0%nat, 2%nat) in Hthm.
  destruct Hthm as [Hentry Hrows].
  split; [exact Hat|]. split; [exact Hentry|].
  rewrite Hrows. by_eval.
Defined.

(** ** The colour table of the colormap ([compute_colors]) *)
Section ComputeColors.
Context `{ColorLib}.

Lemma dict_get_by_key {V} (f : Qc → V) (d : list (Qc * V)) (k : Qc) :
  (∀ e, e ∈ d → e.2 = f e.1) →
  dict_get d k = if bool_decide (k ∈ dict_keys d) then Some (f k) else None.
Proof.
  intros Hf. induction d as [|[k0 v0] d IH]; [done|].
  cbn [dict_get]. rewrite dict_keys_cons.
  destruct (decide (k0 = k)) as [->|Hk].
  - rewrite !bool_decide_eq_true_2 by (done || left).
    f_equal. apply (Hf (k, v0)). left.
  - rewrite (bool_decide_eq_false_2 (k0 = k)) by done.
    rewrite IH by (intros e He; apply Hf; by right).
    destruct (decide (k ∈ dict_keys d)) as [Hin|Hin].
    + rewrite !bool_decide_eq_true_2 by (done || by right). done.
    + rewrite !bool_decide_eq_false_2; [done| |done].
      intros [->|?]%elem_of_cons; done.
Qed.

(** [compute_colors] raises the ValueError of [Normalize] exactly when the
    range is inverted (vmin > vmax) and some requested label has a value.
    Otherwise it returns a table in which looking a label up gives the
    colormap colour of the label's value when the label was asked for and
    has a value, and nothing otherwise. Neither the order of the labels
    asked for nor asking twice matters. *)
Theorem compute_colors_lookup (Hnorm : normalize_raises)
    (p : Colormap.ColormapPanel) (labels : list Qc) :
  (colors_raise p labels → Colormap.compute_colors p labels = None) ∧
  (¬ colors_raise p labels →
   ∃ cols, Colormap.compute_colors p labels = Some cols ∧
     ∀ lbl, dict_get cols lbl
            = (if bool_decide (lbl ∈ labels)
               then Colormap.label_values p !! lbl
                    ≫= Colormap.get_color_for_value p
               else None) ∧
            (lbl ∈ labels →
             ∀ v, Colormap.label_values p !! lbl = Some v →
                  is_Some (Colormap.get_color_for_value p v))).
Proof.
  pose proof (compute_colors_raises Hnorm p labels) as Hr.
  pose proof (compute_colors_spec p labels) as Hspec.
  destruct (Colormap.compute_colors p labels) as [cols|].
  - split; [by intros ?%Hr|]. intros _. exists cols. split; [done|].
    destruct Hspec as (Hvals & Hkeys & Hsome). intros lbl. split.
    + rewrite (dict_get_by_key (fun k => default ""%string (color_of p k)))
        by (by intros e ->%Hvals).
      specialize (Hkeys lbl). unfold has_value in Hkeys.
      case_bool_decide as Hk.
      * apply Hkeys in Hk as [Hin Hv]. rewrite bool_decide_eq_true_2 by done.
        destruct (Hsome lbl Hin Hv) as [c Hc]. fold (color_of p lbl).
        by rewrite Hc.
      * case_bool_decide as Hin; [|done].
        destruct (Colormap.label_values p !! lbl) as [v|] eqn:Hv; [|done].
        destruct Hk. apply Hkeys. eauto.
    + intros Hin v Hv. destruct (Hsome lbl Hin) as [c Hc].
      { unfold has_value. by rewrite Hv. }
      unfold color_of in Hc. rewrite Hv in Hc. by exists c.
  - split; [done|]. intros Hno. destruct Hno. by apply Hr.
Qed.
End ComputeColors.

Lemma compute_colors_lookup_witness :
  let p := MainWindow.colormap_panel colormap_session in
  ¬ colors_raise p [dec 2 1; dec 1 1; dec 1 1] ∧
  ∃ cols, Colormap.compute_colors (H := gray_lib) p [dec 2 1; dec 1 1; dec 1 1]
          = Some cols ∧
          dict_get cols (dec 1 1) = Some "#7f7f7f"%string ∧
          dict_get cols (dec 2 1) = None.
Proof.
  cbv zeta.
  assert (Hgo : ¬ colors_raise (MainWindow.colormap_panel colormap_session)
                    [dec 2 1; dec 1 1; dec 1 1]).
  { intros [Hinv _]. revert Hinv. by_eval. }
  split; [exact Hgo|].
  destruct (proj2 (compute_colors_lookup (H := gray_lib) gray_normalize_raises
                     (MainWindow.colormap_panel colormap_session)
                     [dec 2 1; dec 1 1; dec 1 1]) Hgo) as (cols & Hcols & Hget).
  exists cols. split; [exact Hcols|]. split.
  - rewrite (proj1 (Hget (dec 1 1))). by_eval.
  - rewrite (proj1 (Hget (dec 2 1))). by_eval.
Defined.

(** ** "Select all" and "Clear" *)
Section Selection.
Import MainWindow.
Context `{MeshViz.GeometryLib} `{ColorLib} `{PyFloat} `{QtLib}.

(** One turn of the loop over the rows. *)
Definition set_row (b : bool) (g : MeshGui) (row : nat) : MeshGui :=
  match LabelList.items (label_list g) !! row with
  | Some (_, c) =>
      if bool_decide (c = b) then g else on_param_event (item_changed row b) g
  | None => g
  end.

Lemma set_all_rows_fold (b : bool) (g : MeshGui) :
  set_all_rows b g
  = foldl (set_row b) g (seq 0 (length (LabelList.items (label_list g)))).
Proof. done. Qed.

Lemma schedule_label_list (g : MeshGui) :
  label_list (_schedule_render g) = label_list g.
Proof. unfold _schedule_render. destruct (volume g); reflexivity. Qed.

Lemma schedule_volume (g : MeshGui) : volume (_schedule_render g) = volume g.
Proof.
  unfold _schedule_render. destruct (volume g) eqn:Hv; [|done].
  by rewrite <- Hv.
Qed.

Lemma set_row_items (b : bool) (g : MeshGui) (row i : nat) :
  LabelList.items (label_list (set_row b g row)) !! i
  = if decide (i = row)
    then (fun it => (it.1, b)) <$> LabelList.items (label_list g) !! i
    else LabelList.items (label_list g) !! i.
Proof.
  unfold set_row. destruct (decide (i = row)) as [->|Hne].
  - destruct (LabelList.items (label_list g) !! row) as [[l c]|] eqn:Hrow;
      [|by rewrite Hrow].
    case_bool_decide as Hc; [subst c; by rewrite Hrow|].
    unfold on_param_event. rewrite schedule_label_list.
    cbn [apply_param label_list with_label_list LabelList.items].
    by rewrite list_lookup_alter, decide_True, Hrow by done.
  - destruct (LabelList.items (label_list g) !! row) as [[l c]|] eqn:Hrow;
      [|done].
    case_bool_decide as Hc; [done|].
    unfold on_param_event. rewrite schedule_label_list.
    cbn [apply_param label_list with_label_list LabelList.items].
    by rewrite list_lookup_alter_ne.
Qed.

Lemma set_row_volume (b : bool) (g : MeshGui) (row : nat) :
  volume (set_row b g row) = volume g.
Proof.
  unfold set_row. destruct (_ !! row) as [[l c]|]; [|done].
  case_bool_decide; [done|]. unfold on_param_event. rewrite schedule_volume.
  by destruct (item_changed row b).
Qed.

Lemma set_rows_items (b : bool) (n k : nat) (g : MeshGui) (i : nat) :
  LabelList.items (label_list (foldl (set_row b) g (seq k n))) !! i
  = if decide (k <= i < k + n)%nat
    then (fun it => (it.1, b)) <$> LabelList.items (label_list g) !! i
    else LabelList.items (label_list g) !! i.
Proof.
  revert k g. induction n as [|n IH]; intros k g.
  { simpl. destruct (decide _); [lia|done]. }
  cbn [seq foldl]. rewrite IH, set_row_items.
  repeat destruct (decide _); try lia; done.
Qed.

Lemma set_all_rows_items (b : bool) (g : MeshGui) :
  LabelList.items (label_list (set_all_rows b g))
  = (fun it => (it.1, b)) <$> LabelList.items (label_list g).
Proof.
  rewrite set_all_rows_fold. apply list_eq. intros i.
  rewrite set_rows_items, list_lookup_fmap.
  destruct (decide _) as [|Hout]; [done|].
  rewrite lookup_ge_None_2 by lia. done.
Qed.

(** After "Select all" every label of the list is checked, after "Clear"
    none is; the labels themselves, their order and their colours stay. *)
Theorem select_all_checks_every_row (g : MeshGui) :
  LabelList.get_checked_labels (label_list (select_all g))
  = (LabelList.items (label_list g)).*1 ∧
  LabelList.get_checked_labels (label_list (clear_selection g)) = [] ∧
  ∀ b, (LabelList.items (label_list (set_all_rows b g))).*1
       = (LabelList.items (label_list g)).*1 ∧
       LabelList.label_colors (label_list (set_all_rows b g))
       = LabelList.label_colors (label_list g).
Proof.
  unfold select_all, clear_selection, LabelList.get_checked_labels.
  rewrite !set_all_rows_items. split; [|split].
  - induction (LabelList.items (label_list g)) as [|it its IH]; [done|].
    rewrite fmap_cons, filter_cons_True by done. rewrite !fmap_cons.
    by rewrite IH.
  - induction (LabelList.items (label_list g)) as [|it its IH]; [done|].
    rewrite fmap_cons, filter_cons_False by done. exact IH.
  - intros b. split.
    + rewrite set_all_rows_items, <- list_fmap_compose. done.
    + rewrite set_all_rows_fold.
      generalize (seq 0 (length (LabelList.items (label_list g)))).
      intros rows. revert g. induction rows as [|row rows IH]; intros g; [done|].
      cbn [foldl]. rewrite IH. unfold set_row.
      destruct (_ !! row) as [[l c]|]; [|done]. case_bool_decide; [done|].
      unfold on_param_event. by rewrite schedule_label_list.
Qed.

Lemma set_rows_same (b : bool) (rows : list nat) (g : MeshGui) :
  Forall (fun it => it.2 = b) (LabelList.items (label_list g)) →
  foldl (set_row b) g rows = g.
Proof.
  intros Hall. induction rows as [|row rows IH]; [done|].
  cbn [foldl].
  assert (Hrow : set_row b g row = g).
  { unfold set_row. destruct (_ !! row) as [[l c]|] eqn:Hrow; [|done].
    rewrite Forall_lookup in Hall. apply Hall in Hrow. simpl in Hrow.
    by rewrite bool_decide_eq_true_2. }
  by rewrite Hrow.
Qed.

Lemma set_row_timer (b : bool) (g : MeshGui) (row : nat) :
  is_Some (volume g) →
  _render_timer g = Some Constants.RENDER_DEBOUNCE_MS →
  _render_timer (set_row b g row) = Some Constants.RENDER_DEBOUNCE_MS.
Proof.
  intros [v Hv] Ht. unfold set_row. destruct (_ !! row) as [[l c]|]; [|done].
  case_bool_decide; [done|]. unfold on_param_event, _schedule_render.
  assert (Hv' : volume (apply_param (item_changed row b) g) = Some v) by done.
  by rewrite Hv'.
Qed.

Lemma set_rows_timer (b : bool) (n k : nat) (g : MeshGui) :
  is_Some (volume g) →
  _render_timer g = Some Constants.RENDER_DEBOUNCE_MS ∨
  (∃ i it, (k <= i < k + n)%nat ∧
           LabelList.items (label_list g) !! i = Some it ∧ it.2 ≠ b) →
  _render_timer (foldl (set_row b) g (seq k n))
  = Some Constants.RENDER_DEBOUNCE_MS.
Proof.
  revert k g. induction n as [|n IH]; intros k g Hvol Hcase.
  { destruct Hcase as [Ht|(i & it & Hi & _)]; [done|lia]. }
  cbn [seq foldl]. apply IH.
  { by rewrite set_row_volume. }
  destruct Hcase as [Ht|(i & it & Hi & Hit & Hne)].
  { left. by apply set_row_timer. }
  destruct (decide (i = k)) as [->|Hik].
  - left. unfold set_row. rewrite Hit. destruct it as [l c]. simpl in Hne.
    rewrite bool_decide_eq_false_2 by done.
    destruct Hvol as [v Hv]. unfold on_param_event, _schedule_render.
    assert (Hv' : volume (apply_param (item_changed k b) g) = Some v) by done.
    by rewrite Hv'.
  - right. exists i, it. split; [lia|]. split; [|done].
    rewrite set_row_items. by destruct (decide (i = k)).
Qed.

(** "Select all" (and "Clear") redraws only when it changes something: when
    every row is already in the requested state the window is left exactly
    as it was, timer included; when a volume is loaded and some row is not,
    the debounce timer is (re)started at its full period. *)
Theorem selection_redraws_on_change (b : bool) (g : MeshGui) :
  (Forall (fun it => it.2 = b) (LabelList.items (label_list g)) →
   set_all_rows b g = g) ∧
  (is_Some (volume g) →
   ¬ Forall (fun it => it.2 = b) (LabelList.items (label_list g)) →
   _render_timer (set_all_rows b g) = Some Constants.RENDER_DEBOUNCE_MS).
Proof.
  split.
  - intros Hall. rewrite set_all_rows_fold. by apply set_rows_same.
  - intros Hvol Hsome. rewrite set_all_rows_fold. apply set_rows_timer; [done|].
    right. apply not_Forall_Exists in Hsome; [|intros it; apply _].
    apply Exists_exists in Hsome as [it [Hin Hne]].
    apply list_elem_of_lookup in Hin as [i Hi]. exists i, it.
    apply lookup_lt_Some in Hi as Hlt. split; [lia|done].
Qed.
End Selection.

Section SelectionWitness.
Import MainWindow.
#[local] Existing Instance point_lib.
#[local] Existing Instance gray_lib.
#[local] Existing Instance decimal_float.
#[local] Existing Instance thousandths_lib.

Lemma selection_redraws_on_change_witness :
  Forall (fun it => it.2 = true) (LabelList.items (label_list loaded_session)) ∧
  select_all loaded_session = loaded_session ∧
  is_Some (volume loaded_session) ∧
  ¬ Forall (fun it => it.2 = false) (LabelList.items (label_list loaded_session)) ∧
  _render_timer (clear_selection (elapse 80 loaded_session))
  = Some Constants.RENDER_DEBOUNCE_MS ∧
  _render_timer (elapse 80 loaded_session) = None.
Proof.
  assert (Hall : Forall (fun it => it.2 = true)
                   (LabelList.items (label_list loaded_session))) by (by_eval).
  assert (Hvol : is_Some (volume (elapse 80 loaded_session))) by (by_eval).
  assert (Hnot : ¬ Forall (fun it => it.2 = false)
                   (LabelList.items (label_list (elapse 80 loaded_session))))
    by (by_eval).
  split; [exact Hall|].
  split; [exact (proj1 (selection_redraws_on_change true loaded_session) Hall)|].
  split; [by_eval|]. split; [by_eval|].
  split; [exact (proj2 (selection_redraws_on_change false
                          (elapse 80 loaded_session)) Hvol Hnot)|].
  by_eval.
Defined.
End SelectionWitness.

(** ** The command line and the library agree *)
Section CommandLine.
Import MeshViz MeshVizCli.
Context `{GeometryLib}.

(** With [--label L] the command line shows exactly the surface that
    [extract_label_meshes] returns for the single label [L] at the same
    sigma and smoothing, whatever [--threshold] says; it ends with
    [SystemExit] exactly when [extract_label_meshes] would leave the label
    out. The line about the screenshot is printed when a path was given. *)
Theorem main_label_matches_extraction (args : Args) (volume : ndarray)
    (spacing origin : vec3) (lbl : Qc) :
  args_label args = Some lbl →
  let found := extract_label_meshes volume [lbl] spacing origin
                 (args_sigma args) (args_smooth_iter args)
                 (args_smooth_relax args) (dec 1 2) in
  (found = [] ∧
   main args volume spacing origin = SystemExit (args_input args) (dec 1 2)) ∨
  (∃ m p, found = [(lbl, m)] ∧
     main args volume spacing origin
     = Returned p (String.append "Saved screenshot to " <$> show_screenshot p) ∧
     mesh <$> actors p = [m] ∧
     off_screen p = bool_decide (args_screenshot args ≠ None) ∧
     (show_screenshot p = None ↔
      args_screenshot args = None ∨ args_screenshot args = Some ""%string)).
Proof.
  intros Hlbl. cbv zeta. unfold main, extract_label_meshes. rewrite Hlbl.
  cbn [foldl]. unfold extract_step.
  destruct (extract_isosurface _ _ _ _ _ _ _) as [m|]; [|left; split; reflexivity].
  right. exists m.
  exists (visualize_mesh m (args_color args) (args_background args)
            (args_view args) (args_screenshot args) (args_show_edges args)).1.
  split; [reflexivity|]. unfold visualize_mesh. cbv zeta.
  cbn [fst snd show_screenshot actors off_screen].
  split; [|split; [reflexivity|split; [reflexivity|]]].
  - f_equal. unfold truthy.
    destruct (args_screenshot args) as [s|]; [|reflexivity].
    destruct (String.eqb s "") eqn:Hs; [reflexivity|]. simpl. by rewrite Hs.
  - unfold truthy.
    destruct (args_screenshot args) as [s|]; [|by split; auto].
    destruct (String.eqb_spec s "") as [->|Hs]; simpl.
    + split; auto.
    + split; [done|]. intros [?|?]; congruence.
Qed.
End CommandLine.

Section CommandLineWitness.
Import MeshViz MeshVizCli.
#[local] Existing Instance point_lib.

Definition label_two_args : Args :=
  {| args_input := "grid.nii"; args_label := Some (dec 2 1);
     args_threshold := dec 9 1; args_sigma := 1; args_smooth_iter := 50;
     args_smooth_relax := dec 1 10; args_color := "#4C78A8";
     args_background := "white"; args_view := "top";
     args_screenshot := Some "out.png"%string; args_show_edges := false |}.

Lemma main_label_matches_extraction_witness :
  args_label label_two_args = Some (dec 2 1) ∧
  let found := extract_label_meshes grid4 [dec 2 1] (1, 1, 1) (0, 0, 0)
                 1 50%Z (dec 1 10) (dec 1 2) in
  (found = [] ∧
   main label_two_args grid4 (1, 1, 1) (0, 0, 0)
   = SystemExit "grid.nii" (dec 1 2)) ∨
  (∃ m p, found = [(dec 2 1, m)] ∧
     main label_two_args grid4 (1, 1, 1) (0, 0, 0)
     = Returned p (String.append "Saved screenshot to " <$> show_screenshot p) ∧
     mesh <$> actors p = [m] ∧
     off_screen p = bool_decide (args_screenshot label_two_args ≠ None) ∧
     (show_screenshot p = None ↔
      args_screenshot label_two_args = None ∨
      args_screenshot label_two_args = Some ""%string)).
Proof.
  split; [reflexivity|].
  exact (main_label_matches_extraction label_two_args grid4
           (1, 1, 1) (0, 0, 0) (dec 2 1) eq_refl).
Defined.

(** The run above ends normally, off screen, and reports the file; asking
    for a label the volume does not have ends with [SystemExit]. *)
Example main_on_grid4 :
  (∃ p, main label_two_args grid4 (1, 1, 1) (0, 0, 0)
        = Returned p (Some "Saved screenshot to out.png"%string) ∧
        off_screen p = true ∧ window_size p = (1024%nat, 768%nat)) ∧
  main {| args_input := "grid.nii"; args_label := Some (dec 3 1);
          args_threshold := dec 0 1; args_sigma := 0; args_smooth_iter := 0;
          args_smooth_relax := dec 1 10; args_color := "red";
          args_background := "white"; args_view := "iso";
          args_screenshot := None; args_show_edges := false |}
       grid4 (1, 1, 1) (0, 0, 0)
  = SystemExit "grid.nii" (dec 1 2).
Proof.
  split; [|by_eval].
  eexists. split; [reflexivity|]. split; reflexivity.
Qed.
End CommandLineWitness.
